(** * A model of [todolist.py]: the class [Task] and the class [ToDoList]

    The Python program is embedded shallowly.  The objects that are
    mutated in place and can be shared (tasks, lists of tasks, to-do
    lists) live in heaps addressed by locations; every method is a
    computation in a state-and-exception monad over the [world] (heaps,
    file system, clock).  What comes out of a JSON file is dynamically
    typed, so the attributes of a task hold Python [value]s, as in the
    source, and the type errors Python raises are part of the model.
    The interactive loop [demo_cli] is not modelled. *)

From stdpp Require Import gmap strings list fin_maps.
From Stdlib Require Import ZArith Lia.

Open Scope Z_scope.

(** ** Python values *)

(** A Python [float].  A finite double is the dyadic rational
    [m * 2^e]; Python compares an [int] with a [float] exactly, so
    this is all the comparisons of the program need. *)
Inductive pyfloat :=
  | FNan
  | FInf (negative : bool)
  | FFin (m e : Z).

(** The objects [json.load] can return (and that [json.dump] accepts). *)
#[warnings="-register-all"]
Inductive value :=
  | VNone
  | VBool (b : bool)
  | VInt (z : Z)
  | VFloat (f : pyfloat)
  | VStr (s : string)
  | VList (l : list value)
  | VDict (d : gmap string value).

(** The exceptions the program can raise.  [NoObject] is not a Python
    exception: it marks the dereference of a location that holds no
    object, which a Python reference never is. *)
Inductive exn :=
  | KeyError
  | TypeError
  | AttributeError
  | IndexError
  | FileNotFoundError
  | JSONDecodeError
  | NoObject.

Inductive outcome (A : Type) :=
  | Ok (a : A)
  | Raise (e : exn).
Arguments Ok {A} a.
Arguments Raise {A} e.

(** [k < f] and [f > k] for an integer [k] and a float [f]; every
    comparison with NaN is false. *)
Definition int_lt_float (k : Z) (f : pyfloat) : bool :=
  match f with
  | FNan => false
  | FInf negative => negb negative
  | FFin m e => if 0 <=? e then k <? m * 2 ^ e else k * 2 ^ (- e) <? m
  end.

Definition float_eq_int (f : pyfloat) (k : Z) : bool :=
  match f with
  | FNan | FInf _ => false
  | FFin m e => if 0 <=? e then m * 2 ^ e =? k else m =? k * 2 ^ (- e)
  end.

(** [k < v] for the integer literal [k]: defined on numbers ([bool] is
    a subclass of [int]), a [TypeError] on everything else. *)
Definition int_lt (k : Z) (v : value) : outcome bool :=
  match v with
  | VInt z => Ok (k <? z)
  | VBool b => Ok (k <? Z.b2z b)
  | VFloat f => Ok (int_lt_float k f)
  | VNone | VStr _ | VList _ | VDict _ => Raise TypeError
  end.

(** [min(v, k)]: the first argument is kept unless [k < v]. *)
Definition py_min (v : value) (k : Z) : outcome value :=
  match int_lt k v with
  | Ok true => Ok (VInt k)
  | Ok false => Ok v
  | Raise e => Raise e
  end.

(** [max(k, v)]: the first argument is kept unless [v > k], which for
    the numbers [min] returns is [k < v]. *)
Definition py_max (k : Z) (v : value) : outcome value :=
  match int_lt k v with
  | Ok true => Ok v
  | Ok false => Ok (VInt k)
  | Raise e => Raise e
  end.

(** [max(1, min(priority, 3))], lines 23 and 108. *)
Definition clamp (priority : value) : outcome value :=
  match py_min priority 3 with
  | Ok m => py_max 1 m
  | Raise e => Raise e
  end.

(** Truth value of an object, as [if self.done] and [not t.done] take it. *)
Definition truthy (v : value) : bool :=
  match v with
  | VNone => false
  | VBool b => b
  | VInt z => negb (z =? 0)
  | VFloat (FFin m _) => negb (m =? 0)
  | VFloat _ => true
  | VStr s => negb (String.eqb s "")
  | VList l => negb (bool_decide (l = []))
  | VDict d => negb (bool_decide (d = ∅))
  end.

(** ** The [Task] record *)

(** The six attributes [__init__] creates (lines 21-26). *)
Record Task := mkTask {
  title : value;
  note : value;
  priority : value;
  assignee : value;
  done : value;
  created_at : value;
}.

Definition set_title (v : value) (t : Task) : Task :=
  mkTask v (note t) (priority t) (assignee t) (done t) (created_at t).
Definition set_note (v : value) (t : Task) : Task :=
  mkTask (title t) v (priority t) (assignee t) (done t) (created_at t).
Definition set_priority (v : value) (t : Task) : Task :=
  mkTask (title t) (note t) v (assignee t) (done t) (created_at t).
Definition set_assignee (v : value) (t : Task) : Task :=
  mkTask (title t) (note t) (priority t) v (done t) (created_at t).
Definition set_done (v : value) (t : Task) : Task :=
  mkTask (title t) (note t) (priority t) (assignee t) v (created_at t).
Definition set_created_at (v : value) (t : Task) : Task :=
  mkTask (title t) (note t) (priority t) (assignee t) (done t) v.

(** ** The world: heap, file system and clock *)

Definition loc := nat.

(** What a path of the file system holds: text that is not JSON, or the
    JSON document [json.load] parses it to.  [json.dump] followed by
    [json.load] is taken to give back the dumped value. *)
Inductive file :=
  | Corrupt
  | Json (v : value).

(** [heap] holds the [Task] objects, [lists] the list objects (each a
    sequence of references to tasks), [stores] the [ToDoList] objects
    (the list object their attribute [tasks] refers to), [files] the
    file system; [clock n] is the string the [n]-th call of
    [datetime.now().isoformat()] returns and [ticks] counts the calls
    made so far.  The file system never refuses an access: permissions
    and full disks are outside the model. *)
Record world := mkWorld {
  heap : gmap loc Task;
  lists : gmap loc (list loc);
  stores : gmap loc loc;
  files : gmap string file;
  clock : nat -> string;
  ticks : nat;
}.

Definition with_heap (h : gmap loc Task) (w : world) : world :=
  mkWorld h (lists w) (stores w) (files w) (clock w) (ticks w).
Definition with_lists (ls : gmap loc (list loc)) (w : world) : world :=
  mkWorld (heap w) ls (stores w) (files w) (clock w) (ticks w).
Definition with_stores (s : gmap loc loc) (w : world) : world :=
  mkWorld (heap w) (lists w) s (files w) (clock w) (ticks w).
Definition with_files (f : gmap string file) (w : world) : world :=
  mkWorld (heap w) (lists w) (stores w) f (clock w) (ticks w).
Definition with_ticks (n : nat) (w : world) : world :=
  mkWorld (heap w) (lists w) (stores w) (files w) (clock w) n.

(** ** The monad of Python computations

    A computation takes the world and returns a result or a raised
    exception together with the world it leaves: what was mutated
    before an exception stays mutated. *)
Definition M (A : Type) : Type := world -> outcome A * world.

Definition ret {A} (a : A) : M A := fun w => (Ok a, w).
Definition bind {A B} (m : M A) (k : A -> M B) : M B :=
  fun w => match m w with
           | (Ok a, w') => k a w'
           | (Raise e, w') => (Raise e, w')
           end.
Definition lift {A} (o : outcome A) : M A := fun w => (o, w).

(** [try: body except FileNotFoundError: handler]. *)
Definition try_except_FileNotFoundError {A} (body handler : M A) : M A :=
  fun w => match body w with
           | (Raise FileNotFoundError, w') => handler w'
           | r => r
           end.

#[global] Instance M_ret : MRet M := @ret.
#[global] Instance M_bind : MBind M := fun A B k m => bind m k.

(** [[f(x) for x in l]], evaluated left to right. *)
Fixpoint for_each {A B} (f : A -> M B) (l : list A) : M (list B) :=
  match l with
  | [] => ret []
  | x :: l' => y ← f x; ys ← for_each f l'; ret (y :: ys)
  end.

(** Primitive accesses to the world. *)
Definition now_isoformat : M value :=
  fun w => (Ok (VStr (clock w (ticks w))), with_ticks (S (ticks w)) w).

Definition new_task (t : Task) : M loc :=
  fun w => let l := fresh (dom (heap w)) in
           (Ok l, with_heap (<[l := t]> (heap w)) w).

Definition get_task (l : loc) : M Task :=
  fun w => match heap w !! l with
           | Some t => (Ok t, w)
           | None => (Raise NoObject, w)
           end.

Definition update_task (f : Task -> Task) (l : loc) : M unit :=
  fun w => match heap w !! l with
           | Some t => (Ok tt, with_heap (<[l := f t]> (heap w)) w)
           | None => (Raise NoObject, w)
           end.

(** A new list object, as [[]], [list(l)] and a comprehension create. *)
Definition new_list (ts : list loc) : M loc :=
  fun w => let r := fresh (dom (lists w)) in
           (Ok r, with_lists (<[r := ts]> (lists w)) w).

Definition get_list (r : loc) : M (list loc) :=
  fun w => match lists w !! r with
           | Some ts => (Ok ts, w)
           | None => (Raise NoObject, w)
           end.

(** In-place update of a list object ([append], [del]). *)
Definition set_list (r : loc) (ts : list loc) : M unit :=
  fun w => match lists w !! r with
           | Some _ => (Ok tt, with_lists (<[r := ts]> (lists w)) w)
           | None => (Raise NoObject, w)
           end.

(** A new [ToDoList] object whose attribute [tasks] refers to [r]. *)
Definition new_store (r : loc) : M loc :=
  fun w => let s := fresh (dom (stores w)) in
           (Ok s, with_stores (<[s := r]> (stores w)) w).

(** [self.tasks], read and assigned. *)
Definition get_tasks_attr (self : loc) : M loc :=
  fun w => match stores w !! self with
           | Some r => (Ok r, w)
           | None => (Raise NoObject, w)
           end.

Definition set_tasks_attr (self : loc) (r : loc) : M unit :=
  fun w => match stores w !! self with
           | Some _ => (Ok tt, with_stores (<[self := r]> (stores w)) w)
           | None => (Raise NoObject, w)
           end.

(** [open(filename, "r")] followed by [json.load(f)]. *)
Definition json_load (filename : string) : M value :=
  fun w => match files w !! filename with
           | None => (Raise FileNotFoundError, w)
           | Some Corrupt => (Raise JSONDecodeError, w)
           | Some (Json v) => (Ok v, w)
           end.

(** [open(filename, "w")] creates or truncates the file: it holds the
    empty text, which is not a JSON document, until something is written. *)
Definition open_w (filename : string) : M unit :=
  fun w => (Ok tt, with_files (<[filename := Corrupt]> (files w)) w).

Definition json_dump (v : value) (filename : string) : M unit :=
  fun w => (Ok tt, with_files (<[filename := Json v]> (files w)) w).

(** ** Built-in operations on values *)

(** [data[key]] for a string [key]. *)
Definition py_getitem (data : value) (key : string) : outcome value :=
  match data with
  | VDict d => match d !! key with
               | Some v => Ok v
               | None => Raise KeyError
               end
  | _ => Raise TypeError
  end.

(** [data.get(key, default)]; only a [dict] has the method. *)
Definition py_get (data : value) (key : string) (dflt : value) : outcome value :=
  match data with
  | VDict d => Ok (default dflt (d !! key))
  | _ => Raise AttributeError
  end.

(** [for d in data]: the elements of a list, the keys of a dict, the
    characters of a string.  The order of the keys and the grouping of
    bytes into characters play no part below: [from_dict] raises on the
    first string it is given, whatever the string. *)
Definition py_iter (data : value) : outcome (list value) :=
  match data with
  | VList l => Ok l
  | VDict d => Ok (VStr <$> (map_to_list d).*1)
  | VStr s => Ok ((fun a => VStr (String a EmptyString)) <$> String.list_ascii_of_string s)
  | _ => Raise TypeError
  end.

(** [l[index]] and [del l[index]] on a list; a negative index counts
    from the end. *)
Definition py_position {A} (l : list A) (index : Z) : option nat :=
  let n := Z.of_nat (length l) in
  if bool_decide (0 <= index < n) then Some (Z.to_nat index)
  else if bool_decide (- n <= index < 0) then Some (Z.to_nat (n + index))
  else None.

Definition list_getitem {A} (l : list A) (index : Z) : outcome A :=
  match py_position l index ≫= (l !!.) with
  | Some x => Ok x
  | None => Raise IndexError
  end.

Definition list_delitem {A} (l : list A) (index : Z) : outcome (list A) :=
  match py_position l index with
  | Some i => Ok (delete i l)
  | None => Raise IndexError
  end.

(** ** [class Task] *)

(** [Task.__init__], lines 20-26, called with its four arguments (a
    caller that omits [note], [priority] or [assignee] passes [""], [2]
    or ["Unassigned"]).  The object is entered in the heap once its
    attributes are computed; when the clamp raises, nothing has been read
    from the clock. *)
Definition Task_init (title note priority assignee : value) : M loc :=
  p ← lift (clamp priority);
  stamp ← now_isoformat;
  new_task (mkTask title note p assignee (VBool false) stamp).

Definition mark_done (self : loc) : M unit :=
  update_task (set_done (VBool true)) self.

Definition mark_undone (self : loc) : M unit :=
  update_task (set_done (VBool false)) self.

(** [Task.to_dict], lines 36-45. *)
Definition to_dict (t : Task) : value :=
  VDict (<["title" := title t]>
        (<["note" := note t]>
        (<["priority" := priority t]>
        (<["assignee" := assignee t]>
        (<["done" := done t]>
        (<["created_at" := created_at t]> ∅)))))).

(** [t.to_dict()] on a reference [t]. *)
Definition to_dict_of (t : loc) : M value :=
  task ← get_task t;
  ret (to_dict task).

(** [Task.from_dict], lines 48-53.  The default of the last [get] is an
    argument, so the clock is read whether or not the key is there. *)
Definition from_dict (data : value) : M loc :=
  v_title ← lift (py_getitem data "title");
  v_note ← lift (py_get data "note" (VStr ""));
  v_priority ← lift (py_get data "priority" (VInt 2));
  v_assignee ← lift (py_get data "assignee" (VStr "Unassigned"));
  t ← Task_init v_title v_note v_priority v_assignee;
  v_done ← lift (py_get data "done" (VBool false));
  _ ← update_task (set_done v_done) t;
  stamp ← now_isoformat;
  v_created ← lift (py_get data "created_at" stamp);
  _ ← update_task (set_created_at v_created) t;
  ret t.

(** The literal [{1: "High", 2: "Med", 3: "Low"}]. *)
Definition labels : list (Z * string) :=
  [(1, "High"); (2, "Med"); (3, "Low")]%string.

(** Equality of a key of [labels] with an object: numbers are compared
    by value ([True == 1], [2.0 == 2]). *)
Definition key_eq (k : Z) (v : value) : bool :=
  match v with
  | VInt z => k =? z
  | VBool b => k =? Z.b2z b
  | VFloat f => float_eq_int f k
  | _ => false
  end.

(** [table[v]]: lists and dicts are unhashable, an absent key is a
    [KeyError]. *)
Definition dict_getitem (table : list (Z * string)) (v : value) : outcome string :=
  match v with
  | VList _ | VDict _ => Raise TypeError
  | _ => match List.find (fun kv => key_eq kv.1 v) table with
         | Some kv => Ok kv.2
         | None => Raise KeyError
         end
  end.

Section Display.

(** [str(v)] for an object that is not a string, a built-in of Python
    that always returns. *)
Variable py_repr : value -> string.

Definition py_str (v : value) : string :=
  match v with
  | VStr s => s
  | _ => py_repr v
  end.

(** [Task.__str__], lines 55-58. *)
Definition Task_str (t : Task) : outcome string :=
  let status := if truthy (done t) then "✓" else " " in
  match dict_getitem labels (priority t) with
  | Ok pr =>
      Ok ("[" +:+ status +:+ "] " +:+ py_str (title t) +:+ " (Priority: " +:+ pr
          +:+ ", Assignee: " +:+ py_str (assignee t) +:+ ")")
  | Raise e => Raise e
  end.

End Display.

(** ** [class ToDoList] *)

(** [ToDoList.__init__], lines 63-64. *)
Definition ToDoList_init : M loc :=
  r ← new_list [];
  new_store r.

(** [add_task], lines 66-68: [append] changes the list object in place. *)
Definition add_task (self task : loc) : M unit :=
  r ← get_tasks_attr self;
  ts ← get_list r;
  set_list r (ts ++ [task]).

(** [remove_task], lines 70-75: [del] changes the list object in place. *)
Definition remove_task (self : loc) (index : Z) : M bool :=
  r ← get_tasks_attr self;
  ts ← get_list r;
  if bool_decide (0 <= index < Z.of_nat (length ts)) then
    ts' ← lift (list_delitem ts index);
    _ ← set_list r ts';
    ret true
  else ret false.

(** [[t for t in ts if not t.done]]. *)
Fixpoint not_done (ts : list loc) : M (list loc) :=
  match ts with
  | [] => ret []
  | l :: ts' =>
      t ← get_task l;
      rest ← not_done ts';
      ret (if truthy (done t) then rest else l :: rest)
  end.

(** [get_tasks], lines 77-81: both branches return a new list object. *)
Definition get_tasks (self : loc) (show_completed : bool) : M loc :=
  r ← get_tasks_attr self;
  ts ← get_list r;
  if show_completed then new_list ts
  else pending ← not_done ts; new_list pending.

(** [save], lines 83-86. *)
Definition save (self : loc) (filename : string) : M unit :=
  _ ← open_w filename;
  r ← get_tasks_attr self;
  ts ← get_list r;
  ds ← for_each to_dict_of ts;
  json_dump (VList ds) filename.

(** [load], lines 88-96: the attribute [tasks] is bound to a new list
    object once the comprehension has been evaluated in full. *)
Definition load (self : loc) (filename : string) : M unit :=
  try_except_FileNotFoundError
    (data ← json_load filename;
     items ← lift (py_iter data);
     ts ← for_each from_dict items;
     r ← new_list ts;
     set_tasks_attr self r)
    (r ← new_list [];
     set_tasks_attr self r).

(** One [if x is not None: t.x = x] of [edit_task]. *)
Definition assign_unless_None (set : value -> Task -> Task) (v : value) (t : loc) : M unit :=
  match v with
  | VNone => ret tt
  | _ => update_task (set v) t
  end.

(** [edit_task], lines 98-112. *)
Definition edit_task (self : loc) (index : Z) (v_title v_note v_priority v_assignee : value)
    : M bool :=
  r ← get_tasks_attr self;
  ts ← get_list r;
  if bool_decide (0 <= index < Z.of_nat (length ts)) then
    t ← lift (list_getitem ts index);
    _ ← assign_unless_None set_title v_title t;
    _ ← assign_unless_None set_note v_note t;
    _ ← match v_priority with
        | VNone => ret tt
        | _ => p ← lift (clamp v_priority); update_task (set_priority p) t
        end;
    _ ← assign_unless_None set_assignee v_assignee t;
    ret true
  else ret false.

(** * A model of the interactive loop [demo_cli]

    The loop reads lines from the standard input and writes to the
    standard output; both are part of a [session], beside the world of
    the two classes.  The built-ins it applies to the lines it reads
    ([str.strip], [str.lower], [int]) are parameters of the model. *)

From stdpp Require Import pretty.

Open Scope Z_scope.

Definition newline : string := String (Ascii.ascii_of_nat 10) EmptyString.

(** [stdin] holds the lines still to be read, without their line ends;
    [stdout] the texts written so far, the oldest first. *)
Record console := mkConsole {
  stdin : list string;
  stdout : list string;
}.

Record session := mkSession {
  con : console;
  wld : world;
}.

(** The exceptions of the loop: those of the two classes, the
    [ValueError] of [int] and of [list.index], the [EOFError] of [input].
    [OutOfFuel] is not a Python exception: it marks a run of the model
    cut short by its bound on the number of iterations. *)
Inductive cli_exn :=
  | Core (e : exn)
  | ValueError
  | EOFError
  | OutOfFuel.

Inductive cli_result (A : Type) :=
  | Returns (a : A)
  | Raises (e : cli_exn).
Arguments Returns {A} a.
Arguments Raises {A} e.

Definition Cli (A : Type) : Type := session -> cli_result A * session.

Definition cli_ret {A} (a : A) : Cli A := fun s => (Returns a, s).
Definition cli_raise {A} (e : cli_exn) : Cli A := fun s => (Raises e, s).
Definition cli_bind {A B} (m : Cli A) (k : A -> Cli B) : Cli B :=
  fun s => match m s with
           | (Returns a, s') => k a s'
           | (Raises e, s') => (Raises e, s')
           end.

#[global] Instance Cli_ret : MRet Cli := @cli_ret.
#[global] Instance Cli_bind : MBind Cli := fun A B k m => cli_bind m k.

(** A method of the two classes, called from the loop. *)
Definition core {A} (m : M A) : Cli A :=
  fun s => match m (wld s) with
           | (Ok a, w) => (Returns a, mkSession (con s) w)
           | (Raise e, w) => (Raises (Core e), mkSession (con s) w)
           end.

(** [try: body except ValueError: handler]; the error of the JSON
    decoder is a [ValueError] too. *)
Definition try_except_ValueError {A} (body handler : Cli A) : Cli A :=
  fun s => match body s with
           | (Raises ValueError, s') | (Raises (Core JSONDecodeError), s') => handler s'
           | r => r
           end.

Definition write (text : string) : Cli unit :=
  fun s => (Returns tt,
            mkSession (mkConsole (stdin (con s)) (stdout (con s) ++ [text])) (wld s)).

Definition read_line : Cli string :=
  fun s => match stdin (con s) with
           | [] => (Raises EOFError, s)
           | line :: rest =>
               (Returns line, mkSession (mkConsole rest (stdout (con s))) (wld s))
           end.

(** [input(prompt)]: the prompt is written, then a line is read; at the
    end of the input it raises [EOFError]. *)
Definition input (prompt : string) : Cli string :=
  _ ← write prompt;
  read_line.

(** [print(text)]. *)
Definition print (text : string) : Cli unit :=
  _ ← write text;
  write newline.

(** [list.index]: the first position that holds the object. *)
Fixpoint list_index (l : list loc) (x : loc) : option nat :=
  match l with
  | [] => None
  | y :: l' => if bool_decide (y = x) then Some 0%nat else S <$> list_index l' x
  end.

(** [s or d] and [s if s else None] for a string [s]. *)
Definition or_else (s d : string) : string :=
  if bool_decide (s = "") then d else s.

Definition none_if_blank (s : string) : value :=
  if bool_decide (s = "") then VNone else VStr s.

Definition tasks_json : string := "tasks.json".

Section Cli.

(** [s.strip()], [s.lower()], and [int(s)] with [None] where it raises
    [ValueError]; [py_repr] as for [Task_str]. *)
Variable strip : string -> string.
Variable lower : string -> string.
Variable int_of_str : string -> option Z.
Variable py_repr : value -> string.

Definition py_int (s : string) : Cli Z :=
  match int_of_str s with
  | Some z => cli_ret z
  | None => cli_raise ValueError
  end.

(** [print(label, t)] for a task [t]: the label and the separator are
    written before [str(t)] is computed. *)
Definition print_task (label : string) (t : loc) : Cli unit :=
  _ ← write label;
  _ ← write " ";
  task ← core (get_task t);
  text ← core (lift (Task_str py_repr task));
  _ ← write text;
  write newline.

(** The list [todo.tasks], as the loop reads it. *)
Definition store_list (todo : loc) : Cli (list loc) :=
  r ← core (get_tasks_attr todo);
  core (get_list r).

(** [todo.tasks.index(x)] and [todo.tasks[j]]. *)
Definition tasks_index (todo x : loc) : Cli Z :=
  ts ← store_list todo;
  match list_index ts x with
  | Some j => cli_ret (Z.of_nat j)
  | None => cli_raise ValueError
  end.

Definition tasks_item (todo : loc) (j : Z) : Cli loc :=
  ts ← store_list todo;
  core (lift (list_getitem ts j)).

(** [for i, t in enumerate(tasks): print(f"{i}. {t}")], from [i]. *)
Fixpoint print_numbered (i : nat) (tasks : list loc) : Cli unit :=
  match tasks with
  | [] => cli_ret tt
  | t :: rest =>
      task ← core (get_task t);
      text ← core (lift (Task_str py_repr task));
      _ ← print (pretty i +:+ ". " +:+ text);
      print_numbered (S i) rest
  end.

(** [show_tasks], lines 120-126. *)
Definition show_tasks (todo : loc) (show_completed : bool) : Cli unit :=
  r ← core (get_tasks todo show_completed);
  tasks ← core (get_list r);
  if bool_decide (tasks = []) then print "No tasks to show."
  else print_numbered 0 tasks.

(** The branch [add], lines 132-143. *)
Definition cmd_add (todo : loc) : Cli unit :=
  l_title ← input "Title: ";
  l_note ← input "Note (optional): ";
  l_pr ← input "Priority 1=High, 2=Med, 3=Low (default 2): ";
  l_assignee ← input "Assignee (default Unassigned): ";
  let pr := or_else (strip l_pr) "2" in
  let pr_num := default 2 (int_of_str pr) in
  task ← core (Task_init (VStr (strip l_title)) (VStr (strip l_note)) (VInt pr_num)
                 (VStr (or_else (strip l_assignee) "Unassigned")));
  _ ← core (add_task todo task);
  print_task "Added:" task.

(** The branch [done], lines 151-164. *)
Definition cmd_done (todo : loc) : Cli unit :=
  l_idx ← input "Index to mark done: ";
  try_except_ValueError
    (i ← py_int (strip l_idx);
     r ← core (get_tasks todo true);
     tasks ← core (get_list r);
     if bool_decide (0 <= i < Z.of_nat (length tasks)) then
       x ← core (lift (list_getitem tasks i));
       master_index ← tasks_index todo x;
       t ← tasks_item todo master_index;
       _ ← core (mark_done t);
       t' ← tasks_item todo master_index;
       print_task "Marked done:" t'
     else print "Invalid index.")
    (print "Please enter a number.").

(** The branch [undone], lines 166-178. *)
Definition cmd_undone (todo : loc) : Cli unit :=
  l_idx ← input "Index to mark undone: ";
  try_except_ValueError
    (i ← py_int (strip l_idx);
     r ← core (get_tasks todo true);
     tasks ← core (get_list r);
     if bool_decide (0 <= i < Z.of_nat (length tasks)) then
       x ← core (lift (list_getitem tasks i));
       master_index ← tasks_index todo x;
       t ← tasks_item todo master_index;
       _ ← core (mark_undone t);
       t' ← tasks_item todo master_index;
       print_task "Marked undone:" t'
     else print "Invalid index.")
    (print "Please enter a number.").

(** The branch [edit], lines 180-200. *)
Definition cmd_edit (todo : loc) : Cli unit :=
  l_idx ← input "Index to edit: ";
  try_except_ValueError
    (i ← py_int (strip l_idx);
     r ← core (get_tasks todo true);
     tasks ← core (get_list r);
     if bool_decide (0 <= i < Z.of_nat (length tasks)) then
       x ← core (lift (list_getitem tasks i));
       master_index ← tasks_index todo x;
       l_title ← input "New title (leave blank to keep): ";
       l_note ← input "New note (leave blank to keep): ";
       l_pr ← input "New priority 1-3 (leave blank to keep): ";
       l_assignee ← input "New assignee (leave blank to keep): ";
       v_priority ← (if bool_decide (l_pr = "") then cli_ret VNone
                     else z ← py_int l_pr; cli_ret (VInt z));
       _ ← core (edit_task todo master_index (none_if_blank l_title) (none_if_blank l_note)
                   v_priority (none_if_blank l_assignee));
       t ← tasks_item todo master_index;
       print_task "Edited:" t
     else print "Invalid index.")
    (print "Please enter numbers for index/priority when required.").

(** The branch [remove], lines 202-215. *)
Definition cmd_remove (todo : loc) : Cli unit :=
  l_idx ← input "Index to remove: ";
  try_except_ValueError
    (i ← py_int (strip l_idx);
     r ← core (get_tasks todo true);
     tasks ← core (get_list r);
     if bool_decide (0 <= i < Z.of_nat (length tasks)) then
       x ← core (lift (list_getitem tasks i));
       master_index ← tasks_index todo x;
       removed ← tasks_item todo master_index;
       _ ← core (remove_task todo master_index);
       print_task "Removed:" removed
     else print "Invalid index.")
    (print "Please enter a number.").

(** One turn of [while True], lines 128-227: [true] when the loop is
    left by [break]. *)
Definition iteration (todo : loc) : Cli bool :=
  _ ← print (newline +:+
             "Commands: add, list, list_pending, done, undone, edit, remove, save, exit");
  l_cmd ← input "Enter command: ";
  let cmd := lower (strip l_cmd) in
  if bool_decide (cmd = "add") then _ ← cmd_add todo; cli_ret false
  else if bool_decide (cmd = "list") then _ ← show_tasks todo true; cli_ret false
  else if bool_decide (cmd = "list_pending") then _ ← show_tasks todo false; cli_ret false
  else if bool_decide (cmd = "done") then _ ← cmd_done todo; cli_ret false
  else if bool_decide (cmd = "undone") then _ ← cmd_undone todo; cli_ret false
  else if bool_decide (cmd = "edit") then _ ← cmd_edit todo; cli_ret false
  else if bool_decide (cmd = "remove") then _ ← cmd_remove todo; cli_ret false
  else if bool_decide (cmd = "save") then
    _ ← core (save todo tasks_json);
    _ ← print ("Saved to " +:+ tasks_json +:+ ".");
    cli_ret false
  else if bool_decide (cmd = "exit") then
    _ ← core (save todo tasks_json);
    _ ← print "Saved and exiting. Bye!";
    cli_ret true
  else _ ← print "Unknown command. Try again."; cli_ret false.

(** The loop, cut after [fuel] turns. *)
Fixpoint cli_loop (fuel : nat) (todo : loc) : Cli unit :=
  match fuel with
  | O => cli_raise OutOfFuel
  | S fuel' =>
      iteration todo ≫= fun stop : bool =>
      if stop then cli_ret tt else cli_loop fuel' todo
  end.

(** [demo_cli], lines 115-227. *)
Definition demo_cli (fuel : nat) : Cli unit :=
  todo ← core ToDoList_init;
  _ ← core (load todo tasks_json);
  cli_loop fuel todo.

End Cli.

(** * Specification vocabulary *)

(** The references a store holds, in order: the content of the list
    object its attribute [tasks] refers to. *)
Definition refs_of (w : world) (self : loc) : option (list loc) :=
  stores w !! self ≫= (lists w !!.).

(** The task objects a store holds, in order, when all of them exist. *)
Definition tasks_of (w : world) (self : loc) : option (list Task) :=
  refs_of w self ≫= mapM (heap w !!.).

(** A task that [get_tasks(False)] keeps: [not t.done] holds. *)
Definition is_pending (w : world) (l : loc) : Prop :=
  ∃ t, heap w !! l = Some t ∧ truthy (done t) = false.

#[global] Instance is_pending_dec w l : Decision (is_pending w l).
Proof.
  unfold is_pending. destruct (heap w !! l) as [t|] eqn:E.
  - destruct (truthy (done t)) eqn:D.
    + right. intros (t' & [= <-] & ?). congruence.
    + left. eauto.
  - right. intros (t' & [=] & ?).
Defined.

(** [v == False]: numbers are compared by value ([0 == False]); no
    other object equals [False]. *)
Definition eq_False (v : value) : bool :=
  match v with
  | VBool b => negb b
  | VInt z => z =? 0
  | VFloat f => float_eq_int f 0
  | _ => false
  end.

(** The reading of "[get_tasks(False)] returns exactly the elements with
    [done == False]", for one store in one world. *)
Definition pending_are_done_eq_False (w : world) (self : loc) : Prop :=
  ∀ ts r' w' pending,
    refs_of w self = Some ts ->
    get_tasks self false w = (Ok r', w') ->
    lists w' !! r' = Some pending ->
    ∀ l t, l ∈ ts -> heap w !! l = Some t ->
           (l ∈ pending <-> eq_False (done t) = true).

(** The mapping [{"title": "x", "done": None}]. *)
Definition null_done_record : gmap string value :=
  <["title" := VStr "x"]> (<["done" := VNone]> ∅).

(** The invariant of the data model: the priority is one of 1, 2, 3. *)
Definition valid_priority (v : value) : Prop :=
  v = VInt 1 ∨ v = VInt 2 ∨ v = VInt 3.

Definition valid_task (t : Task) : Prop := valid_priority (priority t).

(** The objects Python orders against an [int]. *)
Definition is_number (v : value) : Prop :=
  match v with
  | VInt _ | VBool _ | VFloat _ => True
  | _ => False
  end.

(** [x if v is None else v], the effect of one optional argument of
    [edit_task] on the attribute it governs. *)
Definition keep_or (old new : value) : value :=
  match new with
  | VNone => old
  | _ => new
  end.

(** The reading of "deserialize succeeds if and only if the mapping
    contains the key title", for one mapping in one world. *)
Definition from_dict_succeeds_iff_title (m : gmap string value) (w : world) : Prop :=
  (∃ l w', from_dict (VDict m) w = (Ok l, w')) <-> is_Some (m !! "title").

(** The mapping [{"title": "x", "priority": None}]. *)
Definition null_priority_record : gmap string value :=
  <["title" := VStr "x"]> (<["priority" := VNone]> ∅).

(** [w'] differs from [w] at most by new task objects and by the clock
    having advanced: stores, lists, files and existing tasks are as in
    [w]. *)
Definition extends (w w' : world) : Prop :=
  stores w' = stores w ∧ lists w' = lists w ∧ files w' = files w ∧
  clock w' = clock w ∧ heap w ⊆ heap w'.

(** A world used to exercise the statements: one store holding three
    tasks, the second of them done. *)
Definition sample_world : world :=
  mkWorld
    (<[0%nat := mkTask (VStr "a") (VStr "") (VInt 1) (VStr "Unassigned") (VBool false) (VStr "t0")]>
    (<[1%nat := mkTask (VStr "b") (VStr "n") (VInt 2) (VStr "Ann") (VBool true) (VStr "t1")]>
    (<[2%nat := mkTask (VStr "c") (VStr "") (VInt 3) (VStr "Bob") (VBool false) (VStr "t2")]> ∅)))
    (<[0%nat := [0; 1; 2]%nat]> ∅)
    (<[0%nat := 0%nat]> ∅)
    ∅
    (fun _ => "now")
    0.

(** [sample_world] with a file [bad.json] whose second record has no
    title. *)
Definition malformed_world : world :=
  with_files
    (<["bad.json" := Json (VList [VDict (<["title" := VStr "ok"]> ∅);
                                  VDict (<["note" := VStr "no title"]> ∅)])]> ∅)
    sample_world.

(** The end-to-end scenario: a new store, [Task("Buy milk", priority=5)]
    added to it, the store saved to [x.json], the file loaded into a
    second new store.  The result is the priority of the task as stored,
    the number of tasks the second store holds, and [str] of its first
    task. *)
Definition buy_milk (py_repr : value -> string) : M (value * nat * outcome string) :=
  store ← ToDoList_init;
  task ← Task_init (VStr "Buy milk") (VStr "") (VInt 5) (VStr "Unassigned");
  _ ← add_task store task;
  r ← get_tasks store true;
  ts ← get_list r;
  first ← lift (list_getitem ts 0);
  stored ← get_task first;
  _ ← save store "x.json";
  store2 ← ToDoList_init;
  _ ← load store2 "x.json";
  r2 ← get_tasks store2 true;
  ts2 ← get_list r2;
  first2 ← lift (list_getitem ts2 0);
  loaded ← get_task first2;
  ret (priority stored, length ts2, Task_str py_repr loaded).

(** ** Reachable worlds *)

(** One call of a public operation of [Task] or [ToDoList]. *)
Inductive op :=
  | Op_Task (v_title v_note v_priority v_assignee : value)
  | Op_mark_done (t : loc)
  | Op_mark_undone (t : loc)
  | Op_from_dict (data : value)
  | Op_ToDoList
  | Op_add_task (self task : loc)
  | Op_remove_task (self : loc) (index : Z)
  | Op_get_tasks (self : loc) (show_completed : bool)
  | Op_save (self : loc) (filename : string)
  | Op_load (self : loc) (filename : string)
  | Op_edit_task (self : loc) (index : Z) (v_title v_note v_priority v_assignee : value).

(** The world a call leaves, whether it returns or raises. *)
Definition run_op (o : op) (w : world) : world :=
  match o with
  | Op_Task a b c d => (Task_init a b c d w).2
  | Op_mark_done t => (mark_done t w).2
  | Op_mark_undone t => (mark_undone t w).2
  | Op_from_dict data => (from_dict data w).2
  | Op_ToDoList => (ToDoList_init w).2
  | Op_add_task self task => (add_task self task w).2
  | Op_remove_task self index => (remove_task self index w).2
  | Op_get_tasks self b => (get_tasks self b w).2
  | Op_save self filename => (save self filename w).2
  | Op_load self filename => (load self filename w).2
  | Op_edit_task self index a b c d => (edit_task self index a b c d w).2
  end.

(** A sequence of calls, the first of the list first. *)
Definition run_ops (ops : list op) (w : world) : world :=
  foldl (fun w o => run_op o w) w ops.

Definition is_int (v : value) : Prop := ∃ p, v = VInt p.

(** A priority the clamp leaves as it is. *)
Definition stable_priority (v : value) : Prop := clamp v = Ok v.

Section InvariantVocabulary.

(** [admissible] singles out the priorities the operations may be
    given, [good] the priorities the task objects are to have. *)
Variable admissible : value -> Prop.
Variable good : value -> Prop.

(** A record whose priority, when it has one, is admissible. *)
Definition admissible_record (data : value) : Prop :=
  match data with
  | VDict m => ∀ v, m !! "priority" = Some v -> admissible v
  | _ => True
  end.

Definition admissible_file (c : file) : Prop :=
  match c with
  | Json (VList items) => Forall admissible_record items
  | _ => True
  end.

(** The priorities a call is given are admissible: the argument of the
    constructor, the argument of [edit_task] unless it is [None], the
    priority entry of a mapping given to [from_dict]. *)
Definition admissible_input (o : op) : Prop :=
  match o with
  | Op_Task _ _ v_priority _ => admissible v_priority
  | Op_from_dict data => admissible_record data
  | Op_edit_task _ _ _ _ v_priority _ => v_priority = VNone ∨ admissible v_priority
  | _ => True
  end.

(** Every task object of the world has a good priority. *)
Definition heap_good (w : world) : Prop :=
  ∀ l t, heap w !! l = Some t -> good (priority t).

(** Every record of every file has an admissible priority or none. *)
Definition files_admissible (w : world) : Prop :=
  ∀ filename c, files w !! filename = Some c -> admissible_file c.

Definition inv (w : world) : Prop := heap_good w ∧ files_admissible w.

(** [m] keeps [inv], and what it returns satisfies [Q]. *)
Definition triple {A} (m : M A) (Q : A -> Prop) : Prop :=
  ∀ w, inv w -> inv (m w).2 ∧ ∀ a, (m w).1 = Ok a -> Q a.

End InvariantVocabulary.

(** The instance for integer inputs: the operations are given integers
    and the tasks keep their priority in {1, 2, 3}. *)
Definition int_priority_input : op -> Prop := admissible_input is_int.
Definition int_priority_files : world -> Prop := files_admissible is_int.
Definition heap_valid : world -> Prop := heap_good valid_priority.

(** The instance for arbitrary inputs: whatever the operations are
    given, the priority of a task is a value the clamp leaves as it is. *)
Definition heap_stable : world -> Prop := heap_good stable_priority.

(** The world before anything has run: no object, no file. *)
Definition empty_world : world := mkWorld ∅ ∅ ∅ ∅ (fun _ => "now") 0.

(** The mapping [{"title": "x", "priority": 2.5}]. *)
Definition half_priority_record : gmap string value :=
  <["title" := VStr "x"]> (<["priority" := VFloat (FFin 5 (-1))]> ∅).

(** The world the public operations build from nothing when a new store
    is given the task [from_dict] makes of [null_done_record]. *)
Definition null_done_world : world :=
  run_ops [Op_ToDoList; Op_from_dict (VDict null_done_record); Op_add_task 0%nat 0%nat]
    empty_world.

(** ** Vocabulary of the further properties *)

(** A record [from_dict] accepts: a mapping with a title whose priority,
    when it has one, is a number. *)
Definition loadable (v : value) : Prop :=
  match v with
  | VDict m => is_Some (m !! "title") ∧ (∀ p, m !! "priority" = Some p -> is_number p)
  | _ => False
  end.

(** The objects that cannot be the key of a [dict]. *)
Definition unhashable (v : value) : Prop :=
  match v with
  | VList _ | VDict _ => True
  | _ => False
  end.

(** ** The interactive loop *)

(** What the loop relies on: its store refers to a list object, no task
    is in the list twice, and every reference of the list is a task
    object. *)
Definition cli_wf (todo : loc) (w : world) : Prop :=
  ∃ r ts, stores w !! todo = Some r ∧ lists w !! r = Some ts ∧ NoDup ts ∧
          ∀ l, l ∈ ts -> is_Some (heap w !! l).

(** What the loop keeps: its store is well formed and every priority
    is 1, 2 or 3. *)
Definition cli_inv (todo : loc) (w : world) : Prop := cli_wf todo w ∧ heap_valid w.

(** The file of the loop holds the tasks of the store as they are. *)
Definition saved (todo : loc) (w : world) : Prop :=
  ∃ tl, tasks_of w todo = Some tl ∧
        files w !! tasks_json = Some (Json (VList (to_dict <$> tl))).

(** [m], run where [P] holds, returns [a] in a world with [Q a] or
    raises [e] in a world with [E e]. *)
Definition spec {A} (P : world -> Prop) (m : M A) (Q : A -> world -> Prop)
    (E : exn -> world -> Prop) : Prop :=
  ∀ w, P w -> match (m w).1 with
              | Ok a => Q a (m w).2
              | Raise e => E e (m w).2
              end.

(** The same for a computation of the loop, whatever the console holds. *)
Definition hoare {A} (P : world -> Prop) (m : Cli A) (Q : A -> world -> Prop)
    (E : cli_exn -> world -> Prop) : Prop :=
  ∀ s, P (wld s) -> match (m s).1 with
                    | Returns a => Q a (wld (m s).2)
                    | Raises e => E e (wld (m s).2)
                    end.

(** The lines still to be read. *)
Definition pending_input (s : session) : nat := length (stdin (con s)).

(** [m] reads forward: the lines left to read are an end of those
    there were, what it writes comes after what was written, and it
    raises [EOFError] only with no line left to read. *)
Definition forward {A} (m : Cli A) : Prop :=
  ∀ s, stdin (con (m s).2) `suffix_of` stdin (con s) ∧
       stdout (con s) `prefix_of` stdout (con (m s).2) ∧
       ((m s).1 = Raises EOFError -> stdin (con (m s).2) = []).

(** [j] is a position of the list of the store. *)
Definition valid_index (todo : loc) (j : Z) (w : world) : Prop :=
  ∃ r ts, stores w !! todo = Some r ∧ lists w !! r = Some ts ∧
          0 <= j < Z.of_nat (length ts).

(** [l] is not in the list of the store; [l] is a task object. *)
Definition absent (todo l : loc) (w : world) : Prop :=
  ∀ r ts, stores w !! todo = Some r -> lists w !! r = Some ts -> l ∉ ts.

Definition allocated (l : loc) (w : world) : Prop := is_Some (heap w !! l).

(** The lines [enumerate] and [print] produce for the texts of the
    tasks, numbered from [i]. *)
Fixpoint listing (i : nat) (texts : list string) : list string :=
  match texts with
  | [] => []
  | text :: rest => (pretty i +:+ ". " +:+ text) :: newline :: listing (S i) rest
  end.

(** [str(t)] for each task of a list, while it returns. *)
Definition texts_of (py_repr : value -> string) (w : world) (tasks : list loc)
    : option (list string) :=
  mapM (fun l => heap w !! l ≫= fun t =>
                 match Task_str py_repr t with
                 | Ok text => Some text
                 | Raise _ => None
                 end) tasks.

(** What [print(label, t)] writes for a task [t], and how it ends:
    when [str(t)] raises, the label and the separator are out. *)
Definition shown (py_repr : value -> string) (label : string) (t : Task) : list string :=
  match Task_str py_repr t with
  | Ok text => [label; " "; text; newline]
  | Raise _ => [label; " "]
  end.

Definition shown_result (py_repr : value -> string) (t : Task) : cli_result unit :=
  match Task_str py_repr t with
  | Ok _ => Returns tt
  | Raise e => Raises (Core e)
  end.

(** The world once [get_tasks] has made the list [kept]. *)
Definition after_get_tasks (kept : list loc) (w : world) : world :=
  with_lists (<[fresh (dom (lists w)) := kept]> (lists w)) w.

Section Shape.

Variable strip : string -> string.
Variable int_of_str : string -> option Z.

(** The part the branches [done], [undone], [edit] and [remove] have in
    common: they differ by the prompt, by the message of the handler
    and by what is done with the index found. *)
Definition with_index (todo : loc) (prompt message : string) (body : Z -> Cli unit)
    : Cli unit :=
  l_idx ← input prompt;
  try_except_ValueError
    (i ← py_int int_of_str (strip l_idx);
     r ← core (get_tasks todo true);
     tasks ← core (get_list r);
     if bool_decide (0 <= i < Z.of_nat (length tasks)) then
       x ← core (lift (list_getitem tasks i));
       master_index ← tasks_index todo x;
       body master_index
     else print "Invalid index.")
    (print message).

End Shape.

Section Turn.

Variable strip : string -> string.
Variable lower : string -> string.
Variable int_of_str : string -> option Z.
Variable py_repr : value -> string.

(** What a turn of the loop does with the line it read at the prompt:
    the chain of [if] and [elif] of lines 132-227. *)
Definition dispatch (todo : loc) (l_cmd : string) : Cli bool :=
  let cmd := lower (strip l_cmd) in
  if bool_decide (cmd = "add") then _ ← cmd_add strip int_of_str py_repr todo; cli_ret false
  else if bool_decide (cmd = "list") then _ ← show_tasks py_repr todo true; cli_ret false
  else if bool_decide (cmd = "list_pending") then
    _ ← show_tasks py_repr todo false; cli_ret false
  else if bool_decide (cmd = "done") then
    _ ← cmd_done strip int_of_str py_repr todo; cli_ret false
  else if bool_decide (cmd = "undone") then
    _ ← cmd_undone strip int_of_str py_repr todo; cli_ret false
  else if bool_decide (cmd = "edit") then
    _ ← cmd_edit strip int_of_str py_repr todo; cli_ret false
  else if bool_decide (cmd = "remove") then
    _ ← cmd_remove strip int_of_str py_repr todo; cli_ret false
  else if bool_decide (cmd = "save") then
    _ ← core (save todo tasks_json);
    _ ← print ("Saved to " +:+ tasks_json +:+ ".");
    cli_ret false
  else if bool_decide (cmd = "exit") then
    _ ← core (save todo tasks_json);
    _ ← print "Saved and exiting. Bye!";
    cli_ret true
  else _ ← print "Unknown command. Try again."; cli_ret false.

End Turn.

(** The last line read between two sessions is the command [exit]: the
    lines of the first are some lines, then a line that stripped and
    lowered is ["exit"], then the lines of the second. *)
Definition ends_with_exit (strip lower : string -> string) (s s' : session) : Prop :=
  ∃ consumed line,
    stdin (con s) = consumed ++ line :: stdin (con s') ∧ lower (strip line) = "exit".

(** A session: the lines to read, the texts written, the world. *)
Definition at_prompt (lines : list string) (out : list string) (w : world) : session :=
  mkSession (mkConsole lines out) w.

(** ** Samples for the loop *)

(** Stand-ins for the built-ins: nothing is stripped or lowered, and
    [int] reads the digits 0, 1, 2 and 7. *)
Definition sample_strip (s : string) : string := s.

Definition sample_int (s : string) : option Z :=
  if bool_decide (s = "0") then Some 0
  else if bool_decide (s = "1") then Some 1
  else if bool_decide (s = "2") then Some 2
  else if bool_decide (s = "7") then Some 7
  else None.

Definition sample_repr (v : value) : string := "?".

(** The second task of [sample_world]. *)
Definition sample_task : Task :=
  mkTask (VStr "b") (VStr "n") (VInt 2) (VStr "Ann") (VBool true) (VStr "t1").

(** [sample_world] with a file that holds the empty object. *)
Definition empty_object_world : world :=
  with_files (<["x.json" := Json (VDict ∅)]> ∅) sample_world.

(** [sample_world] with a file that holds one record. *)
Definition one_record_world : world :=
  with_files (<["x.json" := Json (VList [VDict (<["title" := VStr "ok"]> ∅)])]> ∅)
    sample_world.

(** A world whose file [tasks.json] is not a JSON document. *)
Definition corrupt_world : world :=
  with_files (<[tasks_json := Corrupt]> ∅) empty_world.

(** [m] writes no file, whether it returns or raises. *)
Definition keeps_files {A} (m : M A) : Prop := ∀ w, files (m w).2 = files w.

Definition cli_keeps_files {A} (m : Cli A) : Prop :=
  ∀ s, files (wld (m s).2) = files (wld s).

(** [sample_world] once its store has been saved by the loop. *)
Definition saved_world : world :=
  with_files
    (<[tasks_json :=
         Json (VList (to_dict <$>
           [mkTask (VStr "a") (VStr "") (VInt 1) (VStr "Unassigned") (VBool false) (VStr "t0");
            sample_task;
            mkTask (VStr "c") (VStr "") (VInt 3) (VStr "Bob") (VBool false) (VStr "t2")]))]> ∅)
    sample_world.

(** * Properties *)

(** ** Tactics *)

(** Unfolds the monad: a sequence of binds becomes nested matches on
    the outcomes of its steps. *)
Ltac run :=
  unfold mbind, M_bind, bind, mret, M_ret, ret, lift; simpl.

(** ** The model at work *)

Example clamp_of_True : clamp (VBool true) = Ok (VInt 1).
Proof. reflexivity. Qed.

Example clamp_of_two_and_a_half :
  clamp (VFloat (FFin 5 (-1))) = Ok (VFloat (FFin 5 (-1))).
Proof. reflexivity. Qed.

Example clamp_of_nan : clamp (VFloat FNan) = Ok (VInt 1).
Proof. reflexivity. Qed.

Example clamp_of_str : clamp (VStr "high") = Raise TypeError.
Proof. reflexivity. Qed.

Example str_of_done_task (py_repr : value -> string) :
  Task_str py_repr
    (mkTask (VStr "b") (VStr "n") (VInt 2) (VStr "Ann") (VBool true) (VStr "t1"))
  = Ok "[✓] b (Priority: Med, Assignee: Ann)".
Proof. reflexivity. Qed.

Example pending_of_sample :
  (get_tasks 0%nat false sample_world).1 = Ok 1%nat ∧
  lists (get_tasks 0%nat false sample_world).2 !! 1%nat = Some [0; 2]%nat.
Proof. split; reflexivity. Qed.

(** A task object added twice is one task: an edit through one index
    shows at the other. *)
Example edit_of_shared_task :
  (fmap (M := list) title <$>
     tasks_of (run_ops [Op_ToDoList;
                        Op_Task (VStr "a") (VStr "") (VInt 2) (VStr "Unassigned");
                        Op_add_task 0%nat 0%nat;
                        Op_add_task 0%nat 0%nat;
                        Op_edit_task 0%nat 0 (VStr "z") VNone VNone VNone]
                 empty_world) 0%nat)
  = Some [VStr "z"; VStr "z"].
Proof. reflexivity. Qed.

Example load_of_malformed :
  (load 0%nat "bad.json" malformed_world).1 = Raise KeyError ∧
  refs_of (load 0%nat "bad.json" malformed_world).2 0%nat = Some [0; 1; 2]%nat.
Proof. split; reflexivity. Qed.

(** ** The clamp *)

Lemma clamp_int (p : Z) : clamp (VInt p) = Ok (VInt (Z.max 1 (Z.min p 3))).
Proof.
  unfold clamp, py_min, py_max, int_lt.
  destruct (3 <? p) eqn:E3; simpl.
  - apply Z.ltb_lt in E3. f_equal. f_equal. lia.
  - apply Z.ltb_ge in E3. destruct (1 <? p) eqn:E1.
    + apply Z.ltb_lt in E1. f_equal. f_equal. lia.
    + apply Z.ltb_ge in E1. f_equal. f_equal. lia.
Qed.

Lemma clamp_int_valid (p : Z) : ∃ q, clamp (VInt p) = Ok q ∧ valid_priority q.
Proof.
  exists (VInt (Z.max 1 (Z.min p 3))). split; [apply clamp_int|].
  unfold valid_priority.
  assert (H : Z.max 1 (Z.min p 3) = 1 ∨ Z.max 1 (Z.min p 3) = 2 ∨ Z.max 1 (Z.min p 3) = 3) by lia.
  destruct H as [-> | [-> | ->]]; auto.
Qed.

Lemma clamp_valid (v : value) : valid_priority v -> clamp v = Ok v.
Proof. intros [-> | [-> | ->]]; reflexivity. Qed.

(** ** World bookkeeping *)

Lemma fresh_heap (h : gmap loc Task) : h !! fresh (dom h) = None.
Proof. apply not_elem_of_dom, is_fresh. Qed.

Lemma fresh_list (ls : gmap loc (list loc)) : ls !! fresh (dom ls) = None.
Proof. apply not_elem_of_dom, is_fresh. Qed.

Lemma with_heap_id (w : world) : with_heap (heap w) w = w.
Proof. destruct w; reflexivity. Qed.

Lemma get_tasks_attr_ok (w : world) (self r : loc) :
  stores w !! self = Some r -> get_tasks_attr self w = (Ok r, w).
Proof. intros H. unfold get_tasks_attr. rewrite H. reflexivity. Qed.

Lemma get_list_ok (w : world) (r : loc) (ts : list loc) :
  lists w !! r = Some ts -> get_list r w = (Ok ts, w).
Proof. intros H. unfold get_list. rewrite H. reflexivity. Qed.

(** The first two steps of every method of [ToDoList] but [load]. *)
Ltac read_store Hs Hl :=
  run; rewrite (get_tasks_attr_ok _ _ _ Hs); rewrite (get_list_ok _ _ _ Hl).

(** ** [remove_task] *)

(** C4.  [remove_task] with an index below 0 or at or beyond the length
    (so any index on an empty store) returns [False] and leaves the world
    as it was; with an index in range it returns [True] and the store's
    list loses exactly that position: the elements before it stay where
    they are, those after it move down by one, nothing else changes. *)
Theorem remove_task_spec (w : world) (self r : loc) (ts : list loc) (index : Z) :
  stores w !! self = Some r ->
  lists w !! r = Some ts ->
  (index < 0 ∨ Z.of_nat (length ts) <= index ->
     remove_task self index w = (Ok false, w)) ∧
  (ts = [] -> remove_task self index w = (Ok false, w)) ∧
  (0 <= index < Z.of_nat (length ts) ->
     ∃ ts', remove_task self index w
              = (Ok true, with_lists (<[r := ts']> (lists w)) w) ∧
       S (length ts') = length ts ∧
       (∀ j, (j < Z.to_nat index)%nat -> ts' !! j = ts !! j) ∧
       (∀ j, (Z.to_nat index <= j)%nat -> ts' !! j = ts !! S j)).
Proof.
  intros Hs Hl.
  assert (Hout : index < 0 ∨ Z.of_nat (length ts) <= index ->
                 remove_task self index w = (Ok false, w)).
  { intros Hi. unfold remove_task. read_store Hs Hl.
    rewrite bool_decide_eq_false_2 by lia. reflexivity. }
  split; [exact Hout|]. split; [|intros Hi].
  - intros ->. apply Hout. simpl. lia.
  - exists (delete (Z.to_nat index) ts). repeat split.
    + unfold remove_task, list_delitem, py_position, set_list. read_store Hs Hl.
      rewrite !bool_decide_eq_true_2 by lia. simpl. rewrite Hl. reflexivity.
    + rewrite length_delete.
      * lia.
      * apply lookup_lt_is_Some. lia.
    + intros j Hj. apply list_lookup_delete_lt. exact Hj.
    + intros j Hj. apply list_lookup_delete_ge. exact Hj.
Qed.

Lemma remove_task_spec_witness :
  remove_task 0%nat 7 sample_world = (Ok false, sample_world) ∧
  ∃ ts', remove_task 0%nat 1 sample_world
           = (Ok true, with_lists (<[0%nat := ts']> (lists sample_world)) sample_world).
Proof.
  destruct (remove_task_spec sample_world 0%nat 0%nat [0; 1; 2]%nat 7) as [H7 _];
    [reflexivity..|].
  destruct (remove_task_spec sample_world 0%nat 0%nat [0; 1; 2]%nat 1) as (_ & _ & H1);
    [reflexivity..|].
  split.
  - apply H7. right. simpl. lia.
  - destruct H1 as (ts' & H & _); [simpl; lia|]. exists ts'. exact H.
Defined.

(** ** [get_tasks] *)

Lemma not_done_spec (w : world) (ts : list loc) :
  (∀ l, l ∈ ts -> is_Some (heap w !! l)) ->
  not_done ts w = (Ok (filter (is_pending w) ts), w).
Proof.
  induction ts as [|l ts IH]; intros Hall; [reflexivity|].
  simpl. unfold get_task. run.
  destruct (Hall l) as [t Ht]; [left|]. rewrite Ht.
  rewrite IH by (intros l' Hl'; apply Hall; right; exact Hl').
  rewrite filter_cons. destruct (truthy (done t)) eqn:D.
  - rewrite decide_False; [reflexivity|].
    intros (t' & Ht' & D'). congruence.
  - rewrite decide_True; [reflexivity|]. exists t. auto.
Qed.

(** C5 does not hold as it is stated: [from_dict] stores the [done] of
    the mapping as it is, so the operations build a store whose task has
    [done = None]; [get_tasks(False)] returns that task, and [None] is
    not equal to [False]. *)
Lemma get_tasks_returns_done_None :
  ¬ pending_are_done_eq_False null_done_world 0%nat ∧
  ∃ r' w' t, get_tasks 0%nat false null_done_world = (Ok r', w') ∧
             lists w' !! r' = Some [0%nat] ∧
             heap null_done_world !! 0%nat = Some t ∧ done t = VNone.
Proof.
  split.
  - intros H.
    destruct (H [0%nat] 1%nat (get_tasks 0%nat false null_done_world).2 [0%nat]
                eq_refl eq_refl eq_refl 0%nat
                (mkTask (VStr "x") (VStr "") (VInt 2) (VStr "Unassigned") VNone (VStr "now")))
      as [Hin _].
    + apply list_elem_of_here.
    + reflexivity.
    + specialize (Hin (list_elem_of_here _ _)). discriminate Hin.
  - eexists _, _, _. repeat split; reflexivity.
Qed.

(** C5, as the code has it.  [get_tasks(True)] returns a new list
    object with the elements of the store's list, in order;
    [get_tasks(False)] returns a new list object with exactly the tasks
    whose [done] is false as a truth value ([not t.done]), in their
    relative order, so a sublist of the former.  For a [done] that is a
    boolean or a number this is [done == False]; [None], [""] and the
    empty containers are kept as well.  The world gains the returned
    list object, which is not the store's own, and is otherwise as
    before: the store holds what it held and the tasks are untouched. *)
Theorem get_tasks_spec (w : world) (self r : loc) (ts : list loc) :
  stores w !! self = Some r ->
  lists w !! r = Some ts ->
  (∀ l, l ∈ ts -> is_Some (heap w !! l)) ->
  ∃ r', r' ≠ r ∧ lists w !! r' = None ∧
    (∀ ts', refs_of (with_lists (<[r' := ts']> (lists w)) w) self = Some ts) ∧
    get_tasks self true w = (Ok r', with_lists (<[r' := ts]> (lists w)) w) ∧
    ∃ pending,
      get_tasks self false w = (Ok r', with_lists (<[r' := pending]> (lists w)) w) ∧
      pending = filter (is_pending w) ts ∧
      pending `sublist_of` ts ∧
      (∀ l, l ∈ pending <->
         l ∈ ts ∧ ∃ t, heap w !! l = Some t ∧ truthy (done t) = false) ∧
      (∀ l t b, l ∈ ts -> heap w !! l = Some t -> done t = VBool b ->
         (l ∈ pending <-> done t = VBool false)) ∧
      (∀ l t, l ∈ ts -> heap w !! l = Some t -> is_number (done t) ->
         (l ∈ pending <-> eq_False (done t) = true)) ∧
      (∀ l t, l ∈ ts -> heap w !! l = Some t ->
         done t = VNone ∨ done t = VStr "" ∨ done t = VList [] ∨ done t = VDict ∅ ->
         l ∈ pending ∧ eq_False (done t) = false).
Proof.
  intros Hs Hl Hall. exists (fresh (dom (lists w))).
  assert (Hfresh : lists w !! fresh (dom (lists w)) = None) by apply fresh_list.
  assert (Hne : fresh (dom (lists w)) ≠ r) by congruence.
  assert (Hpending : ∀ l t, l ∈ ts -> heap w !! l = Some t ->
            (l ∈ filter (is_pending w) ts <-> truthy (done t) = false)).
  { intros l t Hin Ht. rewrite list_elem_of_filter. unfold is_pending. split.
    - intros [(t' & Ht' & D) _]. congruence.
    - intros D. split; [eauto|exact Hin]. }
  split; [exact Hne|]. split; [exact Hfresh|]. split; [|split].
  - intros ts'. unfold refs_of. simpl. rewrite Hs. simpl.
    rewrite lookup_insert_ne by exact Hne. exact Hl.
  - unfold get_tasks. read_store Hs Hl. reflexivity.
  - exists (filter (is_pending w) ts).
    split; [|split; [reflexivity|split; [|split; [|split; [|split]]]]].
    + unfold get_tasks. read_store Hs Hl. rewrite (not_done_spec _ _ Hall). reflexivity.
    + apply sublist_filter.
    + intros l. rewrite list_elem_of_filter. unfold is_pending. tauto.
    + intros l t b Hin Ht Hb. rewrite (Hpending l t Hin Ht), Hb. simpl.
      split; [intros ->; reflexivity|intros [= ->]; reflexivity].
    + intros l t Hin Ht Hn. rewrite (Hpending l t Hin Ht).
      destruct (done t) as [|b|z|f| | |]; try destruct Hn; simpl.
      * destruct b; simpl; split; congruence.
      * destruct (z =? 0); simpl; split; congruence.
      * destruct f as [| |m e]; try (split; discriminate).
        cbn [truthy eq_False float_eq_int]. rewrite negb_false_iff.
        destruct (0 <=? e) eqn:He; rewrite !Z.eqb_eq.
        -- apply Z.leb_le in He.
           assert (H2 : 0 < 2 ^ e) by (apply Z.pow_pos_nonneg; lia).
           split; [intros ->; lia|nia].
        -- rewrite Z.mul_0_l. tauto.
    + intros l t Hin Ht Hd. rewrite (Hpending l t Hin Ht).
      destruct Hd as [-> | [-> | [-> | ->]]]; split; reflexivity.
Qed.

Lemma get_tasks_spec_witness :
  ∃ r', get_tasks 0%nat true sample_world
          = (Ok r', with_lists (<[r' := [0; 1; 2]%nat]> (lists sample_world)) sample_world) ∧
        ∃ pending, get_tasks 0%nat false sample_world
          = (Ok r', with_lists (<[r' := pending]> (lists sample_world)) sample_world).
Proof.
  destruct (get_tasks_spec sample_world 0%nat 0%nat [0; 1; 2]%nat)
    as (r' & _ & _ & _ & Hall & p & Hp & _).
  - reflexivity.
  - reflexivity.
  - intros l Hl. apply list_elem_of_In in Hl. simpl in Hl.
    destruct Hl as [<- | [<- | [<- | []]]]; vm_compute; eauto.
  - exists r'. split; [exact Hall|]. exists p. exact Hp.
Defined.

(** ** The shape of [from_dict] *)

Lemma clamp_error (v : value) (e : exn) : clamp v = Raise e -> e = TypeError.
Proof.
  unfold clamp, py_min, py_max.
  destruct v; simpl; try congruence;
    repeat match goal with
    | |- context [if ?b then _ else _] => destruct b; simpl
    | |- context [match ?b with true => _ | false => _ end] => destruct b; simpl
    end; congruence.
Qed.

Lemma clamp_number (v : value) : (∃ p, clamp v = Ok p) <-> is_number v.
Proof.
  unfold clamp, py_min, py_max. split.
  - destruct v; simpl; try tauto; intros [p H]; discriminate.
  - destruct v; simpl; try tauto; intros _;
    repeat match goal with
    | |- context [match ?b with true => _ | false => _ end] => destruct b eqn:?; simpl
    end; eauto.
Qed.

Lemma from_dict_dict (m : gmap string value) (w : world) :
  from_dict (VDict m) w =
    match m !! "title" with
    | None => (Raise KeyError, w)
    | Some v_title =>
        match clamp (default (VInt 2) (m !! "priority")) with
        | Raise e => (Raise e, w)
        | Ok p =>
            let l := fresh (dom (heap w)) in
            (Ok l,
             mkWorld
               (<[l := mkTask v_title (default (VStr "") (m !! "note")) p
                         (default (VStr "Unassigned") (m !! "assignee"))
                         (default (VBool false) (m !! "done"))
                         (default (VStr (clock w (S (ticks w)))) (m !! "created_at"))]>
                  (heap w))
               (lists w) (stores w) (files w) (clock w) (S (S (ticks w))))
        end
    end.
Proof.
  unfold from_dict, Task_init, now_isoformat, new_task, update_task, py_getitem, py_get.
  run. destruct (m !! "title") as [v_title|]; [|reflexivity].
  destruct (clamp _) as [p|e]; [|reflexivity]. simpl.
  rewrite lookup_insert_eq. simpl. rewrite lookup_insert_eq.
  unfold with_heap, with_ticks. simpl. rewrite !insert_insert_eq. reflexivity.
Qed.

(** ** Assignments to the attributes of a task *)

Lemma update_task_ok (f : Task -> Task) (l : loc) (t : Task) (w : world) :
  heap w !! l = Some t ->
  update_task f l w = (Ok tt, with_heap (<[l := f t]> (heap w)) w).
Proof. intros H. unfold update_task. rewrite H. reflexivity. Qed.

Lemma assign_unless_None_ok (set : value -> Task -> Task) (get : Task -> value)
    (v : value) (l : loc) (t : Task) (w : world) :
  set (get t) t = t ->
  heap w !! l = Some t ->
  assign_unless_None set v l w
    = (Ok tt, with_heap (<[l := set (keep_or (get t) v) t]> (heap w)) w).
Proof.
  intros Hid H.
  destruct v; simpl; try (apply update_task_ok; exact H).
  run. rewrite Hid, insert_id, with_heap_id by exact H. reflexivity.
Qed.

(** ** [edit_task] *)

Lemma edit_task_out_of_range (w : world) (self r : loc) (ts : list loc) (index : Z)
    (v_title v_note v_priority v_assignee : value) :
  stores w !! self = Some r ->
  lists w !! r = Some ts ->
  index < 0 ∨ Z.of_nat (length ts) <= index ->
  edit_task self index v_title v_note v_priority v_assignee w = (Ok false, w).
Proof.
  intros Hs Hr Hi. unfold edit_task. read_store Hs Hr.
  rewrite bool_decide_eq_false_2 by lia. reflexivity.
Qed.

Lemma edit_task_in_range (w : world) (self r : loc) (ts : list loc) (index : Z)
    (v_title v_note v_priority v_assignee : value) (l : loc) (t : Task) :
  stores w !! self = Some r ->
  lists w !! r = Some ts ->
  0 <= index -> ts !! Z.to_nat index = Some l -> heap w !! l = Some t ->
  v_priority = VNone ∨ (∃ p, v_priority = VInt p) ->
  edit_task self index v_title v_note v_priority v_assignee w
    = (Ok true,
       with_heap
         (<[l := mkTask (keep_or (title t) v_title) (keep_or (note t) v_note)
                   match v_priority with
                   | VInt p => VInt (Z.max 1 (Z.min p 3))
                   | _ => priority t
                   end
                   (keep_or (assignee t) v_assignee) (done t) (created_at t)]> (heap w))
         w).
Proof.
  intros Hs Hr H0 Hl Ht Hp.
  assert (Hlen : 0 <= index < Z.of_nat (length ts)).
  { apply lookup_lt_Some in Hl. lia. }
  unfold edit_task, list_getitem, py_position. read_store Hs Hr.
  rewrite !bool_decide_eq_true_2 by lia. simpl. rewrite Hl.
  rewrite (assign_unless_None_ok set_title title _ l t) by (destruct t; done).
  set (t1 := set_title (keep_or (title t) v_title) t).
  rewrite (assign_unless_None_ok set_note note _ l t1)
    by (solve [reflexivity | apply lookup_insert_eq]).
  set (t2 := set_note (keep_or (note t1) v_note) t1).
  simpl. rewrite insert_insert_eq.
  destruct Hp as [-> | [p ->]].
  - simpl. rewrite (assign_unless_None_ok set_assignee assignee _ l t2)
      by (solve [reflexivity | apply lookup_insert_eq]).
    simpl. rewrite insert_insert_eq. reflexivity.
  - rewrite clamp_int. simpl.
    rewrite (update_task_ok _ l t2) by apply lookup_insert_eq.
    set (t3 := set_priority (VInt (Z.max 1 (Z.min p 3))) t2).
    rewrite (assign_unless_None_ok set_assignee assignee _ l t3)
      by (solve [reflexivity | apply lookup_insert_eq]).
    simpl. rewrite !insert_insert_eq. reflexivity.
Qed.

(** C6.  With an index in range [edit_task] returns [True] and changes
    only the task object at that index: each of title, note and assignee
    is overwritten exactly when its argument is not [None], the priority
    is overwritten by the clamped argument when one is given, [done] and
    [created_at] stay, and every other task object is as before.  With
    an index out of range it returns [False] and changes nothing. *)
Theorem edit_task_spec (w : world) (self r : loc) (ts : list loc) (index : Z)
    (v_title v_note v_priority v_assignee : value) :
  stores w !! self = Some r ->
  lists w !! r = Some ts ->
  (index < 0 ∨ Z.of_nat (length ts) <= index ->
     edit_task self index v_title v_note v_priority v_assignee w = (Ok false, w)) ∧
  (∀ l t,
     0 <= index -> ts !! Z.to_nat index = Some l -> heap w !! l = Some t ->
     v_priority = VNone ∨ (∃ p, v_priority = VInt p) ->
     ∃ t',
       edit_task self index v_title v_note v_priority v_assignee w
         = (Ok true, with_heap (<[l := t']> (heap w)) w) ∧
       title t' = keep_or (title t) v_title ∧
       note t' = keep_or (note t) v_note ∧
       priority t' = match v_priority with
                     | VInt p => VInt (Z.max 1 (Z.min p 3))
                     | _ => priority t
                     end ∧
       assignee t' = keep_or (assignee t) v_assignee ∧
       done t' = done t ∧
       created_at t' = created_at t ∧
       (∀ l', l' ≠ l -> <[l := t']> (heap w) !! l' = heap w !! l')).
Proof.
  intros Hs Hr. split.
  - apply (edit_task_out_of_range w self r ts); assumption.
  - intros l t H0 Hl Ht Hp. eexists. split.
    + apply (edit_task_in_range w self r ts index _ _ _ _ l t); assumption.
    + simpl. repeat split. intros l' Hne. apply lookup_insert_ne. congruence.
Qed.

Lemma edit_task_spec_witness :
  ∃ t', edit_task 0%nat 1 (VStr "z") VNone (VInt 9) VNone sample_world
          = (Ok true, with_heap (<[1%nat := t']> (heap sample_world)) sample_world) ∧
        title t' = VStr "z" ∧ note t' = VStr "n" ∧ priority t' = VInt 3.
Proof.
  destruct (edit_task_spec sample_world 0%nat 0%nat [0; 1; 2]%nat 1
              (VStr "z") VNone (VInt 9) VNone eq_refl eq_refl) as [_ H].
  destruct (H 1%nat
              (mkTask (VStr "b") (VStr "n") (VInt 2) (VStr "Ann") (VBool true) (VStr "t1")))
    as (t' & He & Ht & Hn & Hp & _).
  - lia.
  - reflexivity.
  - reflexivity.
  - right. exists 9. reflexivity.
  - exists t'. auto.
Defined.

(** ** [from_dict] *)

(** C3 does not hold as it is stated: the mapping
    [{"title": "x", "priority": None}] has a title, and [from_dict]
    raises a [TypeError] on it. *)
Lemma from_dict_title_not_sufficient :
  ¬ from_dict_succeeds_iff_title null_priority_record sample_world.
Proof.
  unfold from_dict_succeeds_iff_title. intros [_ H].
  destruct H as (l & w' & H); [eexists; reflexivity|].
  vm_compute in H. discriminate.
Qed.

(** C3, as the code has it.  [from_dict] succeeds exactly when the
    mapping has a title and its priority, when there is one, is a number;
    without a title it raises [KeyError] and changes nothing; on success
    the new task has the mapping's values, and for the absent keys the
    note [""], the priority 2 (clamped), the assignee ["Unassigned"],
    [done = False], and as [created_at] the time read from the clock
    during the call. *)
Theorem from_dict_spec (m : gmap string value) (w : world) :
  ((∃ l w', from_dict (VDict m) w = (Ok l, w')) <->
     is_Some (m !! "title") ∧ (∀ v, m !! "priority" = Some v -> is_number v)) ∧
  (m !! "title" = None -> from_dict (VDict m) w = (Raise KeyError, w)) ∧
  (∀ l w', from_dict (VDict m) w = (Ok l, w') ->
     ∃ t, heap w' !! l = Some t ∧
       m !! "title" = Some (title t) ∧
       note t = default (VStr "") (m !! "note") ∧
       clamp (default (VInt 2) (m !! "priority")) = Ok (priority t) ∧
       (m !! "priority" = None -> priority t = VInt 2) ∧
       assignee t = default (VStr "Unassigned") (m !! "assignee") ∧
       done t = default (VBool false) (m !! "done") ∧
       created_at t = default (VStr (clock w (S (ticks w)))) (m !! "created_at")).
Proof.
  rewrite from_dict_dict. split; [|split].
  - split.
    + intros (l & w' & H). destruct (m !! "title") as [v_title|]; [|discriminate].
      split; [eauto|]. intros v Hv. rewrite Hv in H. simpl in H.
      apply clamp_number. destruct (clamp v) as [p|e]; [eauto|discriminate].
    + intros [[v_title ->] Hp].
      destruct (m !! "priority") as [v|] eqn:Ev; simpl.
      * destruct (proj2 (clamp_number v) (Hp v eq_refl)) as [p ->]. eauto.
      * eauto.
  - intros ->. reflexivity.
  - intros l w' H. destruct (m !! "title") as [v_title|]; [|discriminate].
    destruct (clamp _) as [p|e] eqn:Ec; [|discriminate].
    injection H as <- <-. eexists. split; [apply lookup_insert_eq|].
    simpl. repeat split; try done.
    intros Hn. rewrite Hn in Ec. vm_compute in Ec. congruence.
Qed.

Lemma from_dict_spec_witness :
  from_dict (VDict (<["done" := VBool true]> ∅)) sample_world = (Raise KeyError, sample_world).
Proof.
  apply (from_dict_spec (<["done" := VBool true]> ∅) sample_world). reflexivity.
Defined.

(** ** [load] *)

Lemma extends_refl (w : world) : extends w w.
Proof. unfold extends. auto. Qed.

Lemma extends_trans (w1 w2 w3 : world) : extends w1 w2 -> extends w2 w3 -> extends w1 w3.
Proof.
  unfold extends. intros (-> & -> & -> & -> & H1) (-> & -> & -> & -> & H2).
  repeat split; try reflexivity. etrans; eassumption.
Qed.

Lemma tasks_of_extends (w w' : world) (s : loc) (tl : list Task) :
  extends w w' -> tasks_of w s = Some tl -> tasks_of w' s = Some tl.
Proof.
  unfold tasks_of, refs_of. intros (-> & -> & _ & _ & Hh).
  destruct (stores w !! s ≫= (lists w !!.)) as [ts|]; [|done].
  simpl. rewrite !mapM_Some. intros H. eapply Forall2_impl; [exact H|].
  intros l t Hl. exact (lookup_weaken _ _ _ _ Hl Hh).
Qed.

Lemma from_dict_cases (v : value) (w : world) :
  (∃ e, from_dict v w = (Raise e, w) ∧ (e = KeyError ∨ e = TypeError)) ∨
  (∃ l w', from_dict v w = (Ok l, w') ∧ extends w w').
Proof.
  destruct v; try (left; exists TypeError; split; [reflexivity|auto]).
  rewrite from_dict_dict. destruct (d !! "title"); [|left; eauto].
  destruct (clamp _) as [p|e] eqn:Ec.
  - right. do 2 eexists. split; [reflexivity|].
    repeat split. simpl. apply insert_subseteq, fresh_heap.
  - left. apply clamp_error in Ec as ->. eauto.
Qed.

Lemma for_each_cons {A B} (f : A -> M B) (x : A) (l : list A) (w : world) :
  for_each f (x :: l) w =
    match f x w with
    | (Ok y, w1) => match for_each f l w1 with
                    | (Ok ys, w2) => (Ok (y :: ys), w2)
                    | (Raise e, w2) => (Raise e, w2)
                    end
    | (Raise e, w1) => (Raise e, w1)
    end.
Proof. reflexivity. Qed.

Lemma for_each_from_dict_extends (items : list value) (w : world) :
  ∃ r w', for_each from_dict items w = (r, w') ∧ extends w w' ∧
          (∀ e, r = Raise e -> e = KeyError ∨ e = TypeError).
Proof.
  revert w. induction items as [|v items IH]; intros w.
  - exists (Ok []), w. split; [reflexivity|]. split; [apply extends_refl|]. discriminate.
  - rewrite for_each_cons. destruct (from_dict_cases v w) as [(e & -> & He) | (l & w1 & -> & Hx)].
    + exists (Raise e), w. split; [reflexivity|]. split; [apply extends_refl|]. congruence.
    + destruct (IH w1) as (r & w2 & -> & Hx2 & Hr). destruct r as [ls|e].
      * exists (Ok (l :: ls)), w2. split; [reflexivity|].
        split; [eapply extends_trans; eassumption|]. discriminate.
      * exists (Raise e), w2. split; [reflexivity|].
        split; [eapply extends_trans; eassumption|]. intros e' [= <-]. auto.
Qed.

Lemma for_each_from_dict_fails (items : list value) (m : gmap string value) (w : world) :
  VDict m ∈ items -> m !! "title" = None ->
  ∃ e w', for_each from_dict items w = (Raise e, w').
Proof.
  intros Hin Hm. revert w. induction items as [|v items IH]; intros w.
  - inversion Hin.
  - rewrite for_each_cons. apply elem_of_cons in Hin as [<- | Hin].
    + rewrite from_dict_dict, Hm. eauto.
    + destruct (from_dict v w) as [[l|e] w1]; [|eauto].
      destruct (IH Hin w1) as (e & w2 & ->). eauto.
Qed.

(** C7.  Loading from a path that holds no file raises nothing and
    leaves the store with a new, empty list, whatever it held; nothing
    else changes. *)
Theorem load_missing_file (w : world) (self r : loc) (filename : string) :
  stores w !! self = Some r ->
  files w !! filename = None ->
  ∃ r', lists w !! r' = None ∧
    let w' := with_stores (<[self := r']> (stores w))
                (with_lists (<[r' := []]> (lists w)) w) in
    load self filename w = (Ok tt, w') ∧ refs_of w' self = Some [] ∧ tasks_of w' self = Some [].
Proof.
  intros Hs Hf. exists (fresh (dom (lists w))). split; [apply fresh_list|]. split; [|split].
  - unfold load, try_except_FileNotFoundError, json_load, new_list, set_tasks_attr. run.
    rewrite Hf. simpl. rewrite Hs. reflexivity.
  - unfold refs_of. simpl. rewrite lookup_insert_eq. simpl. apply lookup_insert_eq.
  - unfold tasks_of, refs_of. simpl. rewrite lookup_insert_eq. simpl.
    rewrite lookup_insert_eq. reflexivity.
Qed.

Lemma load_missing_file_witness :
  ∃ r', load 0%nat "tasks.json" sample_world
          = (Ok tt, with_stores (<[0%nat := r']> (stores sample_world))
                      (with_lists (<[r' := []]> (lists sample_world)) sample_world)).
Proof.
  destruct (load_missing_file sample_world 0%nat 0%nat "tasks.json")
    as (r' & _ & H & _); [reflexivity..|].
  exists r'. exact H.
Defined.

(** C8.  When the file exists and its text is not JSON, or it is a JSON
    array with a record that has no title, [load] raises; the exception
    (from the parser, or the [KeyError] or [TypeError] of the first
    record that cannot be built) reaches the caller, and every store
    holds the same task objects, unchanged, as before the call: none of
    the file's records has entered a store. *)
Theorem load_malformed (w : world) (self : loc) (filename : string) :
  files w !! filename = Some Corrupt ∨
  (∃ items m, files w !! filename = Some (Json (VList items)) ∧
              VDict m ∈ items ∧ m !! "title" = None) ->
  ∃ e w', load self filename w = (Raise e, w') ∧
          (e = JSONDecodeError ∨ e = KeyError ∨ e = TypeError) ∧
          stores w' = stores w ∧
          lists w' = lists w ∧
          heap w ⊆ heap w' ∧
          (∀ s tl, tasks_of w s = Some tl -> tasks_of w' s = Some tl).
Proof.
  intros [Hf | (items & m & Hf & Hin & Hm)].
  - exists JSONDecodeError, w. split.
    + unfold load, try_except_FileNotFoundError, json_load. run. rewrite Hf. reflexivity.
    + repeat split; auto.
  - destruct (for_each_from_dict_fails items m w Hin Hm) as (e & w' & He).
    destruct (for_each_from_dict_extends items w) as (r & w'' & Hr & Hx & Hee).
    rewrite He in Hr. injection Hr as <- <-.
    exists e, w'.
    split; [|split; [|split; [apply Hx|split; [apply Hx|split; [apply Hx|]]]]].
    + unfold load, try_except_FileNotFoundError, json_load. run. rewrite Hf. simpl.
      rewrite He. destruct (Hee e eq_refl) as [-> | ->]; reflexivity.
    + right. exact (Hee e eq_refl).
    + intros s tl. apply tasks_of_extends, Hx.
Qed.

Lemma load_malformed_witness :
  ∃ e w', load 0%nat "bad.json" malformed_world = (Raise e, w') ∧
          stores w' = stores malformed_world.
Proof.
  destruct (load_malformed malformed_world 0%nat "bad.json") as (e & w' & H & _ & Hs & _).
  - right. eexists _, (<["note" := VStr "no title"]> ∅).
    split; [reflexivity|]. split; [|reflexivity].
    apply elem_of_cons. right. apply elem_of_cons. left. reflexivity.
  - exists e, w'. auto.
Defined.

(** ** Invariants on priorities

    The operations keep every invariant of the form "the priority of
    each task is [good]", provided the clamp turns the [admissible]
    priorities it is given into good ones. *)

Section Invariant.

Variable admissible : value -> Prop.
Variable good : value -> Prop.
Hypothesis clamp_good : ∀ v p, admissible v -> clamp v = Ok p -> good p.
Hypothesis good_admissible : ∀ p, good p -> admissible p.
Hypothesis default_admissible : admissible (VInt 2).

Local Abbreviation triple := (triple admissible good).
Local Abbreviation inv := (inv admissible good).
Local Abbreviation admissible_record := (admissible_record admissible).
Local Abbreviation admissible_file := (admissible_file admissible).
Local Abbreviation good_task := (fun t : Task => good (priority t)).

Lemma triple_ret {A} (a : A) (Q : A -> Prop) : Q a -> triple (ret a) Q.
Proof. intros HQ w Hw. split; [exact Hw|]. intros a' [= <-]. exact HQ. Qed.

Lemma triple_lift {A} (o : outcome A) (Q : A -> Prop) :
  (∀ a, o = Ok a -> Q a) -> triple (lift o) Q.
Proof. intros HQ w Hw. split; [exact Hw|]. exact HQ. Qed.

Lemma triple_bind {A B} (m : M A) (k : A -> M B) (Q : A -> Prop) (R : B -> Prop) :
  triple m Q -> (∀ a, Q a -> triple (k a) R) -> triple (m ≫= k) R.
Proof.
  intros Hm Hk w Hw. unfold mbind, M_bind, bind.
  destruct (Hm w Hw) as [Hi Hq]. destruct (m w) as [[a|e] w1]; simpl in *.
  - apply Hk; auto.
  - split; [exact Hi|]. discriminate.
Qed.

Lemma triple_try {A} (body handler : M A) (Q : A -> Prop) :
  triple body Q -> triple handler Q ->
  triple (try_except_FileNotFoundError body handler) Q.
Proof.
  intros Hb Hh w Hw. unfold try_except_FileNotFoundError.
  destruct (Hb w Hw) as [Hi Hq]. destruct (body w) as [[a|e] w1]; simpl in *.
  - split; auto.
  - destruct e; try (split; [exact Hi|discriminate]). apply Hh, Hi.
Qed.

Lemma triple_for_each {A B} (f : A -> M B) (P : A -> Prop) (Q : B -> Prop) (l : list A) :
  (∀ x, P x -> triple (f x) Q) -> Forall P l -> triple (for_each f l) (Forall Q).
Proof.
  intros Hf. induction 1 as [|x l Hx _ IH]; simpl.
  - apply triple_ret. constructor.
  - eapply triple_bind; [apply Hf, Hx|]. intros y Hy.
    eapply triple_bind; [exact IH|]. intros ys Hys.
    apply triple_ret. constructor; assumption.
Qed.

Lemma triple_now : triple now_isoformat (fun _ => True).
Proof. intros w Hw. split; [exact Hw|auto]. Qed.

Lemma triple_new_task (t : Task) : good (priority t) -> triple (new_task t) (fun _ => True).
Proof.
  intros Ht w [Hh Hf]. split; [|auto]. split; [|exact Hf].
  intros l t'. simpl. rewrite lookup_insert. case_decide.
  - intros [= <-]. exact Ht.
  - apply Hh.
Qed.

Lemma triple_get_task (l : loc) : triple (get_task l) good_task.
Proof.
  intros w Hw. unfold get_task. destruct (heap w !! l) as [t|] eqn:E; simpl.
  - split; [exact Hw|]. intros a [= <-]. exact (proj1 Hw _ _ E).
  - split; [exact Hw|]. discriminate.
Qed.

Lemma triple_update_task (f : Task -> Task) (l : loc) :
  (∀ t, good (priority t) -> good (priority (f t))) ->
  triple (update_task f l) (fun _ => True).
Proof.
  intros Hf w Hw. unfold update_task. destruct (heap w !! l) as [t|] eqn:E; simpl.
  - split; [|auto]. destruct Hw as [Hh Hfs]. split; [|exact Hfs].
    intros l' t'. simpl. rewrite lookup_insert. case_decide.
    + intros [= <-]. eapply Hf, Hh, E.
    + apply Hh.
  - split; [exact Hw|]. discriminate.
Qed.

Lemma triple_new_list (ts : list loc) : triple (new_list ts) (fun _ => True).
Proof. intros w Hw. split; [exact Hw|auto]. Qed.

Lemma triple_get_list (r : loc) : triple (get_list r) (fun _ => True).
Proof.
  intros w Hw. unfold get_list. destruct (lists w !! r); simpl; split; auto.
Qed.

Lemma triple_set_list (r : loc) (ts : list loc) : triple (set_list r ts) (fun _ => True).
Proof.
  intros w Hw. unfold set_list. destruct (lists w !! r); simpl; split; auto.
Qed.

Lemma triple_new_store (r : loc) : triple (new_store r) (fun _ => True).
Proof. intros w Hw. split; [exact Hw|auto]. Qed.

Lemma triple_get_tasks_attr (self : loc) : triple (get_tasks_attr self) (fun _ => True).
Proof.
  intros w Hw. unfold get_tasks_attr. destruct (stores w !! self); simpl; split; auto.
Qed.

Lemma triple_set_tasks_attr (self r : loc) : triple (set_tasks_attr self r) (fun _ => True).
Proof.
  intros w Hw. unfold set_tasks_attr. destruct (stores w !! self); simpl; split; auto.
Qed.

Lemma triple_json_load (filename : string) :
  triple (json_load filename) (fun v => admissible_file (Json v)).
Proof.
  intros w Hw. unfold json_load. destruct (files w !! filename) as [[|v]|] eqn:E; simpl.
  - split; [exact Hw|]. discriminate.
  - split; [exact Hw|]. intros a [= <-]. exact (proj2 Hw _ _ E).
  - split; [exact Hw|]. discriminate.
Qed.

Lemma triple_open_w (filename : string) : triple (open_w filename) (fun _ => True).
Proof.
  intros w [Hh Hf]. split; [|auto]. split; [exact Hh|].
  intros f c. simpl. rewrite lookup_insert. case_decide.
  - intros [= <-]. exact I.
  - apply Hf.
Qed.

Lemma triple_json_dump (v : value) (filename : string) :
  admissible_file (Json v) -> triple (json_dump v filename) (fun _ => True).
Proof.
  intros Hv w [Hh Hf]. split; [|auto]. split; [exact Hh|].
  intros f c. simpl. rewrite lookup_insert. case_decide.
  - intros [= <-]. exact Hv.
  - apply Hf.
Qed.

Ltac triple_step :=
  first
    [ eapply triple_bind; [|intros ? ?]
    | apply triple_ret
    | apply triple_now
    | apply triple_new_list
    | apply triple_get_list
    | apply triple_set_list
    | apply triple_new_store
    | apply triple_get_tasks_attr
    | apply triple_set_tasks_attr
    | apply triple_open_w ].

Lemma triple_clamp (v : value) : admissible v -> triple (lift (clamp v)) good.
Proof. intros Hv. apply triple_lift. intros p. apply clamp_good, Hv. Qed.

Lemma triple_Task_init (v_title v_note v_priority v_assignee : value) :
  admissible v_priority ->
  triple (Task_init v_title v_note v_priority v_assignee) (fun _ => True).
Proof.
  intros Hp. unfold Task_init.
  eapply triple_bind; [apply triple_clamp, Hp|]. intros p Hv.
  eapply triple_bind; [apply triple_now|]. intros stamp _.
  apply triple_new_task. exact Hv.
Qed.

Lemma triple_mark_done (t : loc) : triple (mark_done t) (fun _ => True).
Proof. apply triple_update_task. auto. Qed.

Lemma triple_mark_undone (t : loc) : triple (mark_undone t) (fun _ => True).
Proof. apply triple_update_task. auto. Qed.

Lemma to_dict_admissible (t : Task) : good (priority t) -> admissible_record (to_dict t).
Proof.
  intros Hv v. unfold to_dict.
  repeat (rewrite ?lookup_insert_eq; rewrite ?lookup_insert_ne by done).
  intros [= <-]. apply good_admissible, Hv.
Qed.

Lemma triple_to_dict_of (t : loc) : triple (to_dict_of t) admissible_record.
Proof.
  unfold to_dict_of. eapply triple_bind; [apply triple_get_task|]. intros task Hv.
  apply triple_ret, to_dict_admissible, Hv.
Qed.

Lemma triple_from_dict (data : value) :
  admissible_record data -> triple (from_dict data) (fun _ => True).
Proof.
  intros Hd. unfold from_dict.
  eapply triple_bind; [apply triple_lift; intros a _; exact I|]. intros v_title _.
  eapply triple_bind; [apply triple_lift; intros a _; exact I|]. intros v_note _.
  eapply (triple_bind _ _ admissible).
  { apply triple_lift. intros v. destruct data; try discriminate. simpl.
    intros [= <-]. destruct (d !! "priority") as [v|] eqn:E; simpl.
    - apply (Hd v E).
    - exact default_admissible. }
  intros v_priority Hp.
  eapply triple_bind; [apply triple_lift; intros a _; exact I|]. intros v_assignee _.
  eapply triple_bind; [apply triple_Task_init, Hp|]. intros t _.
  eapply triple_bind; [apply triple_lift; intros a _; exact I|]. intros v_done _.
  eapply triple_bind; [apply triple_update_task; auto|]. intros _ _.
  eapply triple_bind; [apply triple_now|]. intros stamp _.
  eapply triple_bind; [apply triple_lift; intros a _; exact I|]. intros v_created _.
  eapply triple_bind; [apply triple_update_task; auto|]. intros _ _.
  apply triple_ret. exact I.
Qed.

Lemma triple_not_done (ts : list loc) : triple (not_done ts) (fun _ => True).
Proof.
  induction ts as [|l ts IH]; simpl; [apply triple_ret; exact I|].
  eapply triple_bind; [apply triple_get_task|]. intros t _.
  eapply triple_bind; [exact IH|]. intros rest _. apply triple_ret. exact I.
Qed.

Lemma triple_ToDoList_init : triple ToDoList_init (fun _ => True).
Proof. unfold ToDoList_init. repeat triple_step. Qed.

Lemma triple_add_task (self task : loc) : triple (add_task self task) (fun _ => True).
Proof. unfold add_task. repeat triple_step. Qed.

Lemma triple_remove_task (self : loc) (index : Z) :
  triple (remove_task self index) (fun _ => True).
Proof.
  unfold remove_task. triple_step; [triple_step|]. triple_step; [triple_step|].
  case_bool_decide; [|apply triple_ret; exact I].
  eapply triple_bind; [apply triple_lift; intros ? _; exact I|]. intros ts' _.
  repeat triple_step. exact I.
Qed.

Lemma triple_get_tasks (self : loc) (show_completed : bool) :
  triple (get_tasks self show_completed) (fun _ => True).
Proof.
  unfold get_tasks. triple_step; [triple_step|]. triple_step; [triple_step|].
  destruct show_completed; [apply triple_new_list|].
  eapply triple_bind; [apply triple_not_done|]. intros pending _. apply triple_new_list.
Qed.

Lemma triple_save (self : loc) (filename : string) :
  triple (save self filename) (fun _ => True).
Proof.
  unfold save. triple_step; [triple_step|]. triple_step; [triple_step|].
  triple_step; [triple_step|].
  eapply triple_bind.
  - apply (triple_for_each to_dict_of (fun _ => True) admissible_record).
    + intros l _. apply triple_to_dict_of.
    + apply Forall_true. auto.
  - intros ds Hds. apply triple_json_dump. exact Hds.
Qed.

Lemma py_iter_admissible (v : value) (items : list value) :
  admissible_file (Json v) -> py_iter v = Ok items -> Forall admissible_record items.
Proof.
  destruct v; simpl; try discriminate.
  - intros _ [= <-]. apply Forall_fmap, Forall_true. intros a. exact I.
  - intros H [= <-]. exact H.
  - intros _ [= <-]. apply Forall_fmap, Forall_true. intros k. exact I.
Qed.

Lemma triple_load (self : loc) (filename : string) :
  triple (load self filename) (fun _ => True).
Proof.
  unfold load. apply triple_try; [|repeat triple_step].
  eapply triple_bind; [apply triple_json_load|]. intros data Hdata.
  eapply (triple_bind _ _ (Forall admissible_record)).
  { apply triple_lift. intros items. apply py_iter_admissible, Hdata. }
  intros items Hitems.
  eapply triple_bind.
  - apply (triple_for_each from_dict admissible_record (fun _ => True)); [|exact Hitems].
    intros d. apply triple_from_dict.
  - intros ts _. repeat triple_step.
Qed.

Lemma triple_assign_unless_None (set : value -> Task -> Task) (v : value) (t : loc) :
  (∀ x task, good (priority task) -> good (priority (set x task))) ->
  triple (assign_unless_None set v t) (fun _ => True).
Proof.
  intros Hset. destruct v; simpl;
    first [apply triple_ret; exact I | apply triple_update_task, Hset].
Qed.

Lemma triple_edit_task (self : loc) (index : Z) (v_title v_note v_priority v_assignee : value) :
  v_priority = VNone ∨ admissible v_priority ->
  triple (edit_task self index v_title v_note v_priority v_assignee) (fun _ => True).
Proof.
  intros Hp. unfold edit_task. triple_step; [triple_step|]. triple_step; [triple_step|].
  case_bool_decide; [|apply triple_ret; exact I].
  eapply triple_bind; [apply triple_lift; intros ? _; exact I|]. intros t _.
  eapply triple_bind; [apply triple_assign_unless_None; auto|]. intros _ _.
  eapply triple_bind; [apply triple_assign_unless_None; auto|]. intros _ _.
  eapply (triple_bind _ _ (fun _ => True)).
  { destruct Hp as [-> | Hi]; [apply triple_ret; exact I|].
    assert (Hc : triple (p ← lift (clamp v_priority); update_task (set_priority p) t)
                   (fun _ => True)).
    { eapply triple_bind; [apply triple_clamp, Hi|]. intros p Hv.
      apply triple_update_task. intros task _. exact Hv. }
    destruct v_priority; first [exact Hc | apply triple_ret; exact I]. }
  intros _ _.
  eapply triple_bind; [apply triple_assign_unless_None; auto|]. intros _ _.
  apply triple_ret. exact I.
Qed.

Lemma run_op_inv (o : op) (w : world) :
  admissible_input admissible o -> inv w -> inv (run_op o w).
Proof.
  intros Ho Hw. destruct o; simpl in *.
  - apply (triple_Task_init _ _ _ _ Ho w Hw).
  - apply (triple_mark_done _ w Hw).
  - apply (triple_mark_undone _ w Hw).
  - apply (triple_from_dict _ Ho w Hw).
  - apply (triple_ToDoList_init w Hw).
  - apply (triple_add_task _ _ w Hw).
  - apply (triple_remove_task _ _ w Hw).
  - apply (triple_get_tasks _ _ w Hw).
  - apply (triple_save _ _ w Hw).
  - apply (triple_load _ _ w Hw).
  - apply (triple_edit_task _ _ _ _ _ _ Ho w Hw).
Qed.

Lemma run_ops_inv (ops : list op) (w : world) :
  Forall (admissible_input admissible) ops -> inv w -> inv (run_ops ops w).
Proof.
  intros Hops. revert w. induction Hops as [|o ops Ho _ IH]; intros w Hw; [exact Hw|].
  simpl. apply IH, run_op_inv; assumption.
Qed.

End Invariant.

(** The instance for integer inputs. *)

Lemma valid_priority_is_int (v : value) : valid_priority v -> is_int v.
Proof. intros [-> | [-> | ->]]; eexists; reflexivity. Qed.

Lemma clamp_is_int_valid (v p : value) : is_int v -> clamp v = Ok p -> valid_priority p.
Proof.
  intros [z ->] Hp. destruct (clamp_int_valid z) as (q & Hq & Hv). congruence.
Qed.

Lemma run_ops_valid (ops : list op) (w : world) :
  Forall int_priority_input ops -> heap_valid w -> int_priority_files w ->
  heap_valid (run_ops ops w) ∧ int_priority_files (run_ops ops w).
Proof.
  intros Hops Hh Hf.
  apply (run_ops_inv is_int valid_priority clamp_is_int_valid valid_priority_is_int).
  - eexists; reflexivity.
  - exact Hops.
  - split; assumption.
Qed.

(** The instance for arbitrary inputs. *)

Lemma clamp_idempotent (v p : value) : clamp v = Ok p -> stable_priority p.
Proof.
  unfold stable_priority, clamp, py_min, py_max. destruct v; simpl; try discriminate.
  - destruct b; simpl; intros [= <-]; reflexivity.
  - intros H. destruct (clamp_int_valid z) as (q & Hq & Hv).
    unfold clamp, py_min, py_max in Hq. simpl in Hq. rewrite Hq in H.
    injection H as <-. apply (clamp_valid _ Hv).
  - destruct (int_lt_float 3 f) eqn:E3; simpl.
    + intros [= <-]. reflexivity.
    + destruct (int_lt_float 1 f) eqn:E1; intros [= <-]; simpl.
      * rewrite E3. simpl. rewrite E1. reflexivity.
      * reflexivity.
Qed.

Lemma run_ops_stable (ops : list op) (w : world) :
  heap_stable w -> heap_stable (run_ops ops w).
Proof.
  intros Hh.
  apply (run_ops_inv (fun _ => True) stable_priority).
  - intros v p _. apply clamp_idempotent.
  - auto.
  - exact I.
  - apply Forall_forall. intros o _. destruct o; simpl; auto.
    destruct data; simpl; auto.
  - split; [exact Hh|]. intros f c _. destruct c as [|v]; simpl; [exact I|].
    destruct v; try exact I. apply Forall_forall. intros d _.
    destruct d; simpl; auto.
Qed.

Lemma heap_stable_empty (w : world) : heap w = ∅ -> heap_stable w.
Proof. intros H l t Hl. rewrite H, lookup_empty in Hl. discriminate. Qed.

(** ** The round trip *)

Lemma from_dict_to_dict (t : Task) (w : world) :
  stable_priority (priority t) ->
  from_dict (to_dict t) w =
    (Ok (fresh (dom (heap w))),
     mkWorld (<[fresh (dom (heap w)) := t]> (heap w)) (lists w) (stores w) (files w)
             (clock w) (S (S (ticks w)))).
Proof.
  intros Hv. unfold to_dict. rewrite from_dict_dict.
  repeat (rewrite ?lookup_insert_eq; rewrite ?lookup_insert_ne by done).
  simpl. rewrite Hv. destruct t; reflexivity.
Qed.

Lemma for_each_to_dict (w : world) (ts : list loc) (tl : list Task) :
  mapM (heap w !!.) ts = Some tl ->
  for_each to_dict_of ts w = (Ok (to_dict <$> tl), w).
Proof.
  assert (Hhd : ∀ l t, heap w !! l = Some t -> to_dict_of l w = (Ok (to_dict t), w)).
  { intros l t Hl. unfold to_dict_of, get_task. run. rewrite Hl. reflexivity. }
  rewrite mapM_Some. induction 1 as [|l t ts tl Hl _ IH]; [reflexivity|].
  rewrite for_each_cons, (Hhd l t Hl), IH. reflexivity.
Qed.

Lemma for_each_from_dict_to_dict (tl : list Task) (w : world) :
  Forall (fun t => stable_priority (priority t)) tl ->
  ∃ ls w', for_each from_dict (to_dict <$> tl) w = (Ok ls, w') ∧
           extends w w' ∧ mapM (heap w' !!.) ls = Some tl.
Proof.
  intros Hv. revert w. induction Hv as [|t tl Ht _ IH]; intros w.
  - exists [], w. split; [reflexivity|]. split; [apply extends_refl|reflexivity].
  - rewrite fmap_cons, for_each_cons, (from_dict_to_dict _ _ Ht).
    set (l := fresh (dom (heap w))).
    set (w1 := mkWorld _ _ _ _ _ _).
    destruct (IH w1) as (ls & w2 & -> & Hx & Hls).
    exists (l :: ls), w2. split; [reflexivity|]. split.
    + eapply extends_trans; [|exact Hx].
      repeat split. simpl. apply insert_subseteq, fresh_heap.
    + apply mapM_Some. constructor; [|apply mapM_Some, Hls].
      destruct Hx as (_ & _ & _ & _ & Hh).
      eapply lookup_weaken; [|exact Hh]. apply lookup_insert_eq.
Qed.

Lemma save_ok (w : world) (self : loc) (filename : string) (tl : list Task) :
  tasks_of w self = Some tl ->
  save self filename w
    = (Ok tt, with_files (<[filename := Json (VList (to_dict <$> tl))]> (files w)) w).
Proof.
  unfold tasks_of, refs_of. intros H.
  destruct (stores w !! self) as [r|] eqn:Hs; [|done]. simpl in H.
  destruct (lists w !! r) as [ts|] eqn:Hr; [|done]. simpl in H.
  unfold save, open_w, get_tasks_attr, get_list, json_dump. run. rewrite Hs. simpl. rewrite Hr.
  erewrite (for_each_to_dict _ ts tl) by exact H.
  unfold with_files. simpl. rewrite insert_insert_eq. reflexivity.
Qed.

Lemma tasks_of_stable (w : world) (self : loc) (tl : list Task) :
  heap_stable w -> tasks_of w self = Some tl ->
  Forall (fun t => stable_priority (priority t)) tl.
Proof.
  unfold tasks_of. intros Hh H. destruct (refs_of w self) as [ts|]; [|done].
  simpl in H. apply mapM_Some in H. induction H as [|l t ts tl Hl _ IH]; constructor.
  - exact (Hh l t Hl).
  - exact IH.
Qed.

(** C1.  [from_dict(t.to_dict())] builds a new task object whose six
    attributes are those of [t], for every task [t] with its priority in
    {1, 2, 3}.  When a store is saved to a file and the file is then
    loaded, the loading store holds new task objects with the same
    attributes, in the same number and order; this is for every world
    whose tasks have a priority the clamp leaves as it is, and every
    world the operations build from one without tasks is such a world. *)
Theorem round_trip :
  (∀ (t : Task) (w : world),
     valid_task t ->
     ∃ l w', from_dict (to_dict t) w = (Ok l, w') ∧
             heap w !! l = None ∧ heap w' !! l = Some t) ∧
  (∀ (w : world) (self other : loc) (filename : string) (tl : list Task),
     heap_stable w ->
     tasks_of w self = Some tl ->
     is_Some (stores w !! other) ->
     ∃ w1 w2, save self filename w = (Ok tt, w1) ∧
              load other filename w1 = (Ok tt, w2) ∧
              tasks_of w2 other = Some tl) ∧
  (∀ (ops : list op) (w0 : world), heap w0 = ∅ -> heap_stable (run_ops ops w0)) ∧
  (∀ w : world, heap_valid w -> heap_stable w).
Proof.
  split; [|split; [|split]].
  - intros t w Hv. do 2 eexists. split; [apply from_dict_to_dict, clamp_valid, Hv|].
    split; [apply fresh_heap|apply lookup_insert_eq].
  - intros w self other filename tl Hh Htl [r0 Ho].
    assert (Hv := tasks_of_stable w self tl Hh Htl).
    set (w1 := with_files (<[filename := Json (VList (to_dict <$> tl))]> (files w)) w).
    destruct (for_each_from_dict_to_dict tl w1 Hv) as (ls & w' & He & Hx & Hls).
    set (r' := fresh (dom (lists w'))).
    exists w1, (with_stores (<[other := r']> (stores w'))
                  (with_lists (<[r' := ls]> (lists w')) w')).
    split; [apply save_ok, Htl|]. split.
    + unfold load, try_except_FileNotFoundError, json_load, new_list, set_tasks_attr. run.
      rewrite lookup_insert_eq. simpl. rewrite He.
      destruct Hx as (-> & _). simpl. rewrite Ho. reflexivity.
    + unfold tasks_of, refs_of. simpl. rewrite lookup_insert_eq. simpl.
      rewrite lookup_insert_eq. exact Hls.
  - intros ops w0 H0. apply run_ops_stable, heap_stable_empty, H0.
  - intros w Hh l t Hl. apply clamp_valid, (Hh l t Hl).
Qed.

Lemma round_trip_witness :
  ∃ w1 w2, save 0%nat "x.json" sample_world = (Ok tt, w1) ∧
           load 0%nat "x.json" w1 = (Ok tt, w2) ∧
           tasks_of w2 0%nat = tasks_of sample_world 0%nat.
Proof.
  destruct round_trip as (_ & H & _).
  destruct (H sample_world 0%nat 0%nat "x.json"
              [mkTask (VStr "a") (VStr "") (VInt 1) (VStr "Unassigned") (VBool false) (VStr "t0");
               mkTask (VStr "b") (VStr "n") (VInt 2) (VStr "Ann") (VBool true) (VStr "t1");
               mkTask (VStr "c") (VStr "") (VInt 3) (VStr "Bob") (VBool false) (VStr "t2")])
    as (w1 & w2 & Hs & Hl & Ht).
  - intros l t Hl. simpl in Hl.
    repeat (rewrite lookup_insert in Hl; case_decide; [injection Hl as <-; reflexivity|]).
    rewrite lookup_empty in Hl. discriminate.
  - reflexivity.
  - eexists. reflexivity.
  - exists w1, w2. rewrite Ht. auto.
Defined.

(** ** The end-to-end scenario *)

Lemma add_task_ok (w : world) (self r task : loc) (ts : list loc) :
  stores w !! self = Some r ->
  lists w !! r = Some ts ->
  add_task self task w = (Ok tt, with_lists (<[r := ts ++ [task]]> (lists w)) w).
Proof.
  intros Hs Hr. unfold add_task, set_list. read_store Hs Hr. rewrite Hr. reflexivity.
Qed.

Lemma get_tasks_all_ok (w : world) (self r : loc) (ts : list loc) :
  stores w !! self = Some r ->
  lists w !! r = Some ts ->
  get_tasks self true w
    = (Ok (fresh (dom (lists w))), with_lists (<[fresh (dom (lists w)) := ts]> (lists w)) w).
Proof. intros Hs Hr. unfold get_tasks. read_store Hs Hr. reflexivity. Qed.

(** C9.  Whatever the world it starts in, the scenario returns: the
    task added with priority 5 is stored with priority 3; the store
    loaded from the saved file holds one task; [str] of that task is
    ["[ ] Buy milk (Priority: Low, Assignee: Unassigned)"]. *)
Theorem buy_milk_spec (py_repr : value -> string) (w : world) :
  ∃ w', buy_milk py_repr w
        = (Ok (VInt 3, 1%nat, Ok "[ ] Buy milk (Priority: Low, Assignee: Unassigned)"), w').
Proof.
  unfold buy_milk, ToDoList_init at 1, new_list, new_store, Task_init, now_isoformat, new_task.
  run.
  set (r := fresh (dom (lists w))). set (s := fresh (dom (stores w))).
  set (l := fresh (dom (heap w))). set (t := mkTask _ _ _ _ _ _).
  erewrite (add_task_ok _ s r l []) by (simpl; apply lookup_insert_eq).
  simpl. rewrite insert_insert_eq.
  erewrite (get_tasks_all_ok _ s r [l]) by (simpl; apply lookup_insert_eq).
  unfold get_list, get_task, list_getitem, py_position. simpl.
  repeat (rewrite lookup_insert_eq; simpl).
  erewrite (save_ok _ s "x.json" [t]) by
    (unfold tasks_of, refs_of; simpl; repeat (rewrite ?lookup_insert_eq; simpl);
     rewrite lookup_insert_ne by (pose proof (fresh_list (<[r:=[l]]> (lists w))) as Hf;
       intros E; rewrite E, lookup_insert_eq in Hf; discriminate);
     repeat (rewrite ?lookup_insert_eq; simpl); reflexivity).
  simpl.
  unfold load, try_except_FileNotFoundError, json_load, new_list, set_tasks_attr. run.
  rewrite lookup_insert_eq. simpl. unfold mbind, M_bind, bind.
  rewrite from_dict_to_dict by reflexivity.
  simpl. rewrite lookup_insert_eq.
  erewrite get_tasks_all_ok by (simpl; apply lookup_insert_eq).
  simpl. repeat (rewrite lookup_insert_eq; simpl).
  eexists. reflexivity.
Qed.

(** ** The priority invariant *)

Lemma valid_priority_label (v : value) :
  valid_priority v -> ∃ pr, dict_getitem labels v = Ok pr.
Proof. intros [-> | [-> | ->]]; eexists; reflexivity. Qed.

(** C2.  The clamp maps 1, 2, 3 to themselves, 0 to 1 and 4 to 3, and
    every integer into {1, 2, 3}; the constructor stores the clamped
    argument, and so does [edit_task] when it is given a priority; and
    after any sequence of operations given integer priorities (as
    arguments, in mappings, in the records of the files), started where
    every task has its priority in {1, 2, 3}, every task object still
    has. *)
Theorem priority_invariant :
  (clamp (VInt 1) = Ok (VInt 1) ∧ clamp (VInt 2) = Ok (VInt 2) ∧
   clamp (VInt 3) = Ok (VInt 3) ∧ clamp (VInt 0) = Ok (VInt 1) ∧
   clamp (VInt 4) = Ok (VInt 3)) ∧
  (∀ p, ∃ q, clamp (VInt p) = Ok q ∧ valid_priority q) ∧
  (∀ v_title v_note p v_assignee w,
     ∃ l w' t, Task_init v_title v_note (VInt p) v_assignee w = (Ok l, w') ∧
               heap w' !! l = Some t ∧ clamp (VInt p) = Ok (priority t)) ∧
  (∀ w self r ts index l t v_title v_note p v_assignee,
     stores w !! self = Some r -> lists w !! r = Some ts ->
     0 <= index -> ts !! Z.to_nat index = Some l -> heap w !! l = Some t ->
     ∃ w' t', edit_task self index v_title v_note (VInt p) v_assignee w = (Ok true, w') ∧
              heap w' !! l = Some t' ∧ clamp (VInt p) = Ok (priority t')) ∧
  (∀ w0 ops l t,
     heap_valid w0 -> int_priority_files w0 -> Forall int_priority_input ops ->
     heap (run_ops ops w0) !! l = Some t -> valid_priority (priority t)).
Proof.
  split; [repeat split|]. split; [exact clamp_int_valid|]. split; [|split].
  - intros v_title v_note p v_assignee w.
    unfold Task_init, now_isoformat, new_task. run. rewrite clamp_int. simpl.
    do 3 eexists. split; [reflexivity|]. split; [apply lookup_insert_eq|reflexivity].
  - intros w self r ts index l t v_title v_note p v_assignee Hs Hr H0 Hl Ht.
    do 2 eexists. split.
    + apply (edit_task_in_range w self r ts index _ _ _ _ l t); eauto.
    + split; [apply lookup_insert_eq|]. simpl. apply clamp_int.
  - intros w0 ops l t Hh Hf Hops Ht.
    exact (proj1 (run_ops_valid ops w0 Hops Hh Hf) l t Ht).
Qed.

Lemma heap_valid_empty_world : heap_valid empty_world.
Proof. intros l t H. simpl in H. rewrite lookup_empty in H. discriminate. Qed.

Lemma int_priority_files_empty_world : int_priority_files empty_world.
Proof. intros f c H. simpl in H. rewrite lookup_empty in H. discriminate. Qed.

Lemma priority_invariant_witness :
  ∃ t, heap (run_ops [Op_Task (VStr "Buy milk") (VStr "") (VInt 5) (VStr "Unassigned");
                      Op_mark_done 0%nat] empty_world) !! 0%nat = Some t ∧
       valid_priority (priority t).
Proof.
  eexists. split; [reflexivity|].
  apply (proj2 (proj2 (proj2 (proj2 priority_invariant))) empty_world
           [Op_Task (VStr "Buy milk") (VStr "") (VInt 5) (VStr "Unassigned");
            Op_mark_done 0%nat] 0%nat).
  - exact heap_valid_empty_world.
  - exact int_priority_files_empty_world.
  - repeat constructor. eexists. reflexivity.
  - reflexivity.
Defined.

(** ** [__str__] *)

(** C10 does not hold as it is stated: [from_dict] accepts the mapping
    [{"title": "x", "priority": 2.5}] and keeps 2.5 as the priority, and
    [str] of the task it builds raises [KeyError]. *)
Lemma str_raises_after_from_dict :
  ∃ l t, heap (run_ops [Op_from_dict (VDict half_priority_record)] empty_world) !! l = Some t ∧
         priority t = VFloat (FFin 5 (-1)) ∧
         ∀ py_repr, Task_str py_repr t = Raise KeyError.
Proof.
  exists 0%nat. eexists. split; [reflexivity|]. split; reflexivity.
Qed.

(** C10, as the code has it.  After any sequence of operations given
    integer priorities (as arguments, in mappings, in the records of the
    files), [str] of every task object returns: the priority is a key of
    the table of labels. *)
Theorem str_total (py_repr : value -> string) (w0 : world) (ops : list op)
    (l : loc) (t : Task) :
  heap_valid w0 -> int_priority_files w0 -> Forall int_priority_input ops ->
  heap (run_ops ops w0) !! l = Some t ->
  (∃ pr, dict_getitem labels (priority t) = Ok pr) ∧
  (∃ s, Task_str py_repr t = Ok s).
Proof.
  intros Hh Hf Hops Ht.
  assert (Hv : valid_priority (priority t))
    by exact (proj1 (run_ops_valid ops w0 Hops Hh Hf) l t Ht).
  split; [apply valid_priority_label, Hv|].
  unfold Task_str. destruct (valid_priority_label _ Hv) as [pr ->]. eauto.
Qed.

Lemma str_total_witness :
  ∃ s, Task_str (fun _ => ""%string)
         (mkTask (VStr "Buy milk") (VStr "") (VInt 3) (VStr "Unassigned") (VBool true)
                 (VStr "now")) = Ok s.
Proof.
  apply (str_total (fun _ => ""%string) empty_world
           [Op_Task (VStr "Buy milk") (VStr "") (VInt 5) (VStr "Unassigned");
            Op_mark_done 0%nat] 0%nat).
  - exact heap_valid_empty_world.
  - exact int_priority_files_empty_world.
  - repeat constructor. eexists. reflexivity.
  - reflexivity.
Defined.

(** * Further properties of the two classes *)

(** ** [mark_done] and [mark_undone] *)

Lemma with_heap_insert_id (w : world) (l : loc) (t : Task) :
  heap w !! l = Some t -> with_heap (<[l := t]> (heap w)) w = w.
Proof. intros H. rewrite insert_id by exact H. apply with_heap_id. Qed.

(** X1.  [mark_done] sets [done] to [True] on the task and changes
    nothing else; it is idempotent; [mark_undone] after it sets [done]
    to [False], which gives back the world before [mark_done] exactly
    when the task was not done to begin with. *)
Theorem mark_done_mark_undone (w : world) (l : loc) (t : Task) :
  heap w !! l = Some t ->
  let w1 := with_heap (<[l := set_done (VBool true) t]> (heap w)) w in
  mark_done l w = (Ok tt, w1) ∧
  mark_done l w1 = (Ok tt, w1) ∧
  mark_undone l w1
    = (Ok tt, with_heap (<[l := set_done (VBool false) t]> (heap w)) w) ∧
  (done t = VBool false -> mark_undone l w1 = (Ok tt, w)) ∧
  (∀ l', l' ≠ l -> heap w1 !! l' = heap w !! l').
Proof.
  intros Ht w1.
  assert (H1 : heap w1 !! l = Some (set_done (VBool true) t)) by apply lookup_insert_eq.
  assert (Hu : mark_undone l w1
               = (Ok tt, with_heap (<[l := set_done (VBool false) t]> (heap w)) w)).
  { unfold mark_undone. rewrite (update_task_ok _ l _ w1 H1).
    unfold w1, with_heap. simpl. rewrite insert_insert_eq. reflexivity. }
  split; [apply update_task_ok, Ht|]. split; [|split; [exact Hu|split]].
  - unfold mark_done. rewrite (update_task_ok _ l _ w1 H1).
    unfold w1, with_heap. simpl. rewrite insert_insert_eq. reflexivity.
  - intros Hd. rewrite Hu. f_equal.
    replace (set_done (VBool false) t) with t by (unfold set_done; destruct t; simpl in *; congruence).
    apply with_heap_insert_id, Ht.
  - intros l' Hne. simpl. apply lookup_insert_ne. congruence.
Qed.

Lemma mark_done_mark_undone_witness :
  mark_done 1%nat
    (with_heap (<[1%nat := set_done (VBool true) sample_task]> (heap sample_world))
       sample_world)
  = (Ok tt,
     with_heap (<[1%nat := set_done (VBool true) sample_task]> (heap sample_world))
       sample_world).
Proof.
  apply (mark_done_mark_undone sample_world 1%nat sample_task). reflexivity.
Defined.

Lemma is_pending_after_mark_done (w : world) (l x : loc) (t : Task) :
  heap w !! l = Some t ->
  is_pending (with_heap (<[l := set_done (VBool true) t]> (heap w)) w) x
  <-> x ≠ l ∧ is_pending w x.
Proof.
  intros Ht. unfold is_pending. simpl. rewrite lookup_insert. case_decide as E.
  - subst x. split.
    + intros (t' & [= <-] & D). discriminate.
    + intros [Hne _]. congruence.
  - split.
    + intros H. split; [congruence|exact H].
    + intros [_ H]. exact H.
Qed.

Lemma is_pending_after_mark_undone (w : world) (l x : loc) (t : Task) :
  heap w !! l = Some t ->
  is_pending (with_heap (<[l := set_done (VBool false) t]> (heap w)) w) x
  <-> x = l ∨ is_pending w x.
Proof.
  intros Ht. unfold is_pending. simpl. rewrite lookup_insert. case_decide as E.
  - subst x. split; [auto|]. intros _. eexists. split; reflexivity.
  - split.
    + intros H. right. exact H.
    + intros [Hx | H]; [congruence|exact H].
Qed.

Lemma get_tasks_pending_ok (w : world) (self r : loc) (ts : list loc) :
  stores w !! self = Some r ->
  lists w !! r = Some ts ->
  (∀ l, l ∈ ts -> is_Some (heap w !! l)) ->
  get_tasks self false w
    = (Ok (fresh (dom (lists w))),
       with_lists (<[fresh (dom (lists w)) := filter (is_pending w) ts]> (lists w)) w).
Proof.
  intros Hs Hr Hall. unfold get_tasks. read_store Hs Hr.
  rewrite (not_done_spec _ _ Hall). reflexivity.
Qed.

(** X2.  [get_tasks(False)] follows the marks: after [mark_done] the
    pending list is the former one without the task; after
    [mark_undone] it is the list of the store restricted to the task and
    the formerly pending ones. *)
Theorem pending_view_follows_marks (w : world) (self r l : loc) (ts : list loc) (t : Task) :
  stores w !! self = Some r ->
  lists w !! r = Some ts ->
  (∀ x, x ∈ ts -> is_Some (heap w !! x)) ->
  heap w !! l = Some t ->
  (∃ w1 r1 w2, mark_done l w = (Ok tt, w1) ∧
     get_tasks self false w1 = (Ok r1, w2) ∧
     lists w2 !! r1 = Some (filter (fun x => x ≠ l) (filter (is_pending w) ts))) ∧
  (∃ w1 r1 w2, mark_undone l w = (Ok tt, w1) ∧
     get_tasks self false w1 = (Ok r1, w2) ∧
     lists w2 !! r1 = Some (filter (fun x => x = l ∨ is_pending w x) ts)).
Proof.
  intros Hs Hr Hall Ht.
  assert (Hall' : ∀ v x, x ∈ ts ->
            is_Some (heap (with_heap (<[l := set_done v t]> (heap w)) w) !! x)).
  { intros v x Hx. simpl. rewrite lookup_insert. case_decide; [eauto|apply Hall, Hx]. }
  split.
  - do 3 eexists. split; [apply update_task_ok, Ht|]. split.
    + apply (get_tasks_pending_ok _ self r ts); [exact Hs|exact Hr|apply Hall'].
    + simpl. rewrite lookup_insert_eq. f_equal.
      rewrite list_filter_filter. apply list_filter_iff.
      intros x. apply is_pending_after_mark_done, Ht.
  - do 3 eexists. split; [apply update_task_ok, Ht|]. split.
    + apply (get_tasks_pending_ok _ self r ts); [exact Hs|exact Hr|apply Hall'].
    + simpl. rewrite lookup_insert_eq. f_equal.
      apply list_filter_iff. intros x. apply is_pending_after_mark_undone, Ht.
Qed.

(** ** [to_dict] *)

Lemma to_dict_getitem (t : Task) :
  py_getitem (to_dict t) "title" = Ok (title t) ∧
  py_getitem (to_dict t) "note" = Ok (note t) ∧
  py_getitem (to_dict t) "priority" = Ok (priority t) ∧
  py_getitem (to_dict t) "assignee" = Ok (assignee t) ∧
  py_getitem (to_dict t) "done" = Ok (done t) ∧
  py_getitem (to_dict t) "created_at" = Ok (created_at t).
Proof.
  unfold to_dict, py_getitem.
  repeat split; repeat (rewrite ?lookup_insert_eq; rewrite ?lookup_insert_ne by done);
    reflexivity.
Qed.

(** X3.  [to_dict] returns a mapping with exactly the six keys, each
    holding the attribute of that name; two tasks with the same mapping
    have the same attributes. *)
Theorem to_dict_faithful (t : Task) :
  (∃ m, to_dict t = VDict m ∧
        dom m = ({["title"; "note"; "priority"; "assignee"; "done"; "created_at"]}
                 : gset string)) ∧
  (py_getitem (to_dict t) "title" = Ok (title t) ∧
   py_getitem (to_dict t) "note" = Ok (note t) ∧
   py_getitem (to_dict t) "priority" = Ok (priority t) ∧
   py_getitem (to_dict t) "assignee" = Ok (assignee t) ∧
   py_getitem (to_dict t) "done" = Ok (done t) ∧
   py_getitem (to_dict t) "created_at" = Ok (created_at t)) ∧
  (∀ t', to_dict t = to_dict t' -> t = t').
Proof.
  split; [|split; [apply to_dict_getitem|]].
  - eexists. split; [reflexivity|].
    rewrite !dom_insert_L, dom_empty_L. set_solver.
  - intros t' E.
    destruct (to_dict_getitem t) as (H1 & H2 & H3 & H4 & H5 & H6).
    destruct (to_dict_getitem t') as (H1' & H2' & H3' & H4' & H5' & H6').
    rewrite E in H1, H2, H3, H4, H5, H6.
    destruct t, t'; simpl in *. congruence.
Qed.

(** ** [save] *)

(** X4.  [save] leaves the file holding the mappings of the tasks of the
    store, in order, whatever it held; every other file, the tasks and
    the store are unchanged, and saving again changes nothing. *)
Theorem save_overwrites (w : world) (self : loc) (filename : string) (tl : list Task) :
  tasks_of w self = Some tl ->
  let w1 := with_files (<[filename := Json (VList (to_dict <$> tl))]> (files w)) w in
  save self filename w = (Ok tt, w1) ∧
  save self filename w1 = (Ok tt, w1) ∧
  (∀ f, f ≠ filename -> files w1 !! f = files w !! f) ∧
  tasks_of w1 self = Some tl.
Proof.
  intros Htl w1. split; [apply save_ok, Htl|]. split; [|split].
  - rewrite (save_ok w1 self filename tl) by exact Htl.
    unfold w1, with_files. simpl. rewrite insert_insert_eq. reflexivity.
  - intros f Hne. simpl. apply lookup_insert_ne. congruence.
  - exact Htl.
Qed.

(** ** [from_dict] *)

(** X5.  [from_dict] reads six keys only: mappings that agree on them
    give the same result and the same world. *)
Theorem from_dict_reads_six_keys (m1 m2 : gmap string value) (w : world) :
  (∀ k, k ∈ ["title"; "note"; "priority"; "assignee"; "done"; "created_at"]%string ->
        m1 !! k = m2 !! k) ->
  from_dict (VDict m1) w = from_dict (VDict m2) w.
Proof.
  intros H. rewrite !from_dict_dict.
  rewrite !H by (repeat first [apply list_elem_of_here | apply list_elem_of_further]).
  reflexivity.
Qed.

(** X6.  When [from_dict] raises, the world is as it was before the
    call; the exception is [KeyError] or [TypeError], and it is
    [KeyError] exactly when the argument is a mapping without a title. *)
Theorem from_dict_failure (v : value) (w w' : world) (e : exn) :
  from_dict v w = (Raise e, w') ->
  w' = w ∧
  (e = KeyError ∨ e = TypeError) ∧
  (e = KeyError <-> ∃ m, v = VDict m ∧ m !! "title" = None).
Proof.
  intros H. destruct v; try (injection H as <- <-; split; [reflexivity|];
    split; [auto|]; split; [discriminate|intros (m & [=] & _)]).
  rewrite from_dict_dict in H. destruct (d !! "title") as [v_title|] eqn:Et.
  - destruct (clamp _) as [p|e'] eqn:Ec; [discriminate|].
    injection H as <- <-. apply clamp_error in Ec as ->.
    split; [reflexivity|]. split; [auto|]. split; [discriminate|].
    intros (m & [= <-] & Hm). congruence.
  - injection H as <- <-. split; [reflexivity|]. split; [auto|]. split; [|reflexivity].
    intros _. eauto.
Qed.

(** ** [Task.__init__] *)

(** X7.  The constructor, given a priority that is a number, creates a
    new task object with the clamped priority, not done, stamped by the
    clock, and changes nothing else; given any other priority it raises
    [TypeError] and leaves the world as it was: no object is created and
    the clock is not read. *)
Theorem Task_init_spec (v_title v_note v_priority v_assignee : value) (w : world) :
  (is_number v_priority ->
     ∃ p, clamp v_priority = Ok p ∧
       heap w !! fresh (dom (heap w)) = None ∧
       Task_init v_title v_note v_priority v_assignee w
       = (Ok (fresh (dom (heap w))),
          mkWorld
            (<[fresh (dom (heap w)) :=
                 mkTask v_title v_note p v_assignee (VBool false)
                        (VStr (clock w (ticks w)))]> (heap w))
            (lists w) (stores w) (files w) (clock w) (S (ticks w)))) ∧
  (¬ is_number v_priority ->
     Task_init v_title v_note v_priority v_assignee w = (Raise TypeError, w)).
Proof.
  unfold Task_init, now_isoformat, new_task. run. split.
  - intros Hn. destruct (proj2 (clamp_number v_priority) Hn) as [p Hp].
    exists p. split; [exact Hp|]. split; [apply fresh_heap|]. rewrite Hp. reflexivity.
  - intros Hn. destruct (clamp v_priority) as [p|e] eqn:Ec.
    + destruct Hn. apply clamp_number. eauto.
    + apply clamp_error in Ec as ->. reflexivity.
Qed.

(** ** [__str__] *)

Lemma dict_getitem_labels (v : value) :
  dict_getitem labels v
  = match v with
    | VList _ | VDict _ => Raise TypeError
    | _ => if key_eq 1 v then Ok "High"
           else if key_eq 2 v then Ok "Med"
           else if key_eq 3 v then Ok "Low"
           else Raise KeyError
    end.
Proof.
  unfold dict_getitem, labels. destruct v; try reflexivity; simpl;
    repeat (match goal with |- context [if ?b then _ else _] => destruct b end; simpl);
    reflexivity.
Qed.

(** X8.  [str] of a task returns exactly when its priority equals 1, 2
    or 3 as a number ([True] and [1.0] are High, [2.0] is Med); it
    raises [TypeError] when the priority is a list or a mapping and
    [KeyError] on every other priority.  The result depends on the
    title, the priority, the assignee and the truth value of [done]
    only: a note, a creation time or another true value of [done] make
    no difference. *)
Theorem Task_str_spec (py_repr : value -> string) (t : Task) :
  ((∃ text, Task_str py_repr t = Ok text) <->
   key_eq 1 (priority t) || key_eq 2 (priority t) || key_eq 3 (priority t) = true) ∧
  (∀ e, Task_str py_repr t = Raise e ->
     (e = TypeError ∧ unhashable (priority t)) ∨
     (e = KeyError ∧ ¬ unhashable (priority t))) ∧
  (∀ t', title t' = title t -> priority t' = priority t -> assignee t' = assignee t ->
         truthy (done t') = truthy (done t) ->
         Task_str py_repr t' = Task_str py_repr t).
Proof.
  unfold Task_str. split; [|split].
  - rewrite dict_getitem_labels.
    destruct (priority t); simpl;
      repeat (match goal with |- context [if ?b then _ else _] => destruct b end; simpl);
      split; try discriminate; try (intros [text H]; discriminate H); eauto.
  - intros e. rewrite dict_getitem_labels.
    destruct (priority t) eqn:Ep; simpl;
      repeat (match goal with |- context [if ?b then _ else _] => destruct b end; simpl);
      intros H; try discriminate H; injection H as <-;
      first [ left; split; [reflexivity|exact I]
            | right; split; [reflexivity|intros []] ].
  - intros t' -> -> -> ->. reflexivity.
Qed.

Lemma Task_str_spec_witness :
  Task_str sample_repr (set_priority (VBool true) sample_task)
  = Task_str sample_repr
      (mkTask (VStr "b") (VStr "other note") (VBool true) (VStr "Ann") (VStr "yes") VNone).
Proof.
  symmetry. apply (Task_str_spec sample_repr (set_priority (VBool true) sample_task));
    reflexivity.
Defined.

(** ** The round trip, the other way *)

(** X9.  [to_dict] undoes [from_dict] on the mappings [to_dict]
    produces: for a mapping with exactly the six keys whose priority the
    clamp leaves as it is, [from_dict] returns a new task whose
    [to_dict] is that mapping. *)
Theorem to_dict_from_dict (m : gmap string value) (p : value) (w : world) :
  dom m = ({["title"; "note"; "priority"; "assignee"; "done"; "created_at"]} : gset string) ->
  m !! "priority" = Some p -> stable_priority p ->
  ∃ l w' t, from_dict (VDict m) w = (Ok l, w') ∧
            heap w !! l = None ∧ heap w' !! l = Some t ∧ to_dict t = VDict m.
Proof.
  intros Hdom Hp Hstable.
  assert (Hkey : ∀ k, k ∈ dom m -> ∃ v, m !! k = Some v).
  { intros k Hk. apply elem_of_dom in Hk as [v Hv]. eauto. }
  destruct (Hkey "title") as [v1 H1]; [rewrite Hdom; set_solver|].
  destruct (Hkey "note") as [v2 H2]; [rewrite Hdom; set_solver|].
  destruct (Hkey "assignee") as [v4 H4]; [rewrite Hdom; set_solver|].
  destruct (Hkey "done") as [v5 H5]; [rewrite Hdom; set_solver|].
  destruct (Hkey "created_at") as [v6 H6]; [rewrite Hdom; set_solver|].
  rewrite from_dict_dict, H1, Hp, H2, H4, H5, H6. simpl. rewrite Hstable.
  eexists _, _, _. split; [reflexivity|]. split; [apply fresh_heap|].
  split; [apply lookup_insert_eq|].
  unfold to_dict. simpl. f_equal. apply map_eq. intros k.
  destruct (decide (k = "title")) as [->|N1]; [rewrite lookup_insert_eq; auto|].
  rewrite lookup_insert_ne by congruence.
  destruct (decide (k = "note")) as [->|N2]; [rewrite lookup_insert_eq; auto|].
  rewrite lookup_insert_ne by congruence.
  destruct (decide (k = "priority")) as [->|N3]; [rewrite lookup_insert_eq; auto|].
  rewrite lookup_insert_ne by congruence.
  destruct (decide (k = "assignee")) as [->|N4]; [rewrite lookup_insert_eq; auto|].
  rewrite lookup_insert_ne by congruence.
  destruct (decide (k = "done")) as [->|N5]; [rewrite lookup_insert_eq; auto|].
  rewrite lookup_insert_ne by congruence.
  destruct (decide (k = "created_at")) as [->|N6]; [rewrite lookup_insert_eq; auto|].
  rewrite lookup_insert_ne by congruence.
  rewrite lookup_empty. symmetry. apply not_elem_of_dom. rewrite Hdom.
  rewrite !elem_of_union, !elem_of_singleton. tauto.
Qed.

Lemma to_dict_from_dict_witness :
  ∃ l w' t, from_dict (to_dict sample_task) empty_world = (Ok l, w') ∧
            heap empty_world !! l = None ∧ heap w' !! l = Some t ∧
            to_dict t = to_dict sample_task.
Proof.
  apply (to_dict_from_dict _ (VInt 2) empty_world).
  - unfold to_dict, sample_task. simpl. rewrite !dom_insert_L, dom_empty_L. set_solver.
  - reflexivity.
  - reflexivity.
Defined.

(** ** [edit_task] with a priority that is not a number *)

(** X10.  [edit_task] is not atomic: in range, with a priority that is
    neither [None] nor a number, it raises [TypeError] once the title
    and the note have been assigned; the priority and the assignee are
    the old ones. *)
Theorem edit_task_not_atomic (w : world) (self r : loc) (ts : list loc) (index : Z)
    (v_title v_note v_priority v_assignee : value) (l : loc) (t : Task) :
  stores w !! self = Some r ->
  lists w !! r = Some ts ->
  0 <= index -> ts !! Z.to_nat index = Some l -> heap w !! l = Some t ->
  v_priority ≠ VNone -> ¬ is_number v_priority ->
  edit_task self index v_title v_note v_priority v_assignee w
    = (Raise TypeError,
       with_heap
         (<[l := mkTask (keep_or (title t) v_title) (keep_or (note t) v_note)
                   (priority t) (assignee t) (done t) (created_at t)]> (heap w))
         w).
Proof.
  intros Hs Hr H0 Hl Ht Hnone Hnum.
  assert (Hlen : 0 <= index < Z.of_nat (length ts)).
  { apply lookup_lt_Some in Hl. lia. }
  assert (Hc : clamp v_priority = Raise TypeError).
  { destruct (clamp v_priority) as [p|e] eqn:Ec.
    - destruct Hnum. apply clamp_number. eauto.
    - apply clamp_error in Ec as ->. reflexivity. }
  unfold edit_task, list_getitem, py_position. read_store Hs Hr.
  rewrite !bool_decide_eq_true_2 by lia. simpl. rewrite Hl.
  rewrite (assign_unless_None_ok set_title title _ l t) by (destruct t; done).
  set (t1 := set_title (keep_or (title t) v_title) t).
  rewrite (assign_unless_None_ok set_note note _ l t1)
    by (solve [reflexivity | apply lookup_insert_eq]).
  simpl. rewrite insert_insert_eq.
  destruct v_priority; try (destruct (Hnone eq_refl)); try (destruct Hnum; exact I);
    rewrite Hc; reflexivity.
Qed.

(** ** The clamp on every value *)

Lemma clamp_float (f : pyfloat) :
  clamp (VFloat f)
  = Ok (if int_lt_float 3 f then VInt 3 else if int_lt_float 1 f then VFloat f else VInt 1).
Proof.
  unfold clamp, py_min, py_max. simpl.
  destruct (int_lt_float 3 f) eqn:E3; simpl; [reflexivity|].
  destruct (int_lt_float 1 f); reflexivity.
Qed.

Lemma clamp_float_kept (f : pyfloat) :
  clamp (VFloat f) = Ok (VFloat f) <-> int_lt_float 1 f = true ∧ int_lt_float 3 f = false.
Proof.
  rewrite clamp_float.
  destruct (int_lt_float 3 f), (int_lt_float 1 f); split; intros H;
    try discriminate H; try (destruct H; discriminate); auto.
Qed.

(** X11.  [max(1, min(priority, 3))] is defined exactly on numbers and
    raises [TypeError] elsewhere; it is idempotent; on integers it is
    the identity on 1..3 and saturates outside; both booleans give 1; a
    float [f] gives 3 when [3 < f], itself exactly when [1 < f <= 3],
    and 1 otherwise, NaN included. *)
Theorem clamp_laws :
  (∀ v, (∃ p, clamp v = Ok p) <-> is_number v) ∧
  (∀ v, ¬ is_number v -> clamp v = Raise TypeError) ∧
  (∀ v p, clamp v = Ok p -> clamp p = Ok p) ∧
  (∀ z, 1 <= z <= 3 -> clamp (VInt z) = Ok (VInt z)) ∧
  (∀ z, z < 1 -> clamp (VInt z) = Ok (VInt 1)) ∧
  (∀ z, 3 < z -> clamp (VInt z) = Ok (VInt 3)) ∧
  (∀ b, clamp (VBool b) = Ok (VInt 1)) ∧
  (∀ f p, clamp (VFloat f) = Ok p -> p = VInt 1 ∨ p = VInt 3 ∨ p = VFloat f) ∧
  (∀ f, clamp (VFloat f)
        = Ok (if int_lt_float 3 f then VInt 3
              else if int_lt_float 1 f then VFloat f else VInt 1)) ∧
  (∀ m e, 0 <= e ->
     (clamp (VFloat (FFin m e)) = Ok (VFloat (FFin m e)) <-> 1 < m * 2 ^ e <= 3)) ∧
  (∀ m e, e < 0 ->
     (clamp (VFloat (FFin m e)) = Ok (VFloat (FFin m e))
      <-> 2 ^ (- e) < m <= 3 * 2 ^ (- e))) ∧
  clamp (VFloat FNan) = Ok (VInt 1) ∧
  clamp (VFloat (FInf false)) = Ok (VInt 3) ∧
  clamp (VFloat (FInf true)) = Ok (VInt 1).
Proof.
  split; [exact clamp_number|]. split; [|split; [exact clamp_idempotent|]].
  - intros v Hn. destruct (clamp v) as [p|e] eqn:Ec.
    + destruct Hn. apply clamp_number. eauto.
    + apply clamp_error in Ec as ->. reflexivity.
  - split; [|split; [|split; [|split; [|split; [|split; [|split]]]]]].
    + intros z Hz. rewrite clamp_int. do 2 f_equal. lia.
    + intros z Hz. rewrite clamp_int. do 2 f_equal. lia.
    + intros z Hz. rewrite clamp_int. do 2 f_equal. lia.
    + intros []; reflexivity.
    + intros f p. rewrite clamp_float.
      destruct (int_lt_float 3 f); [|destruct (int_lt_float 1 f)]; intros [= <-]; auto.
    + exact clamp_float.
    + intros m e He. rewrite clamp_float_kept. simpl.
      rewrite (proj2 (Z.leb_le 0 e) He), Z.ltb_lt, Z.ltb_ge. lia.
    + split; [|split; [|split]]; try reflexivity.
      intros m e He. rewrite clamp_float_kept. simpl.
      rewrite (proj2 (Z.leb_gt 0 e) He), Z.ltb_lt, Z.ltb_ge. lia.
Qed.

(** ** [ToDoList.__init__] *)

(** X12.  [ToDoList()] always returns a new store bound to a new, empty
    list; it touches no task and no file, and every store that existed
    holds the tasks it held, also after a task is added to the new one. *)
Theorem new_store_is_separate (w : world) :
  ∃ s r w1, ToDoList_init w = (Ok s, w1) ∧
    stores w !! s = None ∧ lists w !! r = None ∧
    stores w1 !! s = Some r ∧ refs_of w1 s = Some [] ∧
    heap w1 = heap w ∧ files w1 = files w ∧
    (∀ s' ts, refs_of w s' = Some ts ->
       refs_of w1 s' = Some ts ∧
       ∀ task, refs_of (add_task s task w1).2 s' = Some ts).
Proof.
  set (r := fresh (dom (lists w))). set (s := fresh (dom (stores w))).
  assert (Hr : lists w !! r = None) by apply fresh_list.
  assert (Hs : stores w !! s = None) by (apply not_elem_of_dom, is_fresh).
  exists s, r. eexists. split; [reflexivity|].
  split; [exact Hs|]. split; [exact Hr|]. simpl.
  split; [apply lookup_insert_eq|]. split; [|split; [reflexivity|split; [reflexivity|]]].
  - unfold refs_of. simpl. rewrite lookup_insert_eq. simpl. apply lookup_insert_eq.
  - intros s' ts. unfold refs_of. simpl.
    destruct (stores w !! s') as [r'|] eqn:Es'; [|discriminate]. simpl. intros Hr'.
    assert (Hne : s ≠ s') by congruence.
    assert (Hner : r ≠ r') by congruence.
    split.
    + rewrite lookup_insert_ne by exact Hne. rewrite Es'. simpl.
      rewrite lookup_insert_ne by exact Hner. exact Hr'.
    + intros task. erewrite (add_task_ok _ s r task []);
        [|simpl; apply lookup_insert_eq..].
      simpl. rewrite lookup_insert_ne by exact Hne. rewrite Es'. simpl.
      rewrite !lookup_insert_ne by exact Hner. exact Hr'.
Qed.

(** ** [add_task] *)

Lemma with_lists_id (w : world) : with_lists (lists w) w = w.
Proof. destruct w; reflexivity. Qed.

Lemma remove_task_ok (w : world) (self r : loc) (ts : list loc) (index : Z) :
  stores w !! self = Some r ->
  lists w !! r = Some ts ->
  0 <= index < Z.of_nat (length ts) ->
  remove_task self index w
    = (Ok true, with_lists (<[r := delete (Z.to_nat index) ts]> (lists w)) w).
Proof.
  intros Hs Hl Hi. unfold remove_task, list_delitem, py_position, set_list.
  read_store Hs Hl. rewrite !bool_decide_eq_true_2 by lia. simpl. rewrite Hl. reflexivity.
Qed.

(** X13.  [add_task] appends the reference it is given, in place and
    without any check: earlier positions keep their element, the new
    one is last, and [remove_task] at the last position gives back the
    world before [add_task]. *)
Theorem add_task_appends (w : world) (self r task : loc) (ts : list loc) :
  stores w !! self = Some r ->
  lists w !! r = Some ts ->
  let w1 := with_lists (<[r := ts ++ [task]]> (lists w)) w in
  add_task self task w = (Ok tt, w1) ∧
  refs_of w1 self = Some (ts ++ [task]) ∧
  (∀ i x, ts !! i = Some x -> (ts ++ [task]) !! i = Some x) ∧
  (ts ++ [task]) !! length ts = Some task ∧
  remove_task self (Z.of_nat (length ts)) w1 = (Ok true, w).
Proof.
  intros Hs Hr w1. split; [apply add_task_ok; assumption|]. split; [|split; [|split]].
  - unfold refs_of. simpl. rewrite Hs. simpl. apply lookup_insert_eq.
  - intros i x Hi. apply lookup_app_l_Some, Hi.
  - rewrite lookup_app_r by lia. rewrite Nat.sub_diag. reflexivity.
  - rewrite (remove_task_ok w1 self r (ts ++ [task])).
    + f_equal. unfold w1, with_lists. simpl. rewrite insert_insert_eq.
      rewrite Nat2Z.id, (delete_middle ts [] task), app_nil_r.
      rewrite insert_id by exact Hr. apply with_lists_id.
    + exact Hs.
    + apply lookup_insert_eq.
    + rewrite length_app. simpl. lia.
Qed.

(** ** [load] *)

Lemma from_dict_succeeds (v : value) (w : world) :
  (∃ l w', from_dict v w = (Ok l, w')) <-> loadable v.
Proof.
  unfold loadable.
  destruct v; try (split; [intros (x & w' & H); cbv in H; discriminate H|intros []]).
  rewrite from_dict_dict. split.
  - intros (l & w' & H). destruct (d !! "title") as [v_title|]; [|discriminate].
    split; [eauto|]. intros v Hv. rewrite Hv in H. simpl in H.
    apply clamp_number. destruct (clamp v) as [p|e]; [eauto|discriminate].
  - intros [[v_title ->] Hp].
    destruct (d !! "priority") as [v|] eqn:Ev; simpl.
    + destruct (proj2 (clamp_number v) (Hp v eq_refl)) as [p ->]. eauto.
    + eauto.
Qed.

Lemma from_dict_ok_inv (v : value) (w w1 : world) (l : loc) :
  from_dict v w = (Ok l, w1) ->
  heap w !! l = None ∧ is_Some (heap w1 !! l) ∧ extends w w1.
Proof.
  destruct v; try discriminate. rewrite from_dict_dict.
  destruct (d !! "title"); [|discriminate]. destruct (clamp _); [|discriminate].
  intros [= <- <-]. split; [apply fresh_heap|]. split.
  - simpl. rewrite lookup_insert_eq. eauto.
  - repeat split. simpl. apply insert_subseteq, fresh_heap.
Qed.

Lemma for_each_from_dict_ok (items : list value) (w w' : world) (ls : list loc) :
  for_each from_dict items w = (Ok ls, w') ->
  length ls = length items ∧ NoDup ls ∧ Forall loadable items ∧
  (∀ l, l ∈ ls -> heap w !! l = None ∧ is_Some (heap w' !! l)) ∧ extends w w'.
Proof.
  revert w w' ls. induction items as [|v items IH]; intros w w' ls.
  - intros [= <- <-]. split; [reflexivity|]. split; [constructor|]. split; [constructor|].
    split; [|apply extends_refl]. intros l Hl. inversion Hl.
  - rewrite for_each_cons. destruct (from_dict v w) as [[l|e] w1] eqn:Ev; [|discriminate].
    destruct (for_each from_dict items w1) as [[ls1|e] w2] eqn:Er; [|discriminate].
    intros [= <- <-].
    destruct (from_dict_ok_inv _ _ _ _ Ev) as (Hn & Hl1 & Hx1).
    destruct (IH _ _ _ Er) as (Hlen & Hnd & Hld & Hfresh & Hx2).
    assert (Hsub1 : heap w ⊆ heap w1) by apply Hx1.
    assert (Hsub2 : heap w1 ⊆ heap w2) by apply Hx2.
    split; [simpl; congruence|]. split; [|split; [|split]].
    + constructor; [|exact Hnd]. intros Hin.
      destruct (Hfresh l Hin) as [Hnone _]. destruct Hl1 as [t Ht]. congruence.
    + constructor; [|exact Hld]. apply (from_dict_succeeds v w). eauto.
    + intros x Hx. apply elem_of_cons in Hx as [-> | Hx].
      * split; [exact Hn|]. destruct Hl1 as [t Ht]. exists t.
        exact (lookup_weaken _ _ _ _ Ht Hsub2).
      * destruct (Hfresh x Hx) as [Hnone Hsome]. split; [|exact Hsome].
        destruct (heap w !! x) as [t|] eqn:E; [|reflexivity].
        rewrite (lookup_weaken _ _ _ _ E Hsub1) in Hnone. discriminate.
    + eapply extends_trans; eassumption.
Qed.

Lemma for_each_from_dict_loadable (items : list value) (w : world) :
  Forall loadable items -> ∃ ls w', for_each from_dict items w = (Ok ls, w').
Proof.
  intros H. revert w. induction H as [|v items Hv _ IH]; intros w.
  - exists [], w. reflexivity.
  - rewrite for_each_cons.
    destruct (proj2 (from_dict_succeeds v w) Hv) as (l & w1 & ->).
    destruct (IH w1) as (ls & w2 & ->). eauto.
Qed.

Lemma load_json (w : world) (self r : loc) (filename : string) (data : value)
    (items : list value) :
  stores w !! self = Some r ->
  files w !! filename = Some (Json data) ->
  py_iter data = Ok items ->
  load self filename w =
    match for_each from_dict items w with
    | (Ok ls, w1) =>
        (Ok tt, with_stores (<[self := fresh (dom (lists w1))]> (stores w1))
                  (with_lists (<[fresh (dom (lists w1)) := ls]> (lists w1)) w1))
    | (Raise e, w1) => (Raise e, w1)
    end.
Proof.
  intros Hs Hf Hit.
  unfold load, try_except_FileNotFoundError, json_load, new_list, set_tasks_attr. run.
  rewrite Hf. simpl. rewrite Hit.
  destruct (for_each_from_dict_extends items w) as (o & w1 & E & Hx & He).
  rewrite E. destruct o as [ls|e]; simpl.
  - destruct Hx as (-> & _). rewrite Hs. reflexivity.
  - destruct (He e eq_refl) as [-> | ->]; reflexivity.
Qed.

Lemma load_not_iterable (w : world) (self : loc) (filename : string) (data : value) (e : exn) :
  files w !! filename = Some (Json data) ->
  py_iter data = Raise e ->
  load self filename w = (Raise TypeError, w).
Proof.
  intros Hf Hit.
  unfold load, try_except_FileNotFoundError, json_load. run. rewrite Hf. simpl.
  destruct data; try discriminate; reflexivity.
Qed.

(** X14.  For a file that holds a JSON document, [load] returns exactly
    when the document can be iterated and every element is a mapping
    with a title whose priority, if it has one, is a number: an array
    of such records, but also the empty object and the empty string,
    which iterate to no element. *)
Theorem load_succeeds_iff (w : world) (self r : loc) (filename : string) (data : value) :
  stores w !! self = Some r ->
  files w !! filename = Some (Json data) ->
  ((∃ w', load self filename w = (Ok tt, w')) <->
   (∃ items, py_iter data = Ok items ∧ Forall loadable items)).
Proof.
  intros Hs Hf. destruct (py_iter data) as [items|e] eqn:Hit.
  - rewrite (load_json _ _ r _ data items Hs Hf Hit). split.
    + intros [w' H]. exists items. split; [reflexivity|].
      destruct (for_each from_dict items w) as [[ls|e] w1] eqn:E; [|discriminate].
      apply (for_each_from_dict_ok _ _ _ _ E).
    + intros (items' & [= <-] & H).
      destruct (for_each_from_dict_loadable items w H) as (ls & w1 & ->). eauto.
  - rewrite (load_not_iterable _ _ _ data e Hf Hit). split.
    + intros [w' H]. discriminate.
    + intros (items & H & _). discriminate.
Qed.

Lemma load_succeeds_iff_witness :
  (∃ w', load 0%nat "x.json" empty_object_world = (Ok tt, w')) <->
  (∃ items, py_iter (VDict ∅) = Ok items ∧ Forall loadable items).
Proof.
  apply (load_succeeds_iff empty_object_world 0%nat 0%nat "x.json" (VDict ∅)); reflexivity.
Defined.

(** X15.  A [load] that returns has bound the store to a list of as many
    new task objects as the document has elements, each a different
    object; the tasks and the lists that existed are as they were, and
    so are the files. *)
Theorem load_builds_new_tasks (w w' : world) (self r : loc) (filename : string)
    (data : value) (items : list value) :
  stores w !! self = Some r ->
  files w !! filename = Some (Json data) ->
  py_iter data = Ok items ->
  load self filename w = (Ok tt, w') ->
  ∃ ls, refs_of w' self = Some ls ∧
        length ls = length items ∧
        NoDup ls ∧
        (∀ l, l ∈ ls -> heap w !! l = None ∧ is_Some (heap w' !! l)) ∧
        (∀ l t, heap w !! l = Some t -> heap w' !! l = Some t) ∧
        (∀ r0 ts, lists w !! r0 = Some ts -> lists w' !! r0 = Some ts) ∧
        files w' = files w.
Proof.
  intros Hs Hf Hit. rewrite (load_json _ _ r _ data items Hs Hf Hit).
  destruct (for_each from_dict items w) as [[ls|e] w1] eqn:E; [|discriminate].
  destruct (for_each_from_dict_ok _ _ _ _ E) as (Hlen & Hnd & _ & Hfresh & Hx).
  destruct Hx as (Hst & Hli & Hfi & _ & Hh).
  intros [= <-]. exists ls. split; [|split; [exact Hlen|split; [exact Hnd|split; [|split; [|split]]]]].
  - unfold refs_of. simpl. rewrite lookup_insert_eq. simpl. apply lookup_insert_eq.
  - exact Hfresh.
  - intros l t Hl. exact (lookup_weaken _ _ _ _ Hl Hh).
  - intros r0 ts Hr0. simpl. rewrite lookup_insert_ne.
    + rewrite Hli. exact Hr0.
    + intros <-. rewrite <- Hli in Hr0. rewrite fresh_list in Hr0. discriminate.
  - exact Hfi.
Qed.

(** ** The statements at work *)

Lemma sample_world_allocated (x : loc) : x ∈ [0; 1; 2]%nat -> is_Some (heap sample_world !! x).
Proof.
  intros Hx. repeat (apply elem_of_cons in Hx as [-> | Hx]; [eexists; reflexivity|]).
  inversion Hx.
Qed.

Lemma pending_view_follows_marks_witness :
  ∃ w1 r1 w2, mark_done 0%nat sample_world = (Ok tt, w1) ∧
    get_tasks 0%nat false w1 = (Ok r1, w2) ∧
    lists w2 !! r1
    = Some (filter (fun x => x ≠ 0%nat) (filter (is_pending sample_world) [0; 1; 2]%nat)).
Proof.
  apply (pending_view_follows_marks sample_world 0%nat 0%nat 0%nat [0; 1; 2]%nat
           (mkTask (VStr "a") (VStr "") (VInt 1) (VStr "Unassigned") (VBool false) (VStr "t0"))).
  - reflexivity.
  - reflexivity.
  - exact sample_world_allocated.
  - reflexivity.
Defined.

Lemma add_task_appends_witness :
  add_task 0%nat 1%nat sample_world
  = (Ok tt, with_lists (<[0%nat := [0; 1; 2; 1]%nat]> (lists sample_world)) sample_world).
Proof.
  apply (add_task_appends sample_world 0%nat 0%nat 1%nat [0; 1; 2]%nat); reflexivity.
Defined.

Lemma save_overwrites_witness :
  ∃ w1, save 0%nat "x.json" sample_world = (Ok tt, w1) ∧
        save 0%nat "x.json" w1 = (Ok tt, w1).
Proof.
  eexists. 
  pose proof (save_overwrites sample_world 0%nat "x.json"
           [mkTask (VStr "a") (VStr "") (VInt 1) (VStr "Unassigned") (VBool false) (VStr "t0");
            sample_task;
            mkTask (VStr "c") (VStr "") (VInt 3) (VStr "Bob") (VBool false) (VStr "t2")]
           eq_refl) as (H1 & H2 & _).
  split; [exact H1|exact H2].
Defined.

Lemma from_dict_reads_six_keys_witness :
  from_dict (VDict (<["title" := VStr "x"]> (<["colour" := VStr "red"]> ∅))) empty_world
  = from_dict (VDict (<["title" := VStr "x"]> ∅)) empty_world.
Proof.
  apply from_dict_reads_six_keys. intros k Hk.
  repeat (apply elem_of_cons in Hk as [-> | Hk]; [reflexivity|]). inversion Hk.
Defined.

Lemma from_dict_failure_witness :
  KeyError = KeyError <-> ∃ m, VDict (<["note" := VStr "n"]> ∅) = VDict m ∧ m !! "title" = None.
Proof.
  apply (from_dict_failure (VDict (<["note" := VStr "n"]> ∅)) empty_world empty_world KeyError).
  reflexivity.
Defined.

Lemma Task_init_spec_witness :
  Task_init (VStr "a") (VStr "") VNone (VStr "Unassigned") empty_world
  = (Raise TypeError, empty_world).
Proof.
  apply (Task_init_spec (VStr "a") (VStr "") VNone (VStr "Unassigned") empty_world).
  intros [].
Defined.

Lemma load_builds_new_tasks_witness :
  ∃ ls, refs_of (load 0%nat "x.json" one_record_world).2 0%nat = Some ls ∧ length ls = 1%nat.
Proof.
  destruct (load_builds_new_tasks one_record_world (load 0%nat "x.json" one_record_world).2
              0%nat 0%nat "x.json" (VList [VDict (<["title" := VStr "ok"]> ∅)])
              [VDict (<["title" := VStr "ok"]> ∅)])
    as (ls & Hrefs & Hlen & _); try reflexivity.
  exists ls. auto.
Defined.

Lemma edit_task_not_atomic_witness :
  edit_task 0%nat 1 (VStr "z") VNone (VStr "high") (VStr "Zed") sample_world
  = (Raise TypeError,
     with_heap (<[1%nat := set_title (VStr "z") sample_task]> (heap sample_world))
       sample_world).
Proof.
  apply (edit_task_not_atomic sample_world 0%nat 0%nat [0; 1; 2]%nat 1
           (VStr "z") VNone (VStr "high") (VStr "Zed") 1%nat sample_task);
    try reflexivity; try lia; try discriminate.
  intros [].
Defined.

Lemma clamp_laws_witness : clamp (VInt 5) = Ok (VInt 3).
Proof.
  destruct clamp_laws as (_ & _ & _ & _ & _ & H & _). apply H. lia.
Defined.

Lemma new_store_is_separate_witness :
  ∃ s w1, ToDoList_init sample_world = (Ok s, w1) ∧ refs_of w1 0%nat = Some [0; 1; 2]%nat.
Proof.
  destruct (new_store_is_separate sample_world) as (s & r & w1 & H & _ & _ & _ & _ & _ & _ & Hk).
  exists s, w1. split; [exact H|]. apply (Hk 0%nat [0; 1; 2]%nat). reflexivity.
Defined.

(** * Properties of the interactive loop *)

(** ** [list.index] *)

Lemma list_index_Some (ts : list loc) (x : loc) (j : nat) :
  list_index ts x = Some j ->
  ts !! j = Some x ∧ (∀ k, (k < j)%nat -> ts !! k ≠ Some x).
Proof.
  revert j. induction ts as [|y ts IH]; intros j; simpl; [discriminate|].
  case_bool_decide as E.
  - intros [= <-]. subst y. split; [reflexivity|]. intros k Hk. lia.
  - destruct (list_index ts x) as [j'|]; [|discriminate]. simpl. intros [= <-].
    destruct (IH j' eq_refl) as [Hj Hmin]. split; [exact Hj|].
    intros [|k] Hk; simpl.
    + congruence.
    + apply Hmin. lia.
Qed.

Lemma list_index_None (ts : list loc) (x : loc) : list_index ts x = None <-> x ∉ ts.
Proof.
  induction ts as [|y ts IH]; simpl.
  - split; [intros _; apply not_elem_of_nil|reflexivity].
  - rewrite not_elem_of_cons. case_bool_decide as E.
    + split; [discriminate|]. intros [Hne _]. congruence.
    + destruct (list_index ts x) as [j|]; simpl.
      * split; [discriminate|]. intros [_ Hn]. apply IH in Hn. discriminate.
      * split; [|reflexivity]. intros _. split; [congruence|]. apply IH. reflexivity.
Qed.

(** The index found is the first position of the object, the position
    given when the list holds no object twice. *)
Lemma list_index_lookup (ts : list loc) (i : nat) (x : loc) :
  ts !! i = Some x ->
  ∃ j, list_index ts x = Some j ∧ (j <= i)%nat ∧ ts !! j = Some x ∧
       (∀ k, (k < j)%nat -> ts !! k ≠ Some x) ∧
       (NoDup ts -> j = i).
Proof.
  intros Hi. destruct (list_index ts x) as [j|] eqn:E.
  - destruct (list_index_Some _ _ _ E) as [Hj Hmin]. exists j.
    split; [reflexivity|]. split; [|split; [exact Hj|split; [exact Hmin|]]].
    + destruct (decide (j <= i)%nat) as [|Hgt]; [assumption|].
      destruct (Hmin i); [lia|exact Hi].
    + intros Hnd. exact (NoDup_lookup _ _ _ _ Hnd Hj Hi).
  - apply list_index_None in E. destruct E. apply list_elem_of_lookup. eauto.
Qed.

(** ** The rules of the two logics *)

Lemma hoare_conseq {A} (P P' : world -> Prop) (m : Cli A) (Q Q' : A -> world -> Prop)
    (E E' : cli_exn -> world -> Prop) :
  hoare P' m Q' E' -> (∀ w, P w -> P' w) -> (∀ a w, Q' a w -> Q a w) ->
  (∀ e w, E' e w -> E e w) -> hoare P m Q E.
Proof.
  intros H HP HQ HE s Hs. specialize (H s (HP _ Hs)).
  destruct (m s).1; auto.
Qed.

Lemma hoare_pre {A} (P P' : world -> Prop) (m : Cli A) (Q : A -> world -> Prop)
    (E : cli_exn -> world -> Prop) :
  (∀ w, P w -> P' w) -> hoare P' m Q E -> hoare P m Q E.
Proof. intros HP H s Hs. exact (H s (HP _ Hs)). Qed.

Lemma hoare_ret {A} (P : world -> Prop) (a : A) (Q : A -> world -> Prop)
    (E : cli_exn -> world -> Prop) :
  (∀ w, P w -> Q a w) -> hoare P (cli_ret a) Q E.
Proof. intros H s Hs. simpl. auto. Qed.

Lemma hoare_bind {A B} (P : world -> Prop) (m : Cli A) (k : A -> Cli B)
    (Q : A -> world -> Prop) (R : B -> world -> Prop) (E : cli_exn -> world -> Prop) :
  hoare P m Q E -> (∀ a, hoare (Q a) (k a) R E) -> hoare P (m ≫= k) R E.
Proof.
  intros Hm Hk s Hs. specialize (Hm s Hs).
  unfold mbind, Cli_bind, cli_bind. destruct (m s) as [[a|e] s']; simpl in *.
  - apply Hk, Hm.
  - exact Hm.
Qed.

Lemma hoare_core {A} (P : world -> Prop) (m : M A) (Q : A -> world -> Prop)
    (E0 : exn -> world -> Prop) (E : cli_exn -> world -> Prop) :
  spec P m Q E0 -> (∀ e w, E0 e w -> E (Core e) w) -> hoare P (core m) Q E.
Proof.
  intros Hm HE s Hs. specialize (Hm _ Hs). unfold core.
  destruct (m (wld s)) as [[a|e] w']; simpl in *; auto.
Qed.

Lemma hoare_write (P : world -> Prop) (text : string) (E : cli_exn -> world -> Prop) :
  hoare P (write text) (fun _ => P) E.
Proof. intros s Hs. exact Hs. Qed.

Lemma hoare_print (P : world -> Prop) (text : string) (E : cli_exn -> world -> Prop) :
  hoare P (print text) (fun _ => P) E.
Proof. intros s Hs. exact Hs. Qed.

Lemma hoare_read_line (P : world -> Prop) (E : cli_exn -> world -> Prop) :
  (∀ w, P w -> E EOFError w) -> hoare P read_line (fun _ => P) E.
Proof.
  intros HE s Hs. unfold read_line. destruct (stdin (con s)); simpl; auto.
Qed.

Lemma hoare_input (P : world -> Prop) (prompt : string) (E : cli_exn -> world -> Prop) :
  (∀ w, P w -> E EOFError w) -> hoare P (input prompt) (fun _ => P) E.
Proof.
  intros HE. unfold input. eapply hoare_bind; [apply hoare_write|].
  intros ?. apply hoare_read_line, HE.
Qed.

Lemma hoare_try {A} (P : world -> Prop) (body handler : Cli A) (Q : A -> world -> Prop)
    (E' E : cli_exn -> world -> Prop) :
  hoare P body Q E' ->
  hoare (fun w => E' ValueError w ∨ E' (Core JSONDecodeError) w) handler Q E ->
  (∀ e w, E' e w -> e ≠ ValueError -> e ≠ Core JSONDecodeError -> E e w) ->
  hoare P (try_except_ValueError body handler) Q E.
Proof.
  intros Hb Hh HE s Hs. specialize (Hb s Hs). unfold try_except_ValueError.
  destruct (body s) as [[a|e] s']; simpl in *; [exact Hb|].
  destruct e as [e| | |]; try (apply (HE _ _ Hb); discriminate).
  - destruct e; try (apply (HE _ _ Hb); discriminate). apply Hh. auto.
  - apply Hh. auto.
Qed.

(** ** Reading forward *)

Lemma forward_ret {A} (a : A) : forward (cli_ret a).
Proof. intros s. split; [reflexivity|]. split; [reflexivity|discriminate]. Qed.

Lemma forward_raise_ValueError {A} : forward (@cli_raise A ValueError).
Proof. intros s. split; [reflexivity|]. split; [reflexivity|discriminate]. Qed.

Lemma forward_bind {A B} (m : Cli A) (k : A -> Cli B) :
  forward m -> (∀ a, forward (k a)) -> forward (m ≫= k).
Proof.
  intros Hm Hk s. specialize (Hm s).
  unfold mbind, Cli_bind, cli_bind. destruct (m s) as [[a|e] s']; simpl in *.
  - destruct (Hk a s') as (H1 & H2 & H3). destruct Hm as (H4 & H5 & _).
    split; [etrans; eassumption|]. split; [etrans; eassumption|exact H3].
  - destruct Hm as (H4 & H5 & H6). split; [exact H4|]. split; [exact H5|].
    intros [= ->]. apply H6. reflexivity.
Qed.

Lemma forward_core {A} (m : M A) : forward (core m).
Proof.
  intros s. unfold core.
  destruct (m (wld s)) as [[a|e] w]; (split; [reflexivity|]; split; [reflexivity|discriminate]).
Qed.

Lemma forward_write (text : string) : forward (write text).
Proof.
  intros s. split; [reflexivity|]. split; [|discriminate].
  simpl. apply prefix_app_r. reflexivity.
Qed.

Lemma forward_read_line : forward read_line.
Proof.
  intros s. unfold read_line.
  destruct (stdin (con s)) as [|line rest] eqn:E; simpl.
  - rewrite E. split; [reflexivity|]. split; [reflexivity|reflexivity].
  - split; [apply suffix_cons_r; reflexivity|]. split; [reflexivity|discriminate].
Qed.

Lemma forward_input (prompt : string) : forward (input prompt).
Proof. apply forward_bind; [apply forward_write|]. intros ?. apply forward_read_line. Qed.

Lemma forward_print (text : string) : forward (print text).
Proof. apply forward_bind; [apply forward_write|]. intros ?. apply forward_write. Qed.

Lemma forward_try {A} (body handler : Cli A) :
  forward body -> forward handler -> forward (try_except_ValueError body handler).
Proof.
  intros Hb Hh s. specialize (Hb s). unfold try_except_ValueError.
  destruct (body s) as [[a|e] s']; simpl in *; [exact Hb|].
  assert (Hhs : stdin (con (handler s').2) `suffix_of` stdin (con s) ∧
                stdout (con s) `prefix_of` stdout (con (handler s').2) ∧
                ((handler s').1 = Raises EOFError -> stdin (con (handler s').2) = [])).
  { destruct (Hh s') as (H1 & H2 & H3). destruct Hb as (H4 & H5 & _).
    split; [etrans; eassumption|]. split; [etrans; eassumption|exact H3]. }
  destruct e as [e| | |]; try exact Hb; [|exact Hhs].
  destruct e; try exact Hb. exact Hhs.
Qed.

(** What a computation that returns was followed by. *)
Lemma cli_bind_inv {A B} (m : Cli A) (k : A -> Cli B) (s s' : session) (b : B) :
  (m ≫= k) s = (Returns b, s') -> ∃ a s1, m s = (Returns a, s1) ∧ k a s1 = (Returns b, s').
Proof.
  unfold mbind, Cli_bind, cli_bind. destruct (m s) as [[a|e] s1]; [eauto|discriminate].
Qed.

(** [input] returns only when a line was there to read. *)
Lemma input_returns (prompt : string) (s s' : session) (line : string) :
  input prompt s = (Returns line, s') ->
  stdin (con s) = line :: stdin (con s') ∧ wld s' = wld s ∧
  stdout (con s') = stdout (con s) ++ [prompt].
Proof.
  unfold input, write, read_line, mbind, Cli_bind, cli_bind. simpl.
  destruct (stdin (con s)) as [|x rest]; [discriminate|].
  intros [= -> <-]. simpl. auto.
Qed.

(** ** What the loop keeps *)

Lemma heap_valid_insert (w : world) (l : loc) (t : Task) :
  heap_valid w -> valid_task t -> heap_valid (with_heap (<[l := t]> (heap w)) w).
Proof.
  intros Hv Ht l' t'. simpl. destruct (decide (l' = l)) as [->|Hne].
  - rewrite lookup_insert_eq. intros [= <-]. exact Ht.
  - rewrite lookup_insert_ne by done. apply Hv.
Qed.

Lemma cli_wf_heap (todo : loc) (w : world) (l : loc) (t : Task) :
  cli_wf todo w -> cli_wf todo (with_heap (<[l := t]> (heap w)) w).
Proof.
  intros (r & ts & Hs & Hr & Hnd & Hall). exists r, ts. repeat split; try assumption.
  intros x Hx. simpl. destruct (decide (x = l)) as [->|Hne].
  - rewrite lookup_insert_eq. eauto.
  - rewrite lookup_insert_ne by done. auto.
Qed.

Lemma cli_wf_new_list (todo : loc) (w : world) (ts' : list loc) :
  cli_wf todo w -> cli_wf todo (with_lists (<[fresh (dom (lists w)) := ts']> (lists w)) w).
Proof.
  intros (r & ts & Hs & Hr & Hnd & Hall). exists r, ts. repeat split; try assumption.
  simpl. rewrite lookup_insert_ne; [assumption|].
  intros <-. rewrite fresh_list in Hr. discriminate.
Qed.

Lemma cli_inv_heap (todo : loc) (w : world) (l : loc) (t : Task) :
  cli_inv todo w -> valid_task t -> cli_inv todo (with_heap (<[l := t]> (heap w)) w).
Proof. intros [Hwf Hv] Ht. split; [apply cli_wf_heap, Hwf|apply heap_valid_insert; assumption]. Qed.

Lemma cli_inv_new_list (todo : loc) (w : world) (ts' : list loc) :
  cli_inv todo w -> cli_inv todo (with_lists (<[fresh (dom (lists w)) := ts']> (lists w)) w).
Proof. intros [Hwf Hv]. split; [apply cli_wf_new_list, Hwf|exact Hv]. Qed.

Lemma cli_wf_tasks_of (todo : loc) (w : world) :
  cli_wf todo w -> ∃ tl, tasks_of w todo = Some tl.
Proof.
  intros (r & ts & Hs & Hr & _ & Hall). unfold tasks_of, refs_of.
  rewrite Hs. simpl. rewrite Hr. simpl.
  apply mapM_is_Some, Forall_forall. exact Hall.
Qed.

Section CliInvariant.

Variable strip : string -> string.
Variable lower : string -> string.
Variable int_of_str : string -> option Z.
Variable py_repr : value -> string.
Variable todo : loc.

Local Abbreviation J := (cli_inv todo).
Local Abbreviation never := (fun (_ : exn) (_ : world) => False).

Lemma spec_Task_init (v_title v_note v_assignee : value) (p : Z) :
  spec J (Task_init v_title v_note (VInt p) v_assignee)
    (fun task w => J w ∧ allocated task w ∧ absent todo task w) never.
Proof.
  intros w [Hwf Hv]. unfold Task_init. rewrite clamp_int. run.
  set (t := mkTask _ _ _ _ _ _). set (l := fresh (dom (heap w))).
  assert (Ht : valid_task t).
  { destruct (clamp_int_valid p) as (q & Hq & Hvq). rewrite clamp_int in Hq.
    injection Hq as <-. exact Hvq. }
  split; [|split].
  - destruct Hwf as (r & ts & Hs & Hr & Hnd & Hall). split.
    + exists r, ts. repeat split; try assumption. intros x Hx. simpl.
      destruct (decide (x = l)) as [->|Hne]; [rewrite lookup_insert_eq; eauto|].
      rewrite lookup_insert_ne by done. auto.
    + intros l' t'. simpl. destruct (decide (l' = l)) as [->|Hne].
      * rewrite lookup_insert_eq. intros [= <-]. exact Ht.
      * rewrite lookup_insert_ne by done. apply Hv.
  - unfold allocated. simpl. rewrite lookup_insert_eq. eauto.
  - intros r ts Hs Hr Hin. simpl in Hs, Hr.
    destruct Hwf as (r' & ts' & Hs' & Hr' & _ & Hall).
    rewrite Hs in Hs'. injection Hs' as <-. rewrite Hr in Hr'. injection Hr' as <-.
    destruct (Hall _ Hin) as [t' Ht']. unfold l in Ht'. rewrite fresh_heap in Ht'. discriminate.
Qed.

Lemma spec_add_task (task : loc) :
  spec (fun w => J w ∧ allocated task w ∧ absent todo task w) (add_task todo task)
    (fun _ w => J w ∧ allocated task w) never.
Proof.
  intros w ([Hwf Hv] & Hal & Hab). destruct Hwf as (r & ts & Hs & Hr & Hnd & Hall).
  rewrite (add_task_ok _ _ r _ ts Hs Hr). simpl. split; [split|exact Hal]; [|exact Hv].
  exists r, (ts ++ [task]). simpl. rewrite lookup_insert_eq. repeat split; try assumption.
  - apply NoDup_app. repeat split; [assumption| |apply NoDup_singleton].
    intros x Hx ->%list_elem_of_singleton. exact (Hab r ts Hs Hr Hx).
  - intros x [Hx| ->%list_elem_of_singleton]%elem_of_app; auto.
Qed.

Lemma spec_get_task (l : loc) :
  spec (fun w => J w ∧ allocated l w) (get_task l) (fun t w => J w ∧ valid_task t) never.
Proof.
  intros w (HJ & t & Ht). unfold get_task. rewrite Ht. simpl. split; [exact HJ|].
  destruct HJ as [_ Hv]. exact (Hv _ _ Ht).
Qed.

Lemma Task_str_valid (t : Task) : valid_task t -> ∃ text, Task_str py_repr t = Ok text.
Proof.
  intros Hv. unfold Task_str. unfold valid_task, valid_priority in Hv.
  destruct Hv as [-> | [-> | ->]]; simpl; eauto.
Qed.

Lemma hoare_print_task (label : string) (l : loc) (E : cli_exn -> world -> Prop) :
  hoare (fun w => J w ∧ allocated l w) (print_task py_repr label l) (fun _ => J) E.
Proof.
  unfold print_task.
  eapply hoare_bind; [apply hoare_write|]. intros ?.
  eapply hoare_bind; [apply hoare_write|]. intros ?.
  eapply hoare_bind; [eapply hoare_core; [apply spec_get_task|contradiction]|]. intros t.
  intros s [HJ Ht]. destruct (Task_str_valid t Ht) as [text Htext].
  unfold mbind, Cli_bind, cli_bind, core, lift. rewrite Htext. simpl. exact HJ.
Qed.

Lemma hoare_print_numbered (tasks : list loc) (i : nat) (E : cli_exn -> world -> Prop) :
  hoare (fun w => J w ∧ Forall (fun l => allocated l w) tasks) (print_numbered py_repr i tasks)
    (fun _ => J) E.
Proof.
  revert i. induction tasks as [|l tasks IH]; intros i.
  - apply hoare_ret. tauto.
  - intros s [HJ Hall]. apply Forall_cons in Hall as [[t Ht] Hall].
    destruct (Task_str_valid t (proj2 HJ _ _ Ht)) as [text Htext].
    simpl. unfold mbind, Cli_bind, cli_bind, core, lift, get_task. rewrite Ht. simpl.
    rewrite Htext. simpl. apply IH. simpl. auto.
Qed.

Lemma spec_get_tasks (show_completed : bool) :
  spec J (get_tasks todo show_completed)
    (fun r w => J w ∧ ∃ tasks, lists w !! r = Some tasks ∧ Forall (fun l => allocated l w) tasks)
    never.
Proof.
  intros w HJ. pose proof HJ as [(r & ts & Hs & Hr & Hnd & Hall) Hv].
  destruct show_completed.
  - rewrite (get_tasks_all_ok _ _ r ts Hs Hr). simpl. split; [apply cli_inv_new_list, HJ|].
    exists ts. rewrite lookup_insert_eq. split; [reflexivity|].
    apply Forall_forall. exact Hall.
  - rewrite (get_tasks_pending_ok _ _ r ts Hs Hr Hall). simpl.
    split; [apply cli_inv_new_list, HJ|].
    exists (filter (is_pending w) ts). rewrite lookup_insert_eq. split; [reflexivity|].
    apply Forall_forall. intros x [_ Hx]%list_elem_of_filter. exact (Hall x Hx).
Qed.

Lemma spec_get_list (r : loc) (R : list loc -> world -> Prop) :
  spec (fun w => J w ∧ ∃ tasks, lists w !! r = Some tasks ∧ R tasks w) (get_list r)
    (fun tasks w => J w ∧ R tasks w) never.
Proof.
  intros w (HJ & tasks & Hr & HR). unfold get_list. rewrite Hr. simpl. auto.
Qed.

Lemma hoare_show_tasks (show_completed : bool) (E : cli_exn -> world -> Prop) :
  hoare J (show_tasks py_repr todo show_completed) (fun _ => J) E.
Proof.
  unfold show_tasks.
  eapply hoare_bind; [eapply hoare_core; [apply spec_get_tasks|contradiction]|]. intros r.
  eapply hoare_bind;
    [eapply hoare_core;
       [apply (spec_get_list r (fun tasks w => Forall (fun l => allocated l w) tasks))
       |contradiction]|].
  intros tasks. simpl. case_bool_decide.
  - eapply hoare_conseq; [apply (hoare_print J)| | |]; simpl; try tauto. intros ? ? HE; exact HE.
  - apply hoare_print_numbered.
Qed.

(** The exceptions a [try] of the loop lets through or catches, and
    those that leave the loop. *)
Local Abbreviation in_try := (fun (e : cli_exn) (w : world) => (e = EOFError ∨ e = ValueError) ∧ J w).
Local Abbreviation at_end := (fun (e : cli_exn) (w : world) => e = EOFError ∧ J w).

Lemma hoare_py_int (P : world -> Prop) (text : string) (E : cli_exn -> world -> Prop) :
  (∀ w, P w -> E ValueError w) -> hoare P (py_int int_of_str text) (fun _ => P) E.
Proof. intros HE s Hs. unfold py_int. destruct (int_of_str text); simpl; auto. Qed.

Lemma hoare_tasks_index (x : loc) (E : cli_exn -> world -> Prop) :
  (∀ w, J w -> E ValueError w) ->
  hoare J (tasks_index todo x) (fun j w => J w ∧ valid_index todo j w) E.
Proof.
  intros HE s HJ. pose proof HJ as [(r & ts & Hs & Hr & Hnd & Hall) Hv].
  unfold tasks_index, store_list, core, get_tasks_attr, get_list, mbind, Cli_bind, cli_bind.
  rewrite Hs. simpl. rewrite Hr. simpl.
  destruct (list_index ts x) as [j|] eqn:Hj; simpl; [|auto].
  split; [exact HJ|]. exists r, ts. repeat split; try assumption; [lia|].
  apply list_index_Some in Hj as [Hj _]. apply lookup_lt_Some in Hj. lia.
Qed.

Lemma hoare_tasks_item (j : Z) (E : cli_exn -> world -> Prop) :
  hoare (fun w => J w ∧ valid_index todo j w) (tasks_item todo j)
    (fun t w => J w ∧ valid_index todo j w ∧ allocated t w) E.
Proof.
  intros s [HJ Hj]. pose proof HJ as [(r & ts & Hs & Hr & Hnd & Hall) Hv].
  destruct Hj as (r' & ts' & Hs' & Hr' & Hj).
  rewrite Hs in Hs'. injection Hs' as <-. rewrite Hr in Hr'. injection Hr' as <-.
  unfold tasks_item, store_list, core, get_tasks_attr, get_list, mbind, Cli_bind, cli_bind.
  rewrite Hs. simpl. rewrite Hr. simpl.
  unfold lift, list_getitem, py_position. rewrite bool_decide_eq_true_2 by exact Hj. simpl.
  destruct (lookup_lt_is_Some_2 ts (Z.to_nat j)) as [x Hx]; [lia|]. rewrite Hx. simpl.
  split; [exact HJ|]. split; [exists r, ts; auto|].
  apply Hall. eapply list_elem_of_lookup_2, Hx.
Qed.

Lemma spec_set_done (v : value) (t : loc) (j : Z) :
  spec (fun w => J w ∧ valid_index todo j w ∧ allocated t w) (update_task (set_done v) t)
    (fun _ w => J w ∧ valid_index todo j w) never.
Proof.
  intros w (HJ & Hj & t0 & Ht). rewrite (update_task_ok _ _ t0 _ Ht). simpl. split.
  - apply cli_inv_heap; [exact HJ|]. destruct HJ as [_ Hv]. specialize (Hv _ _ Ht).
    destruct t0; exact Hv.
  - destruct Hj as (r & ts & Hs & Hr & Hj). exists r, ts. auto.
Qed.

Lemma spec_edit_task (j : Z) (v_title v_note v_priority v_assignee : value) :
  v_priority = VNone ∨ (∃ p, v_priority = VInt p) ->
  spec (fun w => J w ∧ valid_index todo j w)
    (edit_task todo j v_title v_note v_priority v_assignee)
    (fun _ w => J w ∧ valid_index todo j w) never.
Proof.
  intros Hp w [HJ Hj]. pose proof HJ as [(r & ts & Hs & Hr & Hnd & Hall) Hv].
  destruct Hj as (r' & ts' & Hs' & Hr' & Hj).
  rewrite Hs in Hs'. injection Hs' as <-. rewrite Hr in Hr'. injection Hr' as <-.
  destruct (lookup_lt_is_Some_2 ts (Z.to_nat j)) as [l Hl]; [lia|].
  destruct (Hall l) as [t Ht]; [eapply list_elem_of_lookup_2, Hl|].
  rewrite (edit_task_in_range _ _ r ts _ _ _ _ _ l t Hs Hr (proj1 Hj) Hl Ht Hp). simpl. split.
  - apply cli_inv_heap; [exact HJ|]. unfold valid_task. simpl.
    destruct Hp as [-> | [p ->]]; [exact (Hv _ _ Ht)|].
    destruct (clamp_int_valid p) as (q & Hq & Hvq). rewrite clamp_int in Hq.
    injection Hq as <-. exact Hvq.
  - exists r, ts. auto.
Qed.

Lemma spec_remove_task (j : Z) (t : loc) :
  spec (fun w => J w ∧ valid_index todo j w ∧ allocated t w) (remove_task todo j)
    (fun _ w => J w ∧ allocated t w) never.
Proof.
  intros w (HJ & Hj & Ht). pose proof HJ as [(r & ts & Hs & Hr & Hnd & Hall) Hv].
  destruct Hj as (r' & ts' & Hs' & Hr' & Hj).
  rewrite Hs in Hs'. injection Hs' as <-. rewrite Hr in Hr'. injection Hr' as <-.
  rewrite (remove_task_ok _ _ r ts _ Hs Hr Hj). simpl. split; [split|exact Ht]; [|exact Hv].
  exists r, (delete (Z.to_nat j) ts). simpl. rewrite lookup_insert_eq.
  repeat split; try assumption.
  - eapply sublist_NoDup; [exact Hnd|apply sublist_delete].
  - intros x Hx. apply Hall. eapply elem_of_sublist; [exact Hx|apply sublist_delete].
Qed.

Lemma spec_save :
  spec J (save todo tasks_json) (fun _ w => J w ∧ saved todo w) never.
Proof.
  intros w HJ. pose proof HJ as [Hwf Hv].
  destruct (cli_wf_tasks_of _ _ Hwf) as [tl Htl].
  rewrite (save_ok _ _ _ tl Htl). simpl. split.
  - split; [|exact Hv]. destruct Hwf as (r & ts & Hs & Hr & Hnd & Hall). exists r, ts. auto.
  - exists tl. split; [exact Htl|]. simpl. apply lookup_insert_eq.
Qed.

Ltac hoare_core_step L :=
  eapply hoare_bind; [eapply hoare_core; [apply L|contradiction]|].

Ltac hoare_input_step :=
  eapply hoare_bind; [apply hoare_input; tauto|]; intros ?.

Lemma hoare_cmd_add : hoare J (cmd_add strip int_of_str py_repr todo) (fun _ => J) at_end.
Proof.
  unfold cmd_add. do 4 hoare_input_step.
  hoare_core_step spec_Task_init. intros task.
  hoare_core_step spec_add_task. intros ?.
  apply hoare_print_task.
Qed.

(** The part the four branches that take an index share. *)
Lemma hoare_choose (prompt message : string) (body : Z -> Cli unit) :
  (∀ j, hoare (fun w => J w ∧ valid_index todo j w) (body j) (fun _ => J) in_try) ->
  hoare J
    (l_idx ← input prompt;
     try_except_ValueError
       (i ← py_int int_of_str (strip l_idx);
        r ← core (get_tasks todo true);
        tasks ← core (get_list r);
        if bool_decide (0 <= i < Z.of_nat (length tasks)) then
          x ← core (lift (list_getitem tasks i));
          master_index ← tasks_index todo x;
          body master_index
        else print "Invalid index.")
       (print message))
    (fun _ => J) at_end.
Proof.
  intros Hbody. hoare_input_step.
  eapply hoare_try with (E' := in_try).
  - eapply hoare_bind; [apply hoare_py_int; tauto|]. intros i.
    hoare_core_step (spec_get_tasks true). intros r.
    eapply hoare_bind;
      [eapply hoare_core;
         [apply (spec_get_list r (fun tasks w => Forall (fun l => allocated l w) tasks))
         |contradiction]|].
    intros tasks. simpl. case_bool_decide as Hi.
    + eapply hoare_bind with (Q := fun _ => J).
      { intros s [HJ _]. unfold core, lift, list_getitem, py_position.
        rewrite bool_decide_eq_true_2 by exact Hi. simpl.
        destruct (lookup_lt_is_Some_2 tasks (Z.to_nat i)) as [x Hx]; [lia|].
        rewrite Hx. exact HJ. }
      intros x. eapply hoare_bind; [apply hoare_tasks_index; tauto|]. intros j. apply Hbody.
    + eapply hoare_pre; [|apply hoare_print]. simpl. tauto.
  - eapply hoare_pre; [|apply hoare_print]. simpl. tauto.
  - intros e w0 [[->| ->] HJ] H1 H2; [auto|contradiction].
Qed.


Lemma hoare_mark (label : string) (v : value) (j : Z) :
  hoare (fun w => J w ∧ valid_index todo j w)
    (t ← tasks_item todo j;
     _ ← core (update_task (set_done v) t);
     t' ← tasks_item todo j;
     print_task py_repr label t')
    (fun _ => J) in_try.
Proof.
  eapply hoare_bind; [apply hoare_tasks_item|]. intros t.
  hoare_core_step spec_set_done. intros ?.
  eapply hoare_bind; [apply hoare_tasks_item|]. intros t'.
  eapply hoare_pre; [|apply hoare_print_task]. simpl. tauto.
Qed.

Lemma hoare_cmd_done : hoare J (cmd_done strip int_of_str py_repr todo) (fun _ => J) at_end.
Proof. apply hoare_choose. intros j. apply hoare_mark. Qed.

Lemma hoare_cmd_undone : hoare J (cmd_undone strip int_of_str py_repr todo) (fun _ => J) at_end.
Proof. apply hoare_choose. intros j. apply hoare_mark. Qed.

Lemma hoare_cmd_remove : hoare J (cmd_remove strip int_of_str py_repr todo) (fun _ => J) at_end.
Proof.
  apply hoare_choose. intros j.
  eapply hoare_bind; [apply hoare_tasks_item|]. intros t.
  hoare_core_step spec_remove_task. intros ?.
  apply hoare_print_task.
Qed.

Lemma hoare_cmd_edit : hoare J (cmd_edit strip int_of_str py_repr todo) (fun _ => J) at_end.
Proof.
  apply hoare_choose. intros j.
  eapply hoare_bind; [apply hoare_input; tauto|]. intros l_title.
  eapply hoare_bind; [apply hoare_input; tauto|]. intros l_note.
  eapply hoare_bind; [apply hoare_input; tauto|]. intros l_pr.
  eapply hoare_bind; [apply hoare_input; tauto|]. intros l_assignee.
  eapply hoare_bind with
    (Q := fun v w => (v = VNone ∨ (∃ p, v = VInt p)) ∧ J w ∧ valid_index todo j w).
  { case_bool_decide.
    - apply hoare_ret. auto.
    - eapply hoare_bind; [apply hoare_py_int; tauto|]. intros z. apply hoare_ret. eauto. }
  intros v s [Hv HP]. revert s HP.
  change (hoare (fun w => J w ∧ valid_index todo j w)
            (_ ← core (edit_task todo j (none_if_blank l_title) (none_if_blank l_note) v
                         (none_if_blank l_assignee));
             t ← tasks_item todo j;
             print_task py_repr "Edited:" t)
            (fun _ => J) in_try).
  hoare_core_step
    (spec_edit_task j (none_if_blank l_title) (none_if_blank l_note) v
       (none_if_blank l_assignee) Hv).
  intros ?.
  eapply hoare_bind; [apply hoare_tasks_item|]. intros t.
  eapply hoare_pre; [|apply hoare_print_task]. simpl. tauto.
Qed.

(** One turn of the loop keeps the invariant, whatever it reads; it is
    left only at the end of the input; after [exit] the file holds the
    tasks. *)
Lemma hoare_iteration :
  hoare J (iteration strip lower int_of_str py_repr todo)
    (fun stop w => J w ∧ (stop = true -> saved todo w)) at_end.
Proof.
  unfold iteration.
  eapply hoare_bind; [apply hoare_print|]. intros ?.
  hoare_input_step.
  assert (Hcont : ∀ m : Cli unit, hoare J m (fun _ => J) at_end ->
            hoare J (_ ← m; cli_ret false) (fun stop w => J w ∧ (stop = true -> saved todo w))
              at_end).
  { intros m Hm. eapply hoare_bind; [exact Hm|]. intros ?. apply hoare_ret.
    intros w HJ. split; [exact HJ|discriminate]. }
  repeat case_bool_decide.
  - apply Hcont, hoare_cmd_add.
  - apply Hcont, hoare_show_tasks.
  - apply Hcont, hoare_show_tasks.
  - apply Hcont, hoare_cmd_done.
  - apply Hcont, hoare_cmd_undone.
  - apply Hcont, hoare_cmd_edit.
  - apply Hcont, hoare_cmd_remove.
  - hoare_core_step spec_save. intros ?.
    eapply hoare_bind; [apply hoare_print|]. intros ?. apply hoare_ret.
    intros w HJ. split; [tauto|discriminate].
  - hoare_core_step spec_save. intros ?.
    eapply hoare_bind; [apply hoare_print|]. intros ?. apply hoare_ret.
    intros w HJ. split; tauto.
  - apply Hcont, hoare_print.
Qed.

End CliInvariant.

(** ** The loop ends *)

Section CliForward.

Variable strip : string -> string.
Variable lower : string -> string.
Variable int_of_str : string -> option Z.
Variable py_repr : value -> string.
Variable todo : loc.

Lemma forward_py_int (text : string) : forward (py_int int_of_str text).
Proof. unfold py_int. destruct (int_of_str text); [apply forward_ret|apply forward_raise_ValueError]. Qed.

Lemma forward_print_task (label : string) (t : loc) : forward (print_task py_repr label t).
Proof.
  unfold print_task.
  repeat (apply forward_bind; [first [apply forward_write|apply forward_core]|intros ?]).
  apply forward_write.
Qed.

Lemma forward_store_list : forward (store_list todo).
Proof. apply forward_bind; [apply forward_core|intros ?; apply forward_core]. Qed.

Lemma forward_tasks_index (x : loc) : forward (tasks_index todo x).
Proof.
  apply forward_bind; [apply forward_store_list|]. intros ts.
  destruct (list_index ts x); [apply forward_ret|apply forward_raise_ValueError].
Qed.

Lemma forward_tasks_item (j : Z) : forward (tasks_item todo j).
Proof. apply forward_bind; [apply forward_store_list|intros ?; apply forward_core]. Qed.

Lemma forward_print_numbered (tasks : list loc) (i : nat) :
  forward (print_numbered py_repr i tasks).
Proof.
  revert i. induction tasks as [|t tasks IH]; intros i; [apply forward_ret|].
  simpl. do 2 (apply forward_bind; [apply forward_core|intros ?]).
  apply forward_bind; [apply forward_print|]. intros ?. apply IH.
Qed.

Ltac forward_steps :=
  repeat first
    [ apply forward_ret | apply forward_raise_ValueError | apply forward_core | apply forward_write
    | apply forward_print | apply forward_input | apply forward_py_int
    | apply forward_print_task | apply forward_tasks_index | apply forward_tasks_item
    | apply forward_print_numbered
    | apply forward_try
    | apply forward_bind; [|intros ?]
    | case_bool_decide ].

Lemma forward_show_tasks (show_completed : bool) :
  forward (show_tasks py_repr todo show_completed).
Proof. unfold show_tasks. forward_steps. Qed.

Lemma forward_cmd_add : forward (cmd_add strip int_of_str py_repr todo).
Proof. unfold cmd_add. forward_steps. Qed.

Lemma forward_cmd_done : forward (cmd_done strip int_of_str py_repr todo).
Proof. unfold cmd_done. forward_steps. Qed.

Lemma forward_cmd_undone : forward (cmd_undone strip int_of_str py_repr todo).
Proof. unfold cmd_undone. forward_steps. Qed.

Lemma forward_cmd_edit : forward (cmd_edit strip int_of_str py_repr todo).
Proof. unfold cmd_edit. forward_steps. Qed.

Lemma forward_cmd_remove : forward (cmd_remove strip int_of_str py_repr todo).
Proof. unfold cmd_remove. forward_steps. Qed.

(** A turn is the menu, the prompt and [dispatch]. *)
Lemma iteration_shape :
  iteration strip lower int_of_str py_repr todo
  = (_ ← print (newline +:+
                "Commands: add, list, list_pending, done, undone, edit, remove, save, exit");
     l_cmd ← input "Enter command: ";
     dispatch strip lower int_of_str py_repr todo l_cmd).
Proof. reflexivity. Qed.

Lemma forward_dispatch (l_cmd : string) :
  forward (dispatch strip lower int_of_str py_repr todo l_cmd).
Proof.
  unfold dispatch. simpl. repeat case_bool_decide;
    repeat first
      [ apply forward_ret | apply forward_core | apply forward_print
      | apply forward_cmd_add | apply forward_show_tasks | apply forward_cmd_done
      | apply forward_cmd_undone | apply forward_cmd_edit | apply forward_cmd_remove
      | apply forward_bind; [|intros ?] ].
Qed.

(** A turn stops at the prompt, at the end of the input, or goes on
    with the line it read there. *)
Lemma iteration_inv (s s' : session) (r : cli_result bool) :
  iteration strip lower int_of_str py_repr todo s = (r, s') ->
  (r = Raises EOFError ∧ stdin (con s') = []) ∨
  (∃ line s1, stdin (con s) = line :: stdin (con s1) ∧
              dispatch strip lower int_of_str py_repr todo line s1 = (r, s')).
Proof.
  rewrite iteration_shape.
  unfold mbind at 1, Cli_bind at 1, cli_bind at 1. simpl.
  unfold mbind at 1, Cli_bind at 1, cli_bind at 1.
  unfold input at 1, mbind at 1, Cli_bind at 1, cli_bind at 1, write, read_line. simpl.
  destruct (stdin (con s)) as [|line rest] eqn:Hin.
  - intros [= <- <-]. left. simpl. auto.
  - intros H. right. eexists line, _. split; [|exact H]. reflexivity.
Qed.

(** Only the branch [exit] ends the loop, and it reads nothing more. *)
Lemma dispatch_stops (line : string) (s1 s' : session) :
  dispatch strip lower int_of_str py_repr todo line s1 = (Returns true, s') ->
  lower (strip line) = "exit" ∧ stdin (con s') = stdin (con s1).
Proof.
  assert (Hret : ∀ (m : Cli unit) (s2 : session),
            (_ ← m; cli_ret false) s2 = (Returns true, s') -> False).
  { intros m s2 (a & s3 & _ & H)%cli_bind_inv. discriminate H. }
  unfold dispatch. simpl.
  repeat (case_bool_decide as Hc; [intros []%Hret|clear Hc]).
  case_bool_decide as Hsave.
  { intros (a & s2 & _ & H)%cli_bind_inv. destruct (Hret _ _ H). }
  case_bool_decide as Hexit; [|intros []%Hret].
  intros (a & s2 & Hsv & H)%cli_bind_inv. split; [exact Hexit|].
  apply cli_bind_inv in H as (b & s3 & Hpr & H). injection H as Hs3.
  unfold core in Hsv. destruct (save todo tasks_json (wld s1)) as [[[]|e] w]; [|discriminate].
  injection Hsv as Hs2. unfold print, write, mbind, Cli_bind, cli_bind in Hpr.
  injection Hpr as Hpr. subst. reflexivity.
Qed.

(** With more turns allowed than there are lines to read, the loop is
    never cut short.  It returns only when the last line it read is the
    command [exit], and then the tasks are saved; otherwise it stops
    with [EOFError], every line read. *)
Lemma cli_loop_total (fuel : nat) (s : session) :
  cli_inv todo (wld s) -> (pending_input s < fuel)%nat ->
  match (cli_loop strip lower int_of_str py_repr fuel todo s).1 with
  | Returns _ => cli_inv todo (wld (cli_loop strip lower int_of_str py_repr fuel todo s).2) ∧
                 saved todo (wld (cli_loop strip lower int_of_str py_repr fuel todo s).2) ∧
                 ends_with_exit strip lower s
                   (cli_loop strip lower int_of_str py_repr fuel todo s).2
  | Raises e => e = EOFError ∧
                cli_inv todo (wld (cli_loop strip lower int_of_str py_repr fuel todo s).2) ∧
                stdin (con (cli_loop strip lower int_of_str py_repr fuel todo s).2) = []
  end.
Proof.
  revert s. induction fuel as [|fuel IH]; intros s HJ Hlt; [lia|].
  simpl. unfold mbind, Cli_bind, cli_bind.
  pose proof (hoare_iteration strip lower int_of_str py_repr todo s HJ) as Hit.
  destruct (iteration strip lower int_of_str py_repr todo s) as [[stop|e] s1] eqn:E;
    simpl in Hit.
  - destruct Hit as [HJ1 Hsaved].
    destruct (iteration_inv _ _ _ E) as [[Hr _] | (line & s0 & Hin & Hd)]; [discriminate|].
    destruct stop; simpl.
    + destruct (dispatch_stops _ _ _ Hd) as [Hexit Hsame].
      split; [exact HJ1|]. split; [auto|].
      exists [], line. rewrite Hsame. auto.
    + destruct (forward_dispatch line s0) as ([pre Hpre] & _). rewrite Hd in Hpre.
      simpl in Hpre.
      assert (Hlt1 : (pending_input s1 < fuel)%nat).
      { unfold pending_input in *. rewrite Hin, Hpre in Hlt. simpl in Hlt.
        rewrite length_app in Hlt. lia. }
      specialize (IH s1 HJ1 Hlt1).
      destruct (cli_loop strip lower int_of_str py_repr fuel todo s1) as [[[]|e] s2];
        simpl in *; [|exact IH].
      destruct IH as (HJ2 & Hsv & consumed & line' & Hc & Hexit).
      split; [exact HJ2|]. split; [exact Hsv|].
      exists (line :: pre ++ consumed), line'. split; [|exact Hexit].
      rewrite Hin, Hpre, Hc. simpl. rewrite <- app_assoc. reflexivity.
  - destruct Hit as [-> HJ1]. split; [reflexivity|]. split; [exact HJ1|].
    destruct (iteration_inv _ _ _ E) as [[_ Hend] | (line & s0 & Hin & Hd)]; [exact Hend|].
    destruct (forward_dispatch line s0) as (_ & _ & Hend). rewrite Hd in Hend.
    apply Hend. reflexivity.
Qed.

End CliForward.

(** ** The program as a whole *)

Lemma ToDoList_init_ok (w : world) :
  ToDoList_init w
  = (Ok (fresh (dom (stores w))),
     with_stores (<[fresh (dom (stores w)) := fresh (dom (lists w))]> (stores w))
       (with_lists (<[fresh (dom (lists w)) := []]> (lists w)) w)).
Proof. reflexivity. Qed.

(** The file of the loop is absent, or holds a document [load] accepts. *)
Lemma startup_ok (w : world) :
  heap_valid w -> int_priority_files w ->
  files w !! tasks_json = None ∨
  (∃ data items, files w !! tasks_json = Some (Json data) ∧ py_iter data = Ok items ∧
                 Forall loadable items) ->
  ∃ w0 w1, ToDoList_init w = (Ok (fresh (dom (stores w))), w0) ∧
           load (fresh (dom (stores w))) tasks_json w0 = (Ok tt, w1) ∧
           cli_inv (fresh (dom (stores w))) w1.
Proof.
  intros Hv Hf Hfile. rewrite ToDoList_init_ok.
  set (todo := fresh (dom (stores w))).
  set (w0 := with_stores _ _).
  assert (Hs0 : stores w0 !! todo = Some (fresh (dom (lists w)))) by apply lookup_insert_eq.
  assert (Hinv0 : inv is_int valid_priority w0) by (split; assumption).
  pose proof (triple_load is_int valid_priority clamp_is_int_valid
                (ex_intro _ 2 eq_refl) todo tasks_json w0 Hinv0) as [[Hv1 _] _].
  destruct Hfile as [Hnone | (data & items & Hdata & Hit & Hld)].
  - assert (Hload : load todo tasks_json w0
              = (Ok tt, with_stores (<[todo := fresh (dom (lists w0))]> (stores w0))
                          (with_lists (<[fresh (dom (lists w0)) := []]> (lists w0)) w0))).
    { unfold load, try_except_FileNotFoundError, json_load, new_list, set_tasks_attr. run.
      rewrite Hnone. simpl. rewrite lookup_insert_eq. reflexivity. }
    rewrite Hload in Hv1. exists w0. eexists. split; [reflexivity|]. split; [exact Hload|].
    split; [|exact Hv1].
    exists (fresh (dom (lists w0))), []. simpl. rewrite !lookup_insert_eq.
    repeat split; [constructor|]. intros l Hl. inversion Hl.
  - change (files w !! tasks_json) with (files w0 !! tasks_json) in Hdata.
    pose proof (load_json w0 todo _ tasks_json data items Hs0 Hdata Hit) as Hload.
    destruct (for_each_from_dict_loadable items w0 Hld) as (ls & w' & Hfe).
    rewrite Hfe in Hload.
    destruct (for_each_from_dict_ok _ _ _ _ Hfe) as (_ & Hnd & _ & Hfresh & _).
    rewrite Hload in Hv1. exists w0. eexists. split; [reflexivity|]. split; [exact Hload|].
    split; [|exact Hv1].
    exists (fresh (dom (lists w'))), ls. simpl. rewrite !lookup_insert_eq.
    repeat split; try assumption. intros l Hl. apply (Hfresh l Hl).
Qed.

(** X16.  Started where every task has its priority in {1, 2, 3} and
    the files hold integer priorities, with no file [tasks.json] or
    with one [load] accepts, and given more turns than there are lines
    to read, the program stops in one of two ways, whatever the lines
    are and whatever [strip], [lower] and [int] do.  It returns only
    when the last line it read is the command [exit], and then the
    tasks of its store are written to [tasks.json]; or it raises
    [EOFError], every line of the input read.  No other exception
    leaves it.  When it stops, either way, the store holds no task
    twice and every priority is 1, 2 or 3. *)
Theorem demo_cli_total (strip lower : string -> string) (int_of_str : string -> option Z)
    (py_repr : value -> string) (fuel : nat) (s : session) :
  heap_valid (wld s) -> int_priority_files (wld s) ->
  files (wld s) !! tasks_json = None ∨
  (∃ data items, files (wld s) !! tasks_json = Some (Json data) ∧ py_iter data = Ok items ∧
                 Forall loadable items) ->
  (pending_input s < fuel)%nat ->
  match (demo_cli strip lower int_of_str py_repr fuel s).1 with
  | Returns _ =>
      cli_inv (fresh (dom (stores (wld s))))
        (wld (demo_cli strip lower int_of_str py_repr fuel s).2) ∧
      saved (fresh (dom (stores (wld s))))
        (wld (demo_cli strip lower int_of_str py_repr fuel s).2) ∧
      ends_with_exit strip lower s (demo_cli strip lower int_of_str py_repr fuel s).2
  | Raises e =>
      e = EOFError ∧
      cli_inv (fresh (dom (stores (wld s))))
        (wld (demo_cli strip lower int_of_str py_repr fuel s).2) ∧
      stdin (con (demo_cli strip lower int_of_str py_repr fuel s).2) = []
  end.
Proof.
  intros Hv Hf Hfile Hfuel.
  destruct (startup_ok (wld s) Hv Hf Hfile) as (w0 & w1 & Hinit & Hload & HJ).
  unfold demo_cli, mbind, Cli_bind, cli_bind, core. rewrite Hinit. simpl.
  rewrite Hload.
  apply (cli_loop_total strip lower int_of_str py_repr (fresh (dom (stores (wld s)))) fuel
           (mkSession (con s) w1)); [exact HJ|exact Hfuel].
Qed.

(** X17.  Started with a file [tasks.json] that [load] does not read as
    a list of tasks (it is not a JSON document, or it holds a document
    [load] does not accept), the program stops with the exception [load]
    raises, before it has written or read anything, and leaves the file
    as it is.  For a document [load] does not accept the exception is
    [KeyError] or [TypeError]. *)
Theorem demo_cli_bad_file (strip lower : string -> string) (int_of_str : string -> option Z)
    (py_repr : value -> string) (fuel : nat) (s : session) (c : file) :
  files (wld s) !! tasks_json = Some c ->
  c = Corrupt ∨
  (∃ data, c = Json data ∧ ¬ ∃ items, py_iter data = Ok items ∧ Forall loadable items) ->
  ∃ e w', demo_cli strip lower int_of_str py_repr fuel s
          = (Raises (Core e), mkSession (con s) w') ∧
          load (fresh (dom (stores (wld s)))) tasks_json (ToDoList_init (wld s)).2
          = (Raise e, w') ∧
          (∀ data, c = Json data -> e = KeyError ∨ e = TypeError) ∧
          files w' = files (wld s).
Proof.
  intros Hfile Hbad. rewrite ToDoList_init_ok.
  set (todo := fresh (dom (stores (wld s)))). set (w0 := with_stores _ _).
  assert (Hload : ∃ e w', load todo tasks_json w0 = (Raise e, w') ∧
            (∀ data, c = Json data -> e = KeyError ∨ e = TypeError) ∧
            files w' = files (wld s)).
  { assert (Hs0 : stores w0 !! todo = Some (fresh (dom (lists (wld s)))))
      by apply lookup_insert_eq.
    assert (Hfile0 : files w0 !! tasks_json = Some c) by exact Hfile.
    change (files (wld s)) with (files w0).
    destruct Hbad as [-> | (data & -> & Hno)].
    - exists JSONDecodeError, w0. split; [|split; [discriminate|reflexivity]].
      unfold load, try_except_FileNotFoundError, json_load. run. rewrite Hfile. reflexivity.
    - destruct (py_iter data) as [items|e0] eqn:Hit.
      + rewrite (load_json w0 todo _ tasks_json data items Hs0 Hfile0 Hit).
        destruct (for_each_from_dict_extends items w0) as (o & w1 & E & Hx & He).
        rewrite E. destruct o as [ls|e].
        * destruct Hno. exists items. split; [reflexivity|].
          apply (for_each_from_dict_ok _ _ _ _ E).
        * exists e, w1. split; [reflexivity|]. destruct Hx as (_ & _ & Hf & _).
          split; [intros _ _; exact (He e eq_refl)|exact Hf].
      + rewrite (load_not_iterable w0 todo tasks_json data e0 Hfile0 Hit).
        exists TypeError, w0. split; [reflexivity|]. split; auto. }
  destruct Hload as (e & w' & Hrun & He & Hf). exists e, w'.
  split; [|auto]. unfold demo_cli, mbind, Cli_bind, cli_bind, core.
  rewrite ToDoList_init_ok. simpl. fold todo w0. rewrite Hrun. reflexivity.
Qed.

(** ** From one run to the next *)

(** X18.  What [exit] saves is what the next run starts with: where
    every task has its priority in {1, 2, 3}, the files hold integer
    priorities and [tasks.json] holds the tasks of a store,
    [ToDoList()] followed by [load] gives a new store that holds task
    objects with the same attributes, in the same order; the loop can
    run on it, and the former store holds what it held. *)
Theorem restart_restores_tasks (todo : loc) (w : world) (tl : list Task) :
  heap_valid w -> int_priority_files w ->
  tasks_of w todo = Some tl ->
  files w !! tasks_json = Some (Json (VList (to_dict <$> tl))) ->
  ∃ w0 w1, ToDoList_init w = (Ok (fresh (dom (stores w))), w0) ∧
           load (fresh (dom (stores w))) tasks_json w0 = (Ok tt, w1) ∧
           tasks_of w1 (fresh (dom (stores w))) = Some tl ∧
           cli_inv (fresh (dom (stores w))) w1 ∧
           tasks_of w1 todo = Some tl.
Proof.
  intros Hv Hf Htl Hfile. rewrite ToDoList_init_ok.
  set (new := fresh (dom (stores w))).
  set (w0 := with_stores _ _).
  assert (Hs0 : stores w0 !! new = Some (fresh (dom (lists w)))) by apply lookup_insert_eq.
  assert (Hfile0 : files w0 !! tasks_json = Some (Json (VList (to_dict <$> tl)))) by exact Hfile.
  assert (Hinv0 : inv is_int valid_priority w0) by (split; assumption).
  pose proof (triple_load is_int valid_priority clamp_is_int_valid
                (ex_intro _ 2 eq_refl) new tasks_json w0 Hinv0) as [[Hv1 _] _].
  assert (Hstable : Forall (fun t => stable_priority (priority t)) tl).
  { apply (tasks_of_stable w todo); [|exact Htl].
    intros l t Hl. apply clamp_valid, (Hv l t Hl). }
  destruct (for_each_from_dict_to_dict tl w0 Hstable) as (ls & w' & Hfe & Hx & Hls).
  pose proof (load_json w0 new _ tasks_json _ _ Hs0 Hfile0 eq_refl) as Hload.
  rewrite Hfe in Hload. rewrite Hload in Hv1.
  destruct (for_each_from_dict_ok _ _ _ _ Hfe) as (_ & Hnd & _ & Hfresh & _).
  exists w0. eexists. split; [reflexivity|]. split; [exact Hload|].
  destruct Hx as (Hst & Hli & _ & _ & Hh).
  split; [|split].
  - unfold tasks_of, refs_of. simpl. rewrite lookup_insert_eq. simpl.
    rewrite lookup_insert_eq. exact Hls.
  - split; [|exact Hv1].
    exists (fresh (dom (lists w'))), ls. simpl. rewrite !lookup_insert_eq.
    repeat split; try assumption. intros l Hl. apply (Hfresh l Hl).
  - unfold tasks_of, refs_of in Htl |- *.
    destruct (stores w !! todo) as [r|] eqn:Hs; [|discriminate]. simpl in Htl.
    destruct (lists w !! r) as [ts|] eqn:Hr; [|discriminate]. simpl in Htl.
    assert (Hne : new ≠ todo).
    { intros <-. unfold new in Hs. 
      assert (Hn : stores w !! fresh (dom (stores w)) = None)
        by (apply not_elem_of_dom, is_fresh).
      congruence. }
    assert (Hr0 : lists w0 !! r = Some ts).
    { simpl. rewrite lookup_insert_ne; [exact Hr|].
      intros <-. rewrite fresh_list in Hr. discriminate. }
    simpl. rewrite lookup_insert_ne by exact Hne. rewrite Hst. simpl.
    rewrite lookup_insert_ne by exact Hne. rewrite Hs. simpl.
    rewrite lookup_insert_ne.
    + rewrite Hli, Hr0. simpl. apply mapM_Some. apply mapM_Some in Htl.
      eapply Forall2_impl; [exact Htl|]. intros l t Hl.
      exact (lookup_weaken _ _ _ _ Hl Hh).
    + intros <-. rewrite <- Hli in Hr0. rewrite fresh_list in Hr0. discriminate.
Qed.

Lemma restart_restores_tasks_witness :
  ∃ w0 w1, ToDoList_init saved_world = (Ok (fresh (dom (stores saved_world))), w0) ∧
           load (fresh (dom (stores saved_world))) tasks_json w0 = (Ok tt, w1) ∧
           tasks_of w1 (fresh (dom (stores saved_world))) = tasks_of saved_world 0%nat.
Proof.
  destruct (restart_restores_tasks 0%nat saved_world
              [mkTask (VStr "a") (VStr "") (VInt 1) (VStr "Unassigned") (VBool false) (VStr "t0");
               sample_task;
               mkTask (VStr "c") (VStr "") (VInt 3) (VStr "Bob") (VBool false) (VStr "t2")])
    as (w0 & w1 & H0 & H1 & H2 & _).
  - intros l t Hl. simpl in Hl.
    repeat (rewrite lookup_insert in Hl; case_decide;
            [injection Hl as <-; unfold valid_priority; simpl; auto|]).
    rewrite lookup_empty in Hl. discriminate.
  - intros filename c Hc. simpl in Hc.
    rewrite lookup_insert in Hc. case_decide; [|rewrite lookup_empty in Hc; discriminate].
    injection Hc as <-. simpl.
    repeat (apply Forall_cons_2;
            [intros v Hv; simpl in Hv;
             repeat (rewrite lookup_insert in Hv; case_decide; try discriminate);
             injection Hv as <-; eexists; reflexivity|]).
    apply Forall_nil_2.
  - reflexivity.
  - reflexivity.
  - exists w0, w1. rewrite H2. auto.
Defined.

(** ** The branches of the loop, one by one *)

Lemma cli_bind_returns {A B} (m : Cli A) (k : A -> Cli B) (s s' : session) (a : A) :
  m s = (Returns a, s') -> (m ≫= k) s = k a s'.
Proof. intros H. unfold mbind, Cli_bind, cli_bind. rewrite H. reflexivity. Qed.

Lemma cli_bind_raises {A B} (m : Cli A) (k : A -> Cli B) (s s' : session) (e : cli_exn) :
  m s = (Raises e, s') -> (m ≫= k) s = (Raises e, s').
Proof. intros H. unfold mbind, Cli_bind, cli_bind. rewrite H. reflexivity. Qed.

Lemma core_returns {A} (m : M A) (lines out : list string) (w w' : world) (a : A) :
  m w = (Ok a, w') -> core m (at_prompt lines out w) = (Returns a, at_prompt lines out w').
Proof. intros H. unfold core. simpl. rewrite H. reflexivity. Qed.

Lemma get_task_ok (w : world) (l : loc) (t : Task) :
  heap w !! l = Some t -> get_task l w = (Ok t, w).
Proof. intros H. unfold get_task. rewrite H. reflexivity. Qed.

Lemma lift_ok {A} (o : outcome A) (a : A) (w : world) : o = Ok a -> lift o w = (Ok a, w).
Proof. intros ->. reflexivity. Qed.

Lemma input_line (prompt line : string) (rest out : list string) (w : world) :
  input prompt (at_prompt (line :: rest) out w)
  = (Returns line, at_prompt rest (out ++ [prompt]) w).
Proof. reflexivity. Qed.

Lemma print_line (text : string) (lines out : list string) (w : world) :
  print text (at_prompt lines out w)
  = (Returns tt, at_prompt lines (out ++ [text; newline]) w).
Proof.
  unfold print, write, mbind, Cli_bind, cli_bind, at_prompt. simpl.
  rewrite <- app_assoc. reflexivity.
Qed.

Lemma try_returns {A} (body handler : Cli A) (s s' : session) (a : A) :
  body s = (Returns a, s') -> try_except_ValueError body handler s = (Returns a, s').
Proof. intros H. unfold try_except_ValueError. rewrite H. reflexivity. Qed.

Lemma try_caught {A} (body handler : Cli A) (s s' : session) :
  body s = (Raises ValueError, s') -> try_except_ValueError body handler s = handler s'.
Proof. intros H. unfold try_except_ValueError. rewrite H. reflexivity. Qed.

Lemma try_bind_returns {A B} (m : Cli A) (k : A -> Cli B) (handler : Cli B)
    (s s' : session) (a : A) :
  m s = (Returns a, s') ->
  try_except_ValueError (m ≫= k) handler s = try_except_ValueError (k a) handler s'.
Proof.
  intros H. unfold try_except_ValueError. rewrite (cli_bind_returns _ _ _ _ _ H). reflexivity.
Qed.

Section Branches.

Variable strip : string -> string.
Variable lower : string -> string.
Variable int_of_str : string -> option Z.
Variable py_repr : value -> string.
Variable todo : loc.

Lemma Task_str_error (t : Task) (e : exn) :
  Task_str py_repr t = Raise e -> e = KeyError ∨ e = TypeError.
Proof.
  unfold Task_str, dict_getitem.
  destruct (priority t); try (intros [= <-]; auto);
    destruct (List.find _ labels); intros [= <-]; auto.
Qed.

Lemma try_shown (body handler : Cli unit) (s s' : session) (t : Task) :
  body s = (shown_result py_repr t, s') ->
  try_except_ValueError body handler s = (shown_result py_repr t, s').
Proof.
  intros H. unfold try_except_ValueError. rewrite H. unfold shown_result.
  destruct (Task_str py_repr t) as [text|e] eqn:E; [reflexivity|].
  destruct (Task_str_error t e E) as [-> | ->]; reflexivity.
Qed.

Lemma print_task_shown (label : string) (l : loc) (t : Task) (lines out : list string)
    (w : world) :
  heap w !! l = Some t ->
  print_task py_repr label l (at_prompt lines out w)
  = (shown_result py_repr t, at_prompt lines (out ++ shown py_repr label t) w).
Proof.
  intros H. unfold print_task, shown, shown_result, write, core, get_task, lift,
    mbind, Cli_bind, cli_bind, at_prompt. simpl. rewrite H. simpl.
  destruct (Task_str py_repr t); simpl; rewrite <- !app_assoc; reflexivity.
Qed.

Lemma store_list_ok (r : loc) (ts : list loc) (lines out : list string) (w : world) :
  stores w !! todo = Some r -> lists w !! r = Some ts ->
  store_list todo (at_prompt lines out w) = (Returns ts, at_prompt lines out w).
Proof.
  intros Hs Hr. unfold store_list, core, get_tasks_attr, get_list, mbind, Cli_bind, cli_bind.
  simpl. rewrite Hs. simpl. rewrite Hr. reflexivity.
Qed.

Lemma tasks_index_ok (r x : loc) (ts : list loc) (j : nat) (lines out : list string)
    (w : world) :
  stores w !! todo = Some r -> lists w !! r = Some ts -> list_index ts x = Some j ->
  tasks_index todo x (at_prompt lines out w) = (Returns (Z.of_nat j), at_prompt lines out w).
Proof.
  intros Hs Hr Hj. unfold tasks_index.
  rewrite (cli_bind_returns _ _ _ _ _ (store_list_ok r ts lines out w Hs Hr)).
  rewrite Hj. reflexivity.
Qed.

Lemma list_getitem_nat {A} (l : list A) (j : nat) (x : A) :
  l !! j = Some x -> list_getitem l (Z.of_nat j) = Ok x.
Proof.
  intros H. unfold list_getitem, py_position.
  rewrite bool_decide_eq_true_2 by (apply lookup_lt_Some in H; lia).
  simpl. rewrite Nat2Z.id, H. reflexivity.
Qed.

Lemma tasks_item_ok (r x : loc) (ts : list loc) (j : nat) (lines out : list string)
    (w : world) :
  stores w !! todo = Some r -> lists w !! r = Some ts -> ts !! j = Some x ->
  tasks_item todo (Z.of_nat j) (at_prompt lines out w) = (Returns x, at_prompt lines out w).
Proof.
  intros Hs Hr Hj. unfold tasks_item.
  rewrite (cli_bind_returns _ _ _ _ _ (store_list_ok r ts lines out w Hs Hr)).
  apply core_returns. unfold lift. rewrite (list_getitem_nat _ _ _ Hj). reflexivity.
Qed.

Lemma after_get_tasks_store (r : loc) (ts kept : list loc) (w : world) :
  stores w !! todo = Some r -> lists w !! r = Some ts ->
  stores (after_get_tasks kept w) !! todo = Some r ∧
  lists (after_get_tasks kept w) !! r = Some ts.
Proof.
  intros Hs Hr. split; [exact Hs|]. simpl. rewrite lookup_insert_ne; [exact Hr|].
  intros <-. rewrite fresh_list in Hr. discriminate.
Qed.

(** *** The index *)

Lemma with_index_not_a_number (prompt message line : string) (body : Z -> Cli unit)
    (rest out : list string) (w : world) :
  int_of_str (strip line) = None ->
  with_index strip int_of_str todo prompt message body (at_prompt (line :: rest) out w)
  = (Returns tt, at_prompt rest (out ++ [prompt; message; newline]) w).
Proof.
  intros Hint. unfold with_index.
  rewrite (cli_bind_returns _ _ _ _ _ (input_line prompt line rest out w)).
  rewrite (try_caught _ _ _ (at_prompt rest (out ++ [prompt]) w)).
  - rewrite print_line, <- app_assoc. reflexivity.
  - apply cli_bind_raises. unfold py_int. rewrite Hint. reflexivity.
Qed.

Lemma with_index_prefix (prompt message line : string) (body : Z -> Cli unit)
    (rest out : list string) (w : world) (r : loc) (ts : list loc) (i : Z) :
  int_of_str (strip line) = Some i ->
  stores w !! todo = Some r -> lists w !! r = Some ts ->
  with_index strip int_of_str todo prompt message body (at_prompt (line :: rest) out w)
  = try_except_ValueError
      (if bool_decide (0 <= i < Z.of_nat (length ts)) then
         x ← core (lift (list_getitem ts i));
         master_index ← tasks_index todo x;
         body master_index
       else print "Invalid index.")
      (print message)
      (at_prompt rest (out ++ [prompt]) (after_get_tasks ts w)).
Proof.
  intros Hint Hs Hr. unfold with_index.
  rewrite (cli_bind_returns _ _ _ _ _ (input_line prompt line rest out w)).
  rewrite (try_bind_returns _ _ _ _ (at_prompt rest (out ++ [prompt]) w) i)
    by (unfold py_int; rewrite Hint; reflexivity).
  rewrite (try_bind_returns _ _ _ _ _ _
             (core_returns _ _ _ _ _ _ (get_tasks_all_ok w todo r ts Hs Hr))).
  rewrite (try_bind_returns _ _ _ _
             (at_prompt rest (out ++ [prompt]) (after_get_tasks ts w)) ts).
  - reflexivity.
  - apply core_returns. unfold get_list, after_get_tasks. simpl.
    rewrite lookup_insert_eq. reflexivity.
Qed.

Lemma with_index_out_of_range (prompt message line : string) (body : Z -> Cli unit)
    (rest out : list string) (w : world) (r : loc) (ts : list loc) (i : Z) :
  int_of_str (strip line) = Some i ->
  stores w !! todo = Some r -> lists w !! r = Some ts ->
  ¬ (0 <= i < Z.of_nat (length ts)) ->
  with_index strip int_of_str todo prompt message body (at_prompt (line :: rest) out w)
  = (Returns tt,
     at_prompt rest (out ++ [prompt; "Invalid index."; newline]) (after_get_tasks ts w)).
Proof.
  intros Hint Hs Hr Hi. rewrite (with_index_prefix _ _ _ _ _ _ _ r ts i Hint Hs Hr).
  rewrite bool_decide_eq_false_2 by exact Hi.
  rewrite (try_returns _ _ _ _ _ (print_line _ _ _ _)), <- app_assoc. reflexivity.
Qed.

Lemma with_index_in_range (prompt message line : string) (body : Z -> Cli unit)
    (rest out : list string) (w : world) (r l : loc) (ts : list loc) (i : Z) :
  int_of_str (strip line) = Some i ->
  stores w !! todo = Some r -> lists w !! r = Some ts ->
  0 <= i -> ts !! Z.to_nat i = Some l ->
  ∃ j, list_index ts l = Some j ∧ ts !! j = Some l ∧ (NoDup ts -> Z.of_nat j = i) ∧
       with_index strip int_of_str todo prompt message body (at_prompt (line :: rest) out w)
       = try_except_ValueError (body (Z.of_nat j)) (print message)
           (at_prompt rest (out ++ [prompt]) (after_get_tasks ts w)).
Proof.
  intros Hint Hs Hr H0 Hl.
  destruct (list_index_lookup ts _ l Hl) as (j & Hj & _ & Hjl & _ & Hnd).
  exists j. split; [exact Hj|]. split; [exact Hjl|]. split; [intros H; rewrite (Hnd H); lia|].
  rewrite (with_index_prefix _ _ _ _ _ _ _ r ts i Hint Hs Hr).
  rewrite bool_decide_eq_true_2 by (apply lookup_lt_Some in Hl; lia).
  destruct (after_get_tasks_store r ts ts w Hs Hr) as [Hs' Hr'].
  rewrite (try_bind_returns _ _ _ _
             (at_prompt rest (out ++ [prompt]) (after_get_tasks ts w)) l).
  - rewrite (try_bind_returns _ _ _ _ _ _ (tasks_index_ok r l ts j _ _ _ Hs' Hr' Hj)).
    reflexivity.
  - apply core_returns. unfold lift, list_getitem, py_position.
    rewrite bool_decide_eq_true_2 by (apply lookup_lt_Some in Hl; lia).
    simpl. rewrite Hl. reflexivity.
Qed.

(** The four branches are instances of [with_index]. *)
Lemma cmd_done_shape :
  cmd_done strip int_of_str py_repr todo
  = with_index strip int_of_str todo "Index to mark done: " "Please enter a number."
      (fun master_index =>
         x ← tasks_item todo master_index;
         _ ← core (mark_done x);
         x' ← tasks_item todo master_index;
         print_task py_repr "Marked done:" x').
Proof. reflexivity. Qed.

Lemma cmd_undone_shape :
  cmd_undone strip int_of_str py_repr todo
  = with_index strip int_of_str todo "Index to mark undone: " "Please enter a number."
      (fun master_index =>
         x ← tasks_item todo master_index;
         _ ← core (mark_undone x);
         x' ← tasks_item todo master_index;
         print_task py_repr "Marked undone:" x').
Proof. reflexivity. Qed.

Lemma cmd_remove_shape :
  cmd_remove strip int_of_str py_repr todo
  = with_index strip int_of_str todo "Index to remove: " "Please enter a number."
      (fun master_index =>
         removed ← tasks_item todo master_index;
         _ ← core (remove_task todo master_index);
         print_task py_repr "Removed:" removed).
Proof. reflexivity. Qed.

Lemma cmd_edit_shape :
  cmd_edit strip int_of_str py_repr todo
  = with_index strip int_of_str todo "Index to edit: "
      "Please enter numbers for index/priority when required."
      (fun master_index =>
         a ← input "New title (leave blank to keep): ";
         b ← input "New note (leave blank to keep): ";
         c ← input "New priority 1-3 (leave blank to keep): ";
         d ← input "New assignee (leave blank to keep): ";
         v_priority ← (if bool_decide (c = "") then cli_ret VNone
                       else z ← py_int int_of_str c; cli_ret (VInt z));
         _ ← core (edit_task todo master_index (none_if_blank a) (none_if_blank b)
                     v_priority (none_if_blank d));
         x ← tasks_item todo master_index;
         print_task py_repr "Edited:" x).
Proof. reflexivity. Qed.

(** *** [done] and [undone] *)

Lemma mark_body (label : string) (v : value) (r l : loc) (ts : list loc) (j : nat) (t : Task)
    (lines out : list string) (w : world) :
  stores w !! todo = Some r -> lists w !! r = Some ts -> ts !! j = Some l ->
  heap w !! l = Some t ->
  (x ← tasks_item todo (Z.of_nat j);
   _ ← core (update_task (set_done v) x);
   x' ← tasks_item todo (Z.of_nat j);
   print_task py_repr label x') (at_prompt lines out w)
  = (shown_result py_repr (set_done v t),
     at_prompt lines (out ++ shown py_repr label (set_done v t))
       (with_heap (<[l := set_done v t]> (heap w)) w)).
Proof.
  intros Hs Hr Hj Ht.
  rewrite (cli_bind_returns _ _ _ _ _ (tasks_item_ok r l ts j _ _ _ Hs Hr Hj)).
  rewrite (cli_bind_returns _ _ _ _ _
             (core_returns _ _ _ _ _ _ (update_task_ok (set_done v) l t w Ht))).
  rewrite (cli_bind_returns _ _ _ _ _
             (tasks_item_ok r l ts j _ _ (with_heap (<[l := set_done v t]> (heap w)) w)
                Hs Hr Hj)).
  apply print_task_shown. simpl. apply lookup_insert_eq.
Qed.

(** X19.  [done] and [undone], given the index of a task the listing
    shows: the task at that position is marked, whatever else the list
    holds; no other task and no file changes; the task is marked even
    when printing it then raises. *)
Theorem cmd_done_undone_spec (line : string) (rest out : list string) (w : world)
    (r l : loc) (ts : list loc) (i : Z) (t : Task) :
  int_of_str (strip line) = Some i ->
  stores w !! todo = Some r -> lists w !! r = Some ts ->
  0 <= i -> ts !! Z.to_nat i = Some l -> heap w !! l = Some t ->
  cmd_done strip int_of_str py_repr todo (at_prompt (line :: rest) out w)
  = (shown_result py_repr (set_done (VBool true) t),
     at_prompt rest
       (out ++ "Index to mark done: " :: shown py_repr "Marked done:" (set_done (VBool true) t))
       (with_heap (<[l := set_done (VBool true) t]> (heap w)) (after_get_tasks ts w))) ∧
  cmd_undone strip int_of_str py_repr todo (at_prompt (line :: rest) out w)
  = (shown_result py_repr (set_done (VBool false) t),
     at_prompt rest
       (out ++ "Index to mark undone: "
            :: shown py_repr "Marked undone:" (set_done (VBool false) t))
       (with_heap (<[l := set_done (VBool false) t]> (heap w)) (after_get_tasks ts w))).
Proof.
  intros Hint Hs Hr H0 Hl Ht.
  destruct (after_get_tasks_store r ts ts w Hs Hr) as [Hs' Hr'].
  split.
  - rewrite cmd_done_shape.
    destruct (with_index_in_range "Index to mark done: " "Please enter a number." line
                (fun master_index =>
                   x ← tasks_item todo master_index;
                   _ ← core (mark_done x);
                   x' ← tasks_item todo master_index;
                   print_task py_repr "Marked done:" x')
                rest out w r l ts i Hint Hs Hr H0 Hl) as (j & _ & Hj & _ & ->).
    rewrite (try_shown _ _ _ _ (set_done (VBool true) t)
               (mark_body "Marked done:" (VBool true) r l ts j t _ _ _ Hs' Hr' Hj Ht)).
    rewrite <- app_assoc. reflexivity.
  - rewrite cmd_undone_shape.
    destruct (with_index_in_range "Index to mark undone: " "Please enter a number." line
                (fun master_index =>
                   x ← tasks_item todo master_index;
                   _ ← core (mark_undone x);
                   x' ← tasks_item todo master_index;
                   print_task py_repr "Marked undone:" x')
                rest out w r l ts i Hint Hs Hr H0 Hl) as (j & _ & Hj & _ & ->).
    rewrite (try_shown _ _ _ _ (set_done (VBool false) t)
               (mark_body "Marked undone:" (VBool false) r l ts j t _ _ _ Hs' Hr' Hj Ht)).
    rewrite <- app_assoc. reflexivity.
Qed.

(** *** [remove] *)

(** X20.  [remove], given the index of a task the listing shows: the
    list loses the first position that holds that task object, which is
    the position given when no task is in the list twice; the task
    objects are untouched and the task removed is printed. *)
Theorem cmd_remove_spec (line : string) (rest out : list string) (w : world)
    (r l : loc) (ts : list loc) (i : Z) (t : Task) :
  int_of_str (strip line) = Some i ->
  stores w !! todo = Some r -> lists w !! r = Some ts ->
  0 <= i -> ts !! Z.to_nat i = Some l -> heap w !! l = Some t ->
  ∃ j, list_index ts l = Some j ∧ (NoDup ts -> Z.of_nat j = i) ∧
       cmd_remove strip int_of_str py_repr todo (at_prompt (line :: rest) out w)
       = (shown_result py_repr t,
          at_prompt rest (out ++ "Index to remove: " :: shown py_repr "Removed:" t)
            (with_lists (<[r := delete j ts]> (lists (after_get_tasks ts w)))
               (after_get_tasks ts w))).
Proof.
  intros Hint Hs Hr H0 Hl Ht.
  destruct (after_get_tasks_store r ts ts w Hs Hr) as [Hs' Hr'].
  rewrite cmd_remove_shape.
  destruct (with_index_in_range "Index to remove: " "Please enter a number." line
              (fun master_index =>
                 removed ← tasks_item todo master_index;
                 _ ← core (remove_task todo master_index);
                 print_task py_repr "Removed:" removed)
              rest out w r l ts i Hint Hs Hr H0 Hl) as (j & Hidx & Hj & Hnd & ->).
  exists j. split; [exact Hidx|]. split; [exact Hnd|].
  assert (Hjlt : 0 <= Z.of_nat j < Z.of_nat (length ts)).
  { apply lookup_lt_Some in Hj. lia. }
  rewrite (try_shown _ _ _
             (at_prompt rest ((out ++ ["Index to remove: "]) ++ shown py_repr "Removed:" t)
                (with_lists (<[r := delete j ts]> (lists (after_get_tasks ts w)))
                   (after_get_tasks ts w))) t).
  - rewrite <- app_assoc. reflexivity.
  - rewrite (cli_bind_returns _ _ _ _ _ (tasks_item_ok r l ts j _ _ _ Hs' Hr' Hj)).
    rewrite (cli_bind_returns _ _ _ _ _
               (core_returns _ _ _ _ _ _
                  (remove_task_ok (after_get_tasks ts w) todo r ts _ Hs' Hr' Hjlt))).
    rewrite Nat2Z.id. apply print_task_shown. exact Ht.
Qed.

(** *** [edit] *)

(** X21.  [edit], given the index of a task the listing shows, reads
    four more lines.  A blank line keeps the attribute; the title, the
    note and the assignee are taken as typed, without stripping; the
    priority is clamped to 1..3.  When the line of the priority is
    neither blank nor a number the handler's message is written and no
    task has changed.  No file changes either way. *)
Theorem cmd_edit_spec (line l_title l_note l_pr l_assignee : string) (rest out : list string)
    (w : world) (r l : loc) (ts : list loc) (i : Z) (t : Task) :
  int_of_str (strip line) = Some i ->
  stores w !! todo = Some r -> lists w !! r = Some ts ->
  0 <= i -> ts !! Z.to_nat i = Some l -> heap w !! l = Some t ->
  let prompts := ["Index to edit: "; "New title (leave blank to keep): ";
                  "New note (leave blank to keep): ";
                  "New priority 1-3 (leave blank to keep): ";
                  "New assignee (leave blank to keep): "] in
  let edited (p : value) :=
    mkTask (keep_or (title t) (none_if_blank l_title)) (keep_or (note t) (none_if_blank l_note))
      p (keep_or (assignee t) (none_if_blank l_assignee)) (done t) (created_at t) in
  cmd_edit strip int_of_str py_repr todo
    (at_prompt (line :: l_title :: l_note :: l_pr :: l_assignee :: rest) out w)
  = if bool_decide (l_pr = "") then
      (shown_result py_repr (edited (priority t)),
       at_prompt rest (out ++ prompts ++ shown py_repr "Edited:" (edited (priority t)))
         (with_heap (<[l := edited (priority t)]> (heap w)) (after_get_tasks ts w)))
    else
      match int_of_str l_pr with
      | Some p =>
          (shown_result py_repr (edited (VInt (Z.max 1 (Z.min p 3)))),
           at_prompt rest
             (out ++ prompts ++ shown py_repr "Edited:" (edited (VInt (Z.max 1 (Z.min p 3)))))
             (with_heap (<[l := edited (VInt (Z.max 1 (Z.min p 3)))]> (heap w))
                (after_get_tasks ts w)))
      | None =>
          (Returns tt,
           at_prompt rest
             (out ++ prompts ++ ["Please enter numbers for index/priority when required.";
                                 newline])
             (after_get_tasks ts w))
      end.
Proof.
  intros Hint Hs Hr H0 Hl Ht prompts edited.
  destruct (after_get_tasks_store r ts ts w Hs Hr) as [Hs' Hr'].
  rewrite cmd_edit_shape.
  destruct (with_index_in_range "Index to edit: "
              "Please enter numbers for index/priority when required." line
              (fun master_index =>
                 a ← input "New title (leave blank to keep): ";
                 b ← input "New note (leave blank to keep): ";
                 c ← input "New priority 1-3 (leave blank to keep): ";
                 d ← input "New assignee (leave blank to keep): ";
                 v_priority ← (if bool_decide (c = "") then cli_ret VNone
                               else z ← py_int int_of_str c; cli_ret (VInt z));
                 _ ← core (edit_task todo master_index (none_if_blank a) (none_if_blank b)
                             v_priority (none_if_blank d));
                 x ← tasks_item todo master_index;
                 print_task py_repr "Edited:" x)
              (l_title :: l_note :: l_pr :: l_assignee :: rest) out w r l ts i
              Hint Hs Hr H0 Hl) as (j & _ & Hj & _ & ->).
  assert (Hedit : ∀ v p,
            v = VNone ∧ p = priority t ∨ (∃ z, v = VInt z ∧ p = VInt (Z.max 1 (Z.min z 3))) ->
            ∀ lines out',
            (_ ← core (edit_task todo (Z.of_nat j) (none_if_blank l_title)
                         (none_if_blank l_note) v (none_if_blank l_assignee));
             x ← tasks_item todo (Z.of_nat j);
             print_task py_repr "Edited:" x) (at_prompt lines out' (after_get_tasks ts w))
            = (shown_result py_repr (mkTask (keep_or (title t) (none_if_blank l_title))
                    (keep_or (note t) (none_if_blank l_note)) p
                    (keep_or (assignee t) (none_if_blank l_assignee)) (done t) (created_at t)),
               at_prompt lines (out' ++ shown py_repr "Edited:" (mkTask (keep_or (title t) (none_if_blank l_title))
                    (keep_or (note t) (none_if_blank l_note)) p
                    (keep_or (assignee t) (none_if_blank l_assignee)) (done t) (created_at t)))
                 (with_heap (<[l := mkTask (keep_or (title t) (none_if_blank l_title))
                    (keep_or (note t) (none_if_blank l_note)) p
                    (keep_or (assignee t) (none_if_blank l_assignee)) (done t) (created_at t)]> (heap w)) (after_get_tasks ts w)))).
  { intros v p Hv lines out'.
    assert (Hp : v = VNone ∨ (∃ z, v = VInt z)).
    { destruct Hv as [[-> _] | (z & -> & _)]; eauto. }
    pose proof (edit_task_in_range (after_get_tasks ts w) todo r ts (Z.of_nat j)
                  (none_if_blank l_title) (none_if_blank l_note) v (none_if_blank l_assignee)
                  l t Hs' Hr' (Nat2Z.is_nonneg j)) as Hcore.
    rewrite Nat2Z.id in Hcore. specialize (Hcore Hj Ht Hp).
    assert (Hsame : match v with VInt z => VInt (Z.max 1 (Z.min z 3)) | _ => priority t end = p).
    { destruct Hv as [[-> ->] | (z & -> & ->)]; reflexivity. }
    rewrite Hsame in Hcore.
    rewrite (cli_bind_returns _ _ _ _ _ (core_returns _ _ _ _ _ _ Hcore)).
    erewrite cli_bind_returns by (apply (tasks_item_ok r l ts j); [exact Hs'|exact Hr'|exact Hj]).
    apply print_task_shown. simpl. apply lookup_insert_eq. }
  do 4 (rewrite (try_bind_returns _ _ _ _ _ _ (input_line _ _ _ _ _))).
  case_bool_decide as Hblank.
  - rewrite (try_bind_returns _ _ _ _
               (at_prompt rest
                  (((((out ++ ["Index to edit: "]) ++ ["New title (leave blank to keep): "])
                    ++ ["New note (leave blank to keep): "])
                    ++ ["New priority 1-3 (leave blank to keep): "])
                    ++ ["New assignee (leave blank to keep): "])
                  (after_get_tasks ts w)) VNone) by (simpl; reflexivity).
    rewrite (try_shown _ _ _ _ _ (Hedit VNone (priority t) (or_introl (conj eq_refl eq_refl)) _ _)).
    unfold prompts. rewrite <- !app_assoc. reflexivity.
  - destruct (int_of_str l_pr) as [p|] eqn:Hp.
    + rewrite (try_bind_returns _ _ _ _
               (at_prompt rest
                  (((((out ++ ["Index to edit: "]) ++ ["New title (leave blank to keep): "])
                    ++ ["New note (leave blank to keep): "])
                    ++ ["New priority 1-3 (leave blank to keep): "])
                    ++ ["New assignee (leave blank to keep): "])
                  (after_get_tasks ts w)) (VInt p))
        by (unfold py_int, mbind, Cli_bind, cli_bind; rewrite Hp; reflexivity).
      rewrite (try_shown _ _ _ _ _
                 (Hedit (VInt p) _ (or_intror (ex_intro _ p (conj eq_refl eq_refl))) _ _)).
      unfold prompts. rewrite <- !app_assoc. reflexivity.
    + rewrite (try_caught _ _ _
               (at_prompt rest
                  (((((out ++ ["Index to edit: "]) ++ ["New title (leave blank to keep): "])
                    ++ ["New note (leave blank to keep): "])
                    ++ ["New priority 1-3 (leave blank to keep): "])
                    ++ ["New assignee (leave blank to keep): "])
                  (after_get_tasks ts w)))
        by (unfold py_int, mbind, Cli_bind, cli_bind; rewrite Hp; reflexivity).
      rewrite print_line. unfold prompts. rewrite <- !app_assoc. reflexivity.
Qed.


(** *** [add] *)

Lemma Task_init_int (v_title v_note v_assignee : value) (p : Z) (w : world) :
  Task_init v_title v_note (VInt p) v_assignee w
  = (Ok (fresh (dom (heap w))),
     with_heap (<[fresh (dom (heap w)) :=
                    mkTask v_title v_note (VInt (Z.max 1 (Z.min p 3))) v_assignee (VBool false)
                      (VStr (clock w (ticks w)))]> (heap w))
       (with_ticks (S (ticks w)) w)).
Proof. unfold Task_init. rewrite clamp_int. reflexivity. Qed.

(** X22.  [add] reads four lines and always adds a task: a new object,
    put last in the list, not done, stamped by the clock.  Title, note
    and assignee are the lines stripped, the assignee ["Unassigned"]
    when that is blank; the priority is the number typed, clamped to
    1..3, and 2 when the line is blank or not a number ([int] reading
    ["2"] as 2).  The task is printed; no other task and no file
    changes. *)
Theorem cmd_add_spec (l_title l_note l_pr l_assignee : string) (rest out : list string)
    (w : world) (r : loc) (ts : list loc) :
  stores w !! todo = Some r -> lists w !! r = Some ts ->
  let pr_num := default 2 (int_of_str (or_else (strip l_pr) "2")) in
  let l := fresh (dom (heap w)) in
  let t := mkTask (VStr (strip l_title)) (VStr (strip l_note))
             (VInt (Z.max 1 (Z.min pr_num 3)))
             (VStr (or_else (strip l_assignee) "Unassigned")) (VBool false)
             (VStr (clock w (ticks w))) in
  heap w !! l = None ∧
  (int_of_str "2" = Some 2 -> strip l_pr = "" ∨ int_of_str (strip l_pr) = None ->
   priority t = VInt 2) ∧
  ∃ text, Task_str py_repr t = Ok text ∧
    cmd_add strip int_of_str py_repr todo
      (at_prompt (l_title :: l_note :: l_pr :: l_assignee :: rest) out w)
    = (Returns tt,
       at_prompt rest
         (out ++ ["Title: "; "Note (optional): ";
                  "Priority 1=High, 2=Med, 3=Low (default 2): ";
                  "Assignee (default Unassigned): "; "Added:"; " "; text; newline])
         (with_lists (<[r := ts ++ [l]]> (lists w))
            (with_heap (<[l := t]> (heap w)) (with_ticks (S (ticks w)) w)))).
Proof.
  intros Hs Hr pr_num l t. split; [apply fresh_heap|]. split.
  - intros Htwo Hblank. unfold t, pr_num, or_else. simpl.
    destruct Hblank as [-> | Hn].
    + simpl. rewrite Htwo. reflexivity.
    + case_bool_decide; [rewrite Htwo; reflexivity|].
      rewrite Hn. reflexivity.
  - assert (Hvalid : valid_task t).
    { unfold valid_task, valid_priority, t. simpl.
      assert (H : Z.max 1 (Z.min pr_num 3) = 1 ∨ Z.max 1 (Z.min pr_num 3) = 2 ∨
                  Z.max 1 (Z.min pr_num 3) = 3) by lia.
      destruct H as [-> | [-> | ->]]; auto. }
    destruct (Task_str_valid py_repr t Hvalid) as [text Htext]. exists text.
    split; [exact Htext|]. unfold cmd_add.
    do 4 (rewrite (cli_bind_returns _ _ _ _ _ (input_line _ _ _ _ _))).
    rewrite (cli_bind_returns _ _ _ _ _
               (core_returns _ _ _ _ _ _ (Task_init_int _ _ _ pr_num w))).
    erewrite cli_bind_returns
      by (apply core_returns; apply (add_task_ok _ todo r l ts); [exact Hs|exact Hr]).
    erewrite print_task_shown by (simpl; apply lookup_insert_eq).
    fold l t. unfold shown_result, shown. rewrite Htext, <- !app_assoc. reflexivity.
Qed.

(** *** An index that is not one *)

(** X23.  In each of [done], [undone], [edit] and [remove], a line that
    is not a number gets the handler's message, and a number that is
    not a position of the list (negative ones included) gets
    ["Invalid index."]; one line has been read, the command returns,
    and no task, no store and no file has changed. *)
Theorem invalid_index_spec (line : string) (rest out : list string) (w : world) :
  Forall
    (fun '(cmd, prompt, message) =>
       (int_of_str (strip line) = None ->
        cmd (at_prompt (line :: rest) out w)
        = (Returns tt, at_prompt rest (out ++ [prompt; message; newline]) w)) ∧
       (∀ (i : Z) (r : loc) (ts : list loc),
          int_of_str (strip line) = Some i ->
          stores w !! todo = Some r -> lists w !! r = Some ts ->
          ¬ (0 <= i < Z.of_nat (length ts)) ->
          cmd (at_prompt (line :: rest) out w)
          = (Returns tt,
             at_prompt rest (out ++ [prompt; "Invalid index."; newline])
               (after_get_tasks ts w))))
    [(cmd_done strip int_of_str py_repr todo, "Index to mark done: ", "Please enter a number.");
     (cmd_undone strip int_of_str py_repr todo, "Index to mark undone: ",
      "Please enter a number.");
     (cmd_edit strip int_of_str py_repr todo, "Index to edit: ",
      "Please enter numbers for index/priority when required.");
     (cmd_remove strip int_of_str py_repr todo, "Index to remove: ",
      "Please enter a number.")].
Proof.
  rewrite cmd_done_shape, cmd_undone_shape, cmd_edit_shape, cmd_remove_shape.
  repeat first
    [ apply Forall_nil_2
    | apply Forall_cons_2;
      [split; [apply with_index_not_a_number|intros i r ts; apply with_index_out_of_range]|] ].
Qed.

(** *** [list] and [list_pending] *)

Lemma print_numbered_ok (tasks : list loc) (texts : list string) (i : nat)
    (lines out : list string) (w : world) :
  texts_of py_repr w tasks = Some texts ->
  print_numbered py_repr i tasks (at_prompt lines out w)
  = (Returns tt, at_prompt lines (out ++ listing i texts) w).
Proof.
  unfold texts_of. rewrite mapM_Some. intros H. revert i out.
  induction H as [|l text tasks texts Hl _ IH]; intros i out.
  - simpl. rewrite app_nil_r. reflexivity.
  - destruct (heap w !! l) as [t|] eqn:Ht; [|discriminate]. simpl in Hl.
    destruct (Task_str py_repr t) as [text'|] eqn:Hstr; [|discriminate].
    injection Hl as ->. simpl.
    rewrite (cli_bind_returns _ _ _ _ _ (core_returns _ _ _ _ _ _ (get_task_ok w l t Ht))).
    rewrite (cli_bind_returns _ _ _ _ _ (core_returns _ _ _ _ _ _ (lift_ok _ _ w Hstr))).
    rewrite (cli_bind_returns _ _ _ _ _ (print_line _ _ _ _)).
    rewrite IH, <- app_assoc. reflexivity.
Qed.

Lemma print_numbered_raises (before after : list loc) (texts : list string) (l : loc)
    (t : Task) (e : exn) (i : nat) (lines out : list string) (w : world) :
  texts_of py_repr w before = Some texts ->
  heap w !! l = Some t -> Task_str py_repr t = Raise e ->
  print_numbered py_repr i (before ++ l :: after) (at_prompt lines out w)
  = (Raises (Core e), at_prompt lines (out ++ listing i texts) w).
Proof.
  unfold texts_of. rewrite mapM_Some. intros H Ht Hstr. revert i out.
  induction H as [|l0 text tasks texts Hl _ IH]; intros i out.
  - simpl. rewrite app_nil_r.
    rewrite (cli_bind_returns _ _ _ _ _ (core_returns _ _ _ _ _ _ (get_task_ok w l t Ht))).
    apply cli_bind_raises. unfold core, lift. simpl. rewrite Hstr. reflexivity.
  - destruct (heap w !! l0) as [t0|] eqn:Ht0; [|discriminate]. simpl in Hl.
    destruct (Task_str py_repr t0) as [text'|] eqn:Hstr0; [|discriminate].
    injection Hl as ->. simpl.
    rewrite (cli_bind_returns _ _ _ _ _ (core_returns _ _ _ _ _ _ (get_task_ok w l0 t0 Ht0))).
    rewrite (cli_bind_returns _ _ _ _ _ (core_returns _ _ _ _ _ _ (lift_ok _ _ w Hstr0))).
    rewrite (cli_bind_returns _ _ _ _ _ (print_line _ _ _ _)).
    rewrite IH, <- app_assoc. reflexivity.
Qed.

Lemma show_tasks_prefix (show_completed : bool) (lines out : list string) (w : world)
    (r : loc) (ts : list loc) :
  stores w !! todo = Some r -> lists w !! r = Some ts ->
  (∀ l, l ∈ ts -> is_Some (heap w !! l)) ->
  let kept := if show_completed then ts else filter (is_pending w) ts in
  show_tasks py_repr todo show_completed (at_prompt lines out w)
  = (if bool_decide (kept = []) then print "No tasks to show."
     else print_numbered py_repr 0 kept) (at_prompt lines out (after_get_tasks kept w)).
Proof.
  intros Hs Hr Hall kept. unfold show_tasks.
  assert (Hget : get_tasks todo show_completed w
            = (Ok (fresh (dom (lists w))), after_get_tasks kept w)).
  { unfold kept. destruct show_completed.
    - apply (get_tasks_all_ok _ _ r ts Hs Hr).
    - apply (get_tasks_pending_ok _ _ r ts Hs Hr Hall). }
  rewrite (cli_bind_returns _ _ _ _ _ (core_returns _ _ _ _ _ _ Hget)).
  rewrite (cli_bind_returns _ _ _ (at_prompt lines out (after_get_tasks kept w)) kept).
  - reflexivity.
  - apply core_returns. unfold get_list, after_get_tasks. simpl.
    rewrite lookup_insert_eq. reflexivity.
Qed.

(** X24.  [list] prints the tasks of the store in order, numbered from
    0, and [list_pending] the tasks not done, numbered from 0 in that
    shorter list; with nothing to print the output is
    ["No tasks to show."].  When [str] raises on a task the listing
    stops there, after the lines of the tasks before it.  No task, no
    store and no file changes. *)
Theorem show_tasks_spec (show_completed : bool) (lines out : list string) (w : world)
    (r : loc) (ts : list loc) :
  stores w !! todo = Some r -> lists w !! r = Some ts ->
  (∀ l, l ∈ ts -> is_Some (heap w !! l)) ->
  let kept := if show_completed then ts else filter (is_pending w) ts in
  (∀ texts, texts_of py_repr w kept = Some texts ->
     show_tasks py_repr todo show_completed (at_prompt lines out w)
     = (Returns tt,
        at_prompt lines
          (out ++ if bool_decide (kept = []) then ["No tasks to show."; newline]
                  else listing 0 texts)
          (after_get_tasks kept w))) ∧
  (∀ before after texts l t e,
     kept = before ++ l :: after ->
     texts_of py_repr w before = Some texts ->
     heap w !! l = Some t -> Task_str py_repr t = Raise e ->
     show_tasks py_repr todo show_completed (at_prompt lines out w)
     = (Raises (Core e), at_prompt lines (out ++ listing 0 texts) (after_get_tasks kept w))).
Proof.
  intros Hs Hr Hall kept. split.
  - intros texts Htexts.
    rewrite (show_tasks_prefix show_completed lines out w r ts Hs Hr Hall). fold kept.
    case_bool_decide.
    + apply print_line.
    + apply print_numbered_ok. exact Htexts.
  - intros before after texts l t e Hkept Htexts Ht Hstr.
    rewrite (show_tasks_prefix show_completed lines out w r ts Hs Hr Hall). fold kept.
    rewrite bool_decide_eq_false_2 by (rewrite Hkept; destruct before; discriminate).
    rewrite Hkept. apply (print_numbered_raises before after texts l t e); assumption.
Qed.

(** *** [save], [exit] and the rest *)

(** X25.  One turn of the loop writes the menu and reads a command,
    which it strips and lowers.  [save] and [exit] write the tasks of
    the store to [tasks.json] and change nothing else; a command that is
    none of the nine gets ["Unknown command. Try again."] and changes
    nothing; and the turn ends the loop exactly when the command is
    [exit]. *)
Theorem iteration_spec (line : string) (rest out : list string) (w : world) :
  let menu := [newline +:+
               "Commands: add, list, list_pending, done, undone, edit, remove, save, exit";
               newline; "Enter command: "] in
  let cmd := lower (strip line) in
  let run := iteration strip lower int_of_str py_repr todo (at_prompt (line :: rest) out w) in
  (∀ tl, tasks_of w todo = Some tl ->
     (cmd = "save" ->
      run = (Returns false,
             at_prompt rest (out ++ menu ++ ["Saved to tasks.json."; newline])
               (with_files (<[tasks_json := Json (VList (to_dict <$> tl))]> (files w)) w))) ∧
     (cmd = "exit" ->
      run = (Returns true,
             at_prompt rest (out ++ menu ++ ["Saved and exiting. Bye!"; newline])
               (with_files (<[tasks_json := Json (VList (to_dict <$> tl))]> (files w)) w)))) ∧
  (cmd ∉ ["add"; "list"; "list_pending"; "done"; "undone"; "edit"; "remove"; "save"; "exit"] ->
   run = (Returns false,
          at_prompt rest (out ++ menu ++ ["Unknown command. Try again."; newline]) w)) ∧
  (∀ stop s', run = (Returns stop, s') -> (stop = true <-> cmd = "exit")).
Proof.
  intros menu cmd run.
  assert (Hrun : run =
    (if bool_decide (cmd = "add") then
       _ ← cmd_add strip int_of_str py_repr todo; cli_ret false
     else if bool_decide (cmd = "list") then _ ← show_tasks py_repr todo true; cli_ret false
     else if bool_decide (cmd = "list_pending") then
       _ ← show_tasks py_repr todo false; cli_ret false
     else if bool_decide (cmd = "done") then
       _ ← cmd_done strip int_of_str py_repr todo; cli_ret false
     else if bool_decide (cmd = "undone") then
       _ ← cmd_undone strip int_of_str py_repr todo; cli_ret false
     else if bool_decide (cmd = "edit") then
       _ ← cmd_edit strip int_of_str py_repr todo; cli_ret false
     else if bool_decide (cmd = "remove") then
       _ ← cmd_remove strip int_of_str py_repr todo; cli_ret false
     else if bool_decide (cmd = "save") then
       _ ← core (save todo tasks_json);
       _ ← print ("Saved to " +:+ tasks_json +:+ ".");
       cli_ret false
     else if bool_decide (cmd = "exit") then
       _ ← core (save todo tasks_json);
       _ ← print "Saved and exiting. Bye!";
       cli_ret true
     else _ ← print "Unknown command. Try again."; cli_ret false)
    (at_prompt rest (out ++ menu) w)).
  { unfold run, iteration.
    rewrite (cli_bind_returns _ _ _ _ _ (print_line _ _ _ _)).
    rewrite (cli_bind_returns _ _ _ _ _ (input_line _ _ _ _ _)).
    unfold menu. rewrite <- !app_assoc. reflexivity. }
  rewrite Hrun. clearbody cmd. clear Hrun run. split; [|split].
  - intros tl Htl. split; intros ->; simpl.
    + rewrite (cli_bind_returns _ _ _ _ _
                 (core_returns _ _ _ _ _ _ (save_ok w todo tasks_json tl Htl))).
      rewrite (cli_bind_returns _ _ _ _ _ (print_line _ _ _ _)).
      rewrite <- app_assoc. reflexivity.
    + rewrite (cli_bind_returns _ _ _ _ _
                 (core_returns _ _ _ _ _ _ (save_ok w todo tasks_json tl Htl))).
      rewrite (cli_bind_returns _ _ _ _ _ (print_line _ _ _ _)).
      rewrite <- app_assoc. reflexivity.
  - intros Hnot. rewrite !not_elem_of_cons in Hnot.
    destruct Hnot as (? & ? & ? & ? & ? & ? & ? & ? & ? & _).
    rewrite !bool_decide_eq_false_2 by assumption.
    rewrite (cli_bind_returns _ _ _ _ _ (print_line _ _ _ _)).
    rewrite <- app_assoc. reflexivity.
  - intros stop s'.
    assert (Hret : ∀ (m : Cli unit) (b : bool) (s1 : session),
              (_ ← m; cli_ret b) s1 = (Returns stop, s') -> stop = b).
    { intros m b s1 (a & s2 & _ & H)%cli_bind_inv. injection H as <- _. reflexivity. }
    assert (Hret2 : ∀ (m1 m2 : Cli unit) (b : bool) (s1 : session),
              (_ ← m1; _ ← m2; cli_ret b) s1 = (Returns stop, s') -> stop = b).
    { intros m1 m2 b s1 (a & s2 & _ & H)%cli_bind_inv. exact (Hret _ _ _ H). }
    repeat (case_bool_decide as Hc;
            [intros ->%Hret; split; [discriminate|intros He; rewrite He in Hc; discriminate]
            |clear Hc]).
    case_bool_decide as Hsave.
    { intros ->%Hret2. split; [discriminate|intros He; rewrite He in Hsave; discriminate]. }
    case_bool_decide as Hexit.
    { intros ->%Hret2. split; auto. }
    intros ->%Hret. split; [discriminate|contradiction].
Qed.

End Branches.

(** ** What is written to the disk *)

Lemma keeps_files_ret {A} (a : A) : keeps_files (ret a).
Proof. intros w. reflexivity. Qed.

Lemma keeps_files_lift {A} (o : outcome A) : keeps_files (lift o).
Proof. intros w. reflexivity. Qed.

Lemma keeps_files_bind {A B} (m : M A) (k : A -> M B) :
  keeps_files m -> (∀ a, keeps_files (k a)) -> keeps_files (m ≫= k).
Proof.
  intros Hm Hk w. specialize (Hm w). unfold mbind, M_bind, bind.
  destruct (m w) as [[a|e] w1]; simpl in *; [|exact Hm].
  rewrite (Hk a w1). exact Hm.
Qed.

Lemma keeps_files_now : keeps_files now_isoformat.
Proof. intros w. reflexivity. Qed.

Lemma keeps_files_new_task (t : Task) : keeps_files (new_task t).
Proof. intros w. reflexivity. Qed.

Lemma keeps_files_get_task (l : loc) : keeps_files (get_task l).
Proof. intros w. unfold get_task. destruct (heap w !! l); reflexivity. Qed.

Lemma keeps_files_update_task (f : Task -> Task) (l : loc) : keeps_files (update_task f l).
Proof. intros w. unfold update_task. destruct (heap w !! l); reflexivity. Qed.

Lemma keeps_files_new_list (ts : list loc) : keeps_files (new_list ts).
Proof. intros w. reflexivity. Qed.

Lemma keeps_files_get_list (r : loc) : keeps_files (get_list r).
Proof. intros w. unfold get_list. destruct (lists w !! r); reflexivity. Qed.

Lemma keeps_files_set_list (r : loc) (ts : list loc) : keeps_files (set_list r ts).
Proof. intros w. unfold set_list. destruct (lists w !! r); reflexivity. Qed.

Lemma keeps_files_get_tasks_attr (self : loc) : keeps_files (get_tasks_attr self).
Proof. intros w. unfold get_tasks_attr. destruct (stores w !! self); reflexivity. Qed.

Ltac keeps_files_steps :=
  repeat first
    [ apply keeps_files_ret | apply keeps_files_lift | apply keeps_files_now
    | apply keeps_files_new_task | apply keeps_files_get_task
    | apply keeps_files_update_task | apply keeps_files_new_list
    | apply keeps_files_get_list | apply keeps_files_set_list
    | apply keeps_files_get_tasks_attr
    | apply keeps_files_bind; [|intros ?]
    | case_bool_decide ].

Lemma keeps_files_Task_init (v_title v_note v_priority v_assignee : value) :
  keeps_files (Task_init v_title v_note v_priority v_assignee).
Proof. unfold Task_init. keeps_files_steps. Qed.

Lemma keeps_files_add_task (self task : loc) : keeps_files (add_task self task).
Proof. unfold add_task. keeps_files_steps. Qed.

Lemma keeps_files_remove_task (self : loc) (index : Z) : keeps_files (remove_task self index).
Proof. unfold remove_task. keeps_files_steps. Qed.

Lemma keeps_files_not_done (ts : list loc) : keeps_files (not_done ts).
Proof.
  induction ts as [|l ts IH]; simpl; [apply keeps_files_ret|].
  apply keeps_files_bind; [apply keeps_files_get_task|]. intros t.
  apply keeps_files_bind; [exact IH|]. intros rest. apply keeps_files_ret.
Qed.

Lemma keeps_files_get_tasks (self : loc) (show_completed : bool) :
  keeps_files (get_tasks self show_completed).
Proof.
  unfold get_tasks. do 2 (apply keeps_files_bind; [keeps_files_steps|intros ?]).
  destruct show_completed; [apply keeps_files_new_list|].
  apply keeps_files_bind; [apply keeps_files_not_done|]. intros ?. apply keeps_files_new_list.
Qed.

Lemma keeps_files_assign (set : value -> Task -> Task) (v : value) (t : loc) :
  keeps_files (assign_unless_None set v t).
Proof. destruct v; simpl; first [apply keeps_files_ret|apply keeps_files_update_task]. Qed.

Lemma keeps_files_edit_task (self : loc) (index : Z)
    (v_title v_note v_priority v_assignee : value) :
  keeps_files (edit_task self index v_title v_note v_priority v_assignee).
Proof.
  unfold edit_task.
  repeat first
    [ apply keeps_files_assign
    | apply keeps_files_ret | apply keeps_files_lift | apply keeps_files_update_task
    | apply keeps_files_get_list | apply keeps_files_get_tasks_attr
    | apply keeps_files_bind; [|intros ?]
    | case_bool_decide
    | match goal with |- keeps_files (match ?v with _ => _ end) => destruct v end ].
Qed.

Lemma cli_keeps_files_ret {A} (a : A) : cli_keeps_files (cli_ret a).
Proof. intros s. reflexivity. Qed.

Lemma cli_keeps_files_raise {A} (e : cli_exn) : cli_keeps_files (@cli_raise A e).
Proof. intros s. reflexivity. Qed.

Lemma cli_keeps_files_bind {A B} (m : Cli A) (k : A -> Cli B) :
  cli_keeps_files m -> (∀ a, cli_keeps_files (k a)) -> cli_keeps_files (m ≫= k).
Proof.
  intros Hm Hk s. specialize (Hm s). unfold mbind, Cli_bind, cli_bind.
  destruct (m s) as [[a|e] s1]; simpl in *; [|exact Hm].
  rewrite (Hk a s1). exact Hm.
Qed.

Lemma cli_keeps_files_core {A} (m : M A) : keeps_files m -> cli_keeps_files (core m).
Proof.
  intros Hm s. specialize (Hm (wld s)). unfold core.
  destruct (m (wld s)) as [[a|e] w]; exact Hm.
Qed.

Lemma cli_keeps_files_write (text : string) : cli_keeps_files (write text).
Proof. intros s. reflexivity. Qed.

Lemma cli_keeps_files_read_line : cli_keeps_files read_line.
Proof. intros s. unfold read_line. destruct (stdin (con s)); reflexivity. Qed.

Lemma cli_keeps_files_try {A} (body handler : Cli A) :
  cli_keeps_files body -> cli_keeps_files handler ->
  cli_keeps_files (try_except_ValueError body handler).
Proof.
  intros Hb Hh s. specialize (Hb s). unfold try_except_ValueError.
  destruct (body s) as [[a|e] s1]; simpl in *; [exact Hb|].
  destruct e as [e| | |]; try exact Hb; [|rewrite (Hh s1); exact Hb].
  destruct e; try exact Hb. rewrite (Hh s1). exact Hb.
Qed.

Section WritesNoFile.

Variable strip : string -> string.
Variable lower : string -> string.
Variable int_of_str : string -> option Z.
Variable py_repr : value -> string.
Variable todo : loc.

Ltac cli_keeps_files_steps :=
  repeat first
    [ apply cli_keeps_files_ret | apply cli_keeps_files_raise
    | apply cli_keeps_files_write | apply cli_keeps_files_read_line
    | apply cli_keeps_files_try
    | apply cli_keeps_files_core;
      first [ apply keeps_files_Task_init | apply keeps_files_add_task
            | apply keeps_files_remove_task | apply keeps_files_get_tasks
            | apply keeps_files_edit_task | apply keeps_files_get_task
            | apply keeps_files_get_list | apply keeps_files_get_tasks_attr
            | apply keeps_files_update_task | apply keeps_files_lift ]
    | apply cli_keeps_files_bind; [|intros ?]
    | case_bool_decide
    | match goal with |- cli_keeps_files (match ?v with _ => _ end) => destruct v end ].

Lemma cli_keeps_files_print_numbered (tasks : list loc) (i : nat) :
  cli_keeps_files (print_numbered py_repr i tasks).
Proof.
  revert i. induction tasks as [|t tasks IH]; intros i; [apply cli_keeps_files_ret|].
  simpl. unfold print.
  do 3 (apply cli_keeps_files_bind; [cli_keeps_files_steps|intros ?]). apply IH.
Qed.

Lemma cli_keeps_files_show_tasks (show_completed : bool) :
  cli_keeps_files (show_tasks py_repr todo show_completed).
Proof.
  unfold show_tasks, print.
  do 2 (apply cli_keeps_files_bind; [cli_keeps_files_steps|intros ?]).
  case_bool_decide; [cli_keeps_files_steps|apply cli_keeps_files_print_numbered].
Qed.

Lemma cli_keeps_files_cmd_add : cli_keeps_files (cmd_add strip int_of_str py_repr todo).
Proof. unfold cmd_add, print_task, input. cli_keeps_files_steps. Qed.

Lemma cli_keeps_files_with_index (prompt message : string) (body : Z -> Cli unit) :
  (∀ j, cli_keeps_files (body j)) ->
  cli_keeps_files (with_index strip int_of_str todo prompt message body).
Proof.
  intros Hbody.
  unfold with_index, input, print, py_int, tasks_index, store_list.
  repeat first [ apply Hbody | progress cli_keeps_files_steps ].
Qed.

Lemma cli_keeps_files_cmd_done : cli_keeps_files (cmd_done strip int_of_str py_repr todo).
Proof.
  rewrite cmd_done_shape. apply cli_keeps_files_with_index. intros j.
  unfold tasks_item, store_list, print_task, mark_done. cli_keeps_files_steps.
Qed.

Lemma cli_keeps_files_cmd_undone : cli_keeps_files (cmd_undone strip int_of_str py_repr todo).
Proof.
  rewrite cmd_undone_shape. apply cli_keeps_files_with_index. intros j.
  unfold tasks_item, store_list, print_task, mark_undone. cli_keeps_files_steps.
Qed.

Lemma cli_keeps_files_cmd_remove : cli_keeps_files (cmd_remove strip int_of_str py_repr todo).
Proof.
  rewrite cmd_remove_shape. apply cli_keeps_files_with_index. intros j.
  unfold tasks_item, store_list, print_task. cli_keeps_files_steps.
Qed.

Lemma cli_keeps_files_cmd_edit : cli_keeps_files (cmd_edit strip int_of_str py_repr todo).
Proof.
  rewrite cmd_edit_shape. apply cli_keeps_files_with_index. intros j.
  unfold tasks_item, store_list, print_task, input, py_int. cli_keeps_files_steps.
Qed.

(** X26.  Nothing but [save] and [exit] writes to the disk: a turn of the
    loop whose command is neither, and a turn that finds the input at
    its end, leave every file as it is, whether the turn returns or
    raises.  What was added, edited, marked or removed since the last
    [save] is in memory only. *)
Theorem only_save_writes (s : session) :
  (∀ line, head (stdin (con s)) = Some line ->
           lower (strip line) ≠ "save" ∧ lower (strip line) ≠ "exit") ->
  files (wld (iteration strip lower int_of_str py_repr todo s).2) = files (wld s).
Proof.
  intros Hcmd. unfold iteration.
  unfold mbind at 1, Cli_bind at 1, cli_bind at 1.
  destruct (print _ s) as [[[]|e] s0] eqn:Hp; [|discriminate Hp].
  injection Hp as <-. simpl.
  unfold mbind at 1, Cli_bind at 1, cli_bind at 1.
  unfold input at 1, mbind at 1, Cli_bind at 1, cli_bind at 1, write, read_line. simpl.
  destruct (stdin (con s)) as [|line rest] eqn:Hin; [reflexivity|].
  destruct (Hcmd line eq_refl) as [Hsave Hexit].
  set (s1 := mkSession _ _).
  change (files (wld s)) with (files (wld s1)).
  generalize s1. change (cli_keeps_files
    (if bool_decide (lower (strip line) = "add") then
       _ ← cmd_add strip int_of_str py_repr todo; cli_ret false
     else if bool_decide (lower (strip line) = "list") then
       _ ← show_tasks py_repr todo true; cli_ret false
     else if bool_decide (lower (strip line) = "list_pending") then
       _ ← show_tasks py_repr todo false; cli_ret false
     else if bool_decide (lower (strip line) = "done") then
       _ ← cmd_done strip int_of_str py_repr todo; cli_ret false
     else if bool_decide (lower (strip line) = "undone") then
       _ ← cmd_undone strip int_of_str py_repr todo; cli_ret false
     else if bool_decide (lower (strip line) = "edit") then
       _ ← cmd_edit strip int_of_str py_repr todo; cli_ret false
     else if bool_decide (lower (strip line) = "remove") then
       _ ← cmd_remove strip int_of_str py_repr todo; cli_ret false
     else if bool_decide (lower (strip line) = "save") then
       _ ← core (save todo tasks_json);
       _ ← print ("Saved to " +:+ tasks_json +:+ ".");
       cli_ret false
     else if bool_decide (lower (strip line) = "exit") then
       _ ← core (save todo tasks_json);
       _ ← print "Saved and exiting. Bye!";
       cli_ret true
     else _ ← print "Unknown command. Try again."; cli_ret false)).
  rewrite (bool_decide_eq_false_2 _ Hsave), (bool_decide_eq_false_2 _ Hexit).
  repeat case_bool_decide;
    (apply cli_keeps_files_bind; [|intros ?; apply cli_keeps_files_ret]);
    first [ apply cli_keeps_files_cmd_add | apply cli_keeps_files_show_tasks
          | apply cli_keeps_files_cmd_done | apply cli_keeps_files_cmd_undone
          | apply cli_keeps_files_cmd_edit | apply cli_keeps_files_cmd_remove
          | unfold print; cli_keeps_files_steps ].
Qed.

End WritesNoFile.

Lemma only_save_writes_witness :
  files (wld (iteration sample_strip sample_strip sample_int sample_repr 0%nat
                (at_prompt ["add"; "d"] [] sample_world)).2)
  = files sample_world.
Proof.
  apply (only_save_writes sample_strip sample_strip sample_int sample_repr 0%nat
           (at_prompt ["add"; "d"] [] sample_world)).
  intros line [= <-]. split; discriminate.
Defined.

(** ** The loop at work *)

Lemma demo_cli_total_witness :
  match (demo_cli sample_strip sample_strip sample_int sample_repr 2
           (at_prompt ["exit"] [] empty_world)).1 with
  | Returns _ =>
      saved (fresh (dom (stores empty_world)))
        (wld (demo_cli sample_strip sample_strip sample_int sample_repr 2
                (at_prompt ["exit"] [] empty_world)).2)
  | Raises e => e = EOFError
  end.
Proof.
  pose proof (demo_cli_total sample_strip sample_strip sample_int sample_repr 2
                (at_prompt ["exit"] [] empty_world)
                heap_valid_empty_world int_priority_files_empty_world
                (or_introl eq_refl)) as H.
  assert (Hfuel : (pending_input (at_prompt ["exit"] [] empty_world) < 2)%nat)
    by (unfold pending_input; simpl; lia).
  specialize (H Hfuel).
  destruct (demo_cli sample_strip sample_strip sample_int sample_repr 2
              (at_prompt ["exit"] [] empty_world)).1; tauto.
Defined.

Lemma demo_cli_bad_file_witness :
  ∃ e w', demo_cli sample_strip sample_strip sample_int sample_repr 1
            (at_prompt ["exit"] [] corrupt_world)
          = (Raises (Core e), at_prompt ["exit"] [] w').
Proof.
  destruct (demo_cli_bad_file sample_strip sample_strip sample_int sample_repr 1
              (at_prompt ["exit"] [] corrupt_world) Corrupt eq_refl (or_introl eq_refl))
    as (e & w' & H & _).
  exists e, w'. exact H.
Defined.

Lemma iteration_spec_witness :
  iteration sample_strip sample_strip sample_int sample_repr 0%nat
    (at_prompt ["help"] [] sample_world)
  = (Returns false,
     at_prompt []
       ([newline +:+
         "Commands: add, list, list_pending, done, undone, edit, remove, save, exit";
         newline; "Enter command: "; "Unknown command. Try again."; newline])
       sample_world).
Proof.
  apply (iteration_spec sample_strip sample_strip sample_int sample_repr 0%nat
           "help" [] [] sample_world).
  intros H. repeat (apply elem_of_cons in H as [H | H]; [discriminate H|]). inversion H.
Defined.

Lemma cmd_add_spec_witness :
  ∃ text, cmd_add sample_strip sample_int sample_repr 0%nat
            (at_prompt ["d"; ""; "7"; ""] [] sample_world)
          = (Returns tt,
             at_prompt []
               ["Title: "; "Note (optional): ";
                "Priority 1=High, 2=Med, 3=Low (default 2): ";
                "Assignee (default Unassigned): "; "Added:"; " "; text; newline]
               (with_lists (<[0%nat := [0; 1; 2]%nat ++ [fresh (dom (heap sample_world))]]>
                              (lists sample_world))
                  (with_heap
                     (<[fresh (dom (heap sample_world)) :=
                          mkTask (VStr "d") (VStr "") (VInt 3) (VStr "Unassigned")
                            (VBool false) (VStr "now")]> (heap sample_world))
                     (with_ticks 1 sample_world)))).
Proof.
  destruct (cmd_add_spec sample_strip sample_int sample_repr 0%nat "d" "" "7" "" [] []
              sample_world 0%nat [0; 1; 2]%nat eq_refl eq_refl) as (_ & _ & text & _ & H).
  exists text. exact H.
Defined.

Lemma show_tasks_spec_witness :
  show_tasks sample_repr 0%nat false (at_prompt [] [] sample_world)
  = (Returns tt,
     at_prompt []
       ["0. [ ] a (Priority: High, Assignee: Unassigned)"; newline;
        "1. [ ] c (Priority: Low, Assignee: Bob)"; newline]
       (after_get_tasks [0; 2]%nat sample_world)).
Proof.
  apply (proj1 (show_tasks_spec sample_repr 0%nat false [] [] sample_world 0%nat [0; 1; 2]%nat
                  eq_refl eq_refl sample_world_allocated)
           ["[ ] a (Priority: High, Assignee: Unassigned)";
            "[ ] c (Priority: Low, Assignee: Bob)"]).
  reflexivity.
Defined.

Lemma cmd_done_undone_spec_witness :
  cmd_undone sample_strip sample_int sample_repr 0%nat (at_prompt ["1"] [] sample_world)
  = (Returns tt,
     at_prompt []
       ["Index to mark undone: "; "Marked undone:"; " ";
        "[ ] b (Priority: Med, Assignee: Ann)"; newline]
       (with_heap (<[1%nat := set_done (VBool false) sample_task]> (heap sample_world))
          (after_get_tasks [0; 1; 2]%nat sample_world))).
Proof.
  apply (cmd_done_undone_spec sample_strip sample_int sample_repr 0%nat "1" [] []
           sample_world 0%nat 1%nat [0; 1; 2]%nat 1 sample_task); try reflexivity. lia.
Defined.

Lemma cmd_edit_spec_witness :
  cmd_edit sample_strip sample_int sample_repr 0%nat
    (at_prompt ["1"; "z"; ""; "high"; ""] [] sample_world)
  = (Returns tt,
     at_prompt []
       ["Index to edit: "; "New title (leave blank to keep): ";
        "New note (leave blank to keep): "; "New priority 1-3 (leave blank to keep): ";
        "New assignee (leave blank to keep): ";
        "Please enter numbers for index/priority when required."; newline]
       (after_get_tasks [0; 1; 2]%nat sample_world)).
Proof.
  apply (cmd_edit_spec sample_strip sample_int sample_repr 0%nat "1" "z" "" "high" "" [] []
           sample_world 0%nat 1%nat [0; 1; 2]%nat 1 sample_task); try reflexivity. lia.
Defined.

Lemma cmd_remove_spec_witness :
  ∃ j, list_index [0; 1; 2]%nat 1%nat = Some j ∧
       (cmd_remove sample_strip sample_int sample_repr 0%nat
          (at_prompt ["1"] [] sample_world)).1 = Returns tt.
Proof.
  destruct (cmd_remove_spec sample_strip sample_int sample_repr 0%nat "1" [] []
              sample_world 0%nat 1%nat [0; 1; 2]%nat 1 sample_task)
    as (j & Hj & _ & H); try reflexivity; [lia|].
  exists j. split; [exact Hj|]. rewrite H. reflexivity.
Defined.

Lemma invalid_index_spec_witness :
  cmd_remove sample_strip sample_int sample_repr 0%nat (at_prompt ["7"] [] sample_world)
  = (Returns tt,
     at_prompt [] ["Index to remove: "; "Invalid index."; newline]
       (after_get_tasks [0; 1; 2]%nat sample_world)).
Proof.
  pose proof (invalid_index_spec sample_strip sample_int sample_repr 0%nat "7" [] []
                sample_world) as H.
  apply Forall_cons in H as [_ H]. apply Forall_cons in H as [_ H].
  apply Forall_cons in H as [_ H]. apply Forall_cons in H as [[_ H] _].
  apply (H 7 0%nat [0; 1; 2]%nat); try reflexivity. simpl. lia.
Defined.
